(** * MikroRoom signaling core: room registry and connection dispatcher

    A shallow embedding of [src/api/room-manager.ts] (class [RoomManager])
    and [src/api/signaling.ts] (class [SignalingServer]), with the record
    types of [src/api/types.ts], and of the rate limiter and the WebSocket
    framing of [src/api/index.ts], followed by the properties of the room
    registry and of the dispatcher that the specification states and by
    further properties of the registry, the dispatcher, the limiter and
    the framing.

    Modelling conventions.
    - A JavaScript [Map] keeps its keys in insertion order; the registry
      relies on that order when it promotes a new host.  Maps keyed by
      strings are therefore association lists ([JsMap]) with the update
      discipline of [Map.prototype.set] and [Map.prototype.delete].
    - [Participant] objects are shared between a room's [participants]
      map and the dispatcher's socket table and are mutated through either
      alias.  They live in a store ([heap]); both maps hold references.
    - [Date.now()], [randomUUID()] and a socket's [readyState] are inputs
      of the operations that read them.  Calls of [socket.send] and
      [socket.close] are recorded, in order, as a list of effects.
    - A [Buffer] is a list of numbers, each a byte.  A text payload is
      given by its UTF-8 bytes; the substitution that [toString("utf-8")]
      makes for bytes that are no UTF-8 encoding is not modelled. *)

From stdpp Require Import base option list sorting gmap strings.
From Stdlib Require Import ZArith Lia.

Local Open Scope Z_scope.

(** ** Insertion-ordered maps (the JavaScript [Map]) *)

Module JsMap.
Section Defs.
Context {K V : Type} `{EqDecision K}.

Definition t := list (K * V).

(** [Map.prototype.get] *)
Fixpoint get (k : K) (m : list (K * V)) : option V :=
  match m with
  | [] => None
  | (k', v) :: m' => if decide (k = k') then Some v else get k m'
  end.

(** [Map.prototype.has] *)
Definition has (k : K) (m : list (K * V)) : bool :=
  match get k m with Some _ => true | None => false end.

(** [Map.prototype.set]: an existing key keeps its position, a new key
    goes last. *)
Fixpoint set (k : K) (v : V) (m : list (K * V)) : list (K * V) :=
  match m with
  | [] => [(k, v)]
  | (k', v') :: m' =>
      if decide (k = k') then (k, v) :: m' else (k', v') :: set k v m'
  end.

(** [Map.prototype.delete] *)
Fixpoint delete (k : K) (m : list (K * V)) : list (K * V) :=
  match m with
  | [] => []
  | (k', v) :: m' =>
      if decide (k = k') then delete k m' else (k', v) :: delete k m'
  end.

(** [Map.prototype.size] *)
Definition size (m : list (K * V)) : nat := length m.

(** [Array.from(m.values())] *)
Definition values (m : list (K * V)) : list V := map snd m.

(** [m.values().next().value] *)
Definition first_value (m : list (K * V)) : option V :=
  match m with [] => None | (_, v) :: _ => Some v end.

(** Mutation of the object stored under [k], where the stored value is a
    record held by value. *)
Definition alter (f : V -> V) (k : K) (m : list (K * V)) : list (K * V) :=
  match get k m with
  | Some v => set k (f v) m
  | None => m
  end.
End Defs.
Global Arguments t : clear implicits.
End JsMap.

(** ** Data model ([src/api/types.ts]) *)

(** Identity of a [Participant] object in the store. *)
Definition Ref := nat.
(** Identity of a socket object. *)
Definition Socket := nat.

(** [name] is a [string], as [types.ts] declares it.  A join frame that
    carries no name, against its type, leaves [undefined] there; the model
    records the empty string. *)
Record Participant := mkParticipant {
  p_id : string;
  p_name : string;
  p_socket : Socket;
  p_roomId : string;
  isModerator : bool;
  isMuted : bool;
  isVideoOff : bool;
  isHandRaised : bool;
  joinedAt : Z
}.

Record WaitingParticipant := mkWaitingParticipant {
  w_id : string;
  w_name : string;
  w_socket : Socket;
  requestedAt : Z
}.

(** [maxParticipants] is a [number] that the registry stores as it is
    given; the model takes it in the integers, negative ones included. *)
Record Room := mkRoom {
  r_id : string;
  participants : JsMap.t string Ref;
  waitingRoom : JsMap.t string WaitingParticipant;
  password : option string;
  isLocked : bool;
  hostId : option string;
  createdAt : Z;
  maxParticipants : Z;
  creatorToken : option string;
  isPreCreated : bool
}.

Record RoomConfig := mkRoomConfig {
  c_password : option string;
  c_maxParticipants : option Z
}.

Record PreCreatedRoomData := mkPreCreatedRoomData {
  d_roomId : string;
  d_password : option string;
  d_creatorToken : string;
  d_createdAt : Z;
  d_maxParticipants : Z
}.

(** [Partial<Participant>]: a field that is absent from the patch is
    [None]. *)
Record PartialParticipant := mkPartial {
  u_id : option string;
  u_name : option string;
  u_socket : option Socket;
  u_roomId : option string;
  u_isModerator : option bool;
  u_isMuted : option bool;
  u_isVideoOff : option bool;
  u_isHandRaised : option bool;
  u_joinedAt : option Z
}.

(** JavaScript truthiness of an optional string: [undefined] and the empty
    string are falsy. *)
Definition truthy (s : option string) : bool :=
  match s with
  | None => false
  | Some s' => negb (String.eqb s' "")
  end.

(** [Object.assign(participant, updates)] *)
Definition assign (p : Participant) (u : PartialParticipant) : Participant :=
  {| p_id := default (p_id p) (u_id u);
     p_name := default (p_name p) (u_name u);
     p_socket := default (p_socket p) (u_socket u);
     p_roomId := default (p_roomId p) (u_roomId u);
     isModerator := default (isModerator p) (u_isModerator u);
     isMuted := default (isMuted p) (u_isMuted u);
     isVideoOff := default (isVideoOff p) (u_isVideoOff u);
     isHandRaised := default (isHandRaised p) (u_isHandRaised u);
     joinedAt := default (joinedAt p) (u_joinedAt u) |}.

Definition set_isModerator (b : bool) (p : Participant) : Participant :=
  assign p {| u_id := None; u_name := None; u_socket := None; u_roomId := None;
              u_isModerator := Some b; u_isMuted := None; u_isVideoOff := None;
              u_isHandRaised := None; u_joinedAt := None |}.

(** ** Messages ([src/api/types.ts]) *)

Inductive MessageType :=
| T_join | T_leave | T_offer | T_answer | T_ice_candidate
| T_participant_joined | T_participant_left | T_participant_updated
| T_chat | T_file_offer | T_file_answer | T_file_chunk
| T_moderator_action | T_room_locked | T_room_unlocked | T_waiting_room
| T_admit_user | T_reject_user | T_raise_hand | T_lower_hand
| T_recording_started | T_recording_stopped | T_quality_change | T_error
| T_unknown (tag : string).

Inductive ModeratorAction := A_mute | A_unmute | A_kick | A_make_moderator.

(** A parsed JSON envelope.  The four common fields are always there; a
    variant field the object does not carry is [None].  [m_rest] stands for
    the variant fields the server never reads ([sdp], [candidate], [text],
    [chunk], ...), which the spread [{...message}] copies unchanged.
    [m_action] is [None] also for an action outside [ModeratorAction]. *)
Record Msg := mkMsg {
  m_type : MessageType;
  m_roomId : string;
  m_participantId : string;
  m_timestamp : Z;
  m_name : option string;
  m_password : option string;
  m_isHost : option bool;
  m_creatorToken : option string;
  m_targetId : option string;
  m_action : option ModeratorAction;
  m_isModerator : option bool;
  m_isMuted : option bool;
  m_isVideoOff : option bool;
  m_isHandRaised : option bool;
  m_message : option string;
  m_code : option string;
  m_reason : option string;
  m_lockedBy : option string;
  m_unlockedBy : option string;
  m_rest : string
}.

(** An object literal with the common fields only. *)
Definition baseMsg (ty : MessageType) (roomId participantId : string) (ts : Z) : Msg :=
  mkMsg ty roomId participantId ts None None None None None None None None
        None None None None None None None "".

(** [{...message, participantId: pid}] *)
Definition with_participantId (pid : string) (m : Msg) : Msg :=
  mkMsg (m_type m) (m_roomId m) pid (m_timestamp m) (m_name m) (m_password m)
        (m_isHost m) (m_creatorToken m) (m_targetId m) (m_action m)
        (m_isModerator m) (m_isMuted m) (m_isVideoOff m) (m_isHandRaised m)
        (m_message m) (m_code m) (m_reason m) (m_lockedBy m) (m_unlockedBy m)
        (m_rest m).

(** [{...message, participantId: pid, timestamp: ts}] *)
Definition with_participantId_timestamp (pid : string) (ts : Z) (m : Msg) : Msg :=
  mkMsg (m_type m) (m_roomId m) pid ts (m_name m) (m_password m)
        (m_isHost m) (m_creatorToken m) (m_targetId m) (m_action m)
        (m_isModerator m) (m_isMuted m) (m_isVideoOff m) (m_isHandRaised m)
        (m_message m) (m_code m) (m_reason m) (m_lockedBy m) (m_unlockedBy m)
        (m_rest m).

(** What a handler does to sockets: [socket.send(JSON.stringify(m))] and
    [socket.close()]. *)
Inductive Effect :=
| Send (s : Socket) (m : Msg)
| Close (s : Socket).

(** [WebSocketConnection.OPEN], [CLOSING], [CLOSED] ([src/api/index.ts]) *)
Definition OPEN : Z := 1.
Definition CLOSING : Z := 2.
Definition CLOSED : Z := 3.

(** [WebSocketConnection.close]: a socket that is not yet closed becomes
    [CLOSING]. *)
Definition close_socket (s : Socket) (rs : Socket -> Z) : Socket -> Z :=
  fun s' => if decide (s' = s) then (if rs s =? CLOSED then CLOSED else CLOSING) else rs s'.

Definition apply_effect (rs : Socket -> Z) (e : Effect) : Socket -> Z :=
  match e with
  | Send _ _ => rs
  | Close s => close_socket s rs
  end.

Definition apply_effects (es : list Effect) (rs : Socket -> Z) : Socket -> Z :=
  fold_left apply_effect es rs.

(** ** The room registry ([src/api/room-manager.ts]) *)

(** State of a [RoomManager].  [heap] is the store of [Participant]
    objects its rooms refer to; [persisted] is the content of the file at
    [persistencePath]. *)
Record RoomManager := mkRoomManager {
  heap : list Participant;
  rooms : JsMap.t string Room;
  peakParticipants : nat;
  maxLatentRooms : Z;
  latentRoomMaxAgeMs : Z;
  persisted : list PreCreatedRoomData
}.

Definition defaultMaxParticipants : Z := 8.

(** [new RoomManager(options)] with no file at [persistencePath]. *)
Definition newRoomManager (maxLatent : option Z) (latentHours : option Z) : RoomManager :=
  mkRoomManager [] [] 0%nat (default 10 maxLatent)
                (default 24 latentHours * 60 * 60 * 1000) [].

Definition set_heap (h : list Participant) (st : RoomManager) : RoomManager :=
  mkRoomManager h (rooms st) (peakParticipants st) (maxLatentRooms st)
                (latentRoomMaxAgeMs st) (persisted st).

Definition set_rooms (rs : JsMap.t string Room) (st : RoomManager) : RoomManager :=
  mkRoomManager (heap st) rs (peakParticipants st) (maxLatentRooms st)
                (latentRoomMaxAgeMs st) (persisted st).

Definition set_peakParticipants (n : nat) (st : RoomManager) : RoomManager :=
  mkRoomManager (heap st) (rooms st) n (maxLatentRooms st)
                (latentRoomMaxAgeMs st) (persisted st).

Definition set_persisted (d : list PreCreatedRoomData) (st : RoomManager) : RoomManager :=
  mkRoomManager (heap st) (rooms st) (peakParticipants st) (maxLatentRooms st)
                (latentRoomMaxAgeMs st) d.

Definition set_participants (ps : JsMap.t string Ref) (r : Room) : Room :=
  mkRoom (r_id r) ps (waitingRoom r) (password r) (isLocked r) (hostId r)
         (createdAt r) (maxParticipants r) (creatorToken r) (isPreCreated r).

Definition set_waitingRoom (ws : JsMap.t string WaitingParticipant) (r : Room) : Room :=
  mkRoom (r_id r) (participants r) ws (password r) (isLocked r) (hostId r)
         (createdAt r) (maxParticipants r) (creatorToken r) (isPreCreated r).

Definition set_isLocked (b : bool) (r : Room) : Room :=
  mkRoom (r_id r) (participants r) (waitingRoom r) (password r) b (hostId r)
         (createdAt r) (maxParticipants r) (creatorToken r) (isPreCreated r).

Definition set_hostId (h : option string) (r : Room) : Room :=
  mkRoom (r_id r) (participants r) (waitingRoom r) (password r) (isLocked r) h
         (createdAt r) (maxParticipants r) (creatorToken r) (isPreCreated r).

(** The object a reference designates.  Every reference the code holds
    designates an object; the default is never read in a reachable state. *)
Definition noParticipant : Participant :=
  mkParticipant "" "" 0%nat "" false false false false 0.

Definition deref (h : list Participant) (r : Ref) : Participant :=
  default noParticipant (h !! r).

(** A new object literal. *)
Definition alloc (p : Participant) (st : RoomManager) : Ref * RoomManager :=
  (length (heap st), set_heap (heap st ++ [p]) st).

(** Assignment to fields of the object behind [r]. *)
Definition mutate (r : Ref) (f : Participant -> Participant) (st : RoomManager) : RoomManager :=
  set_heap (<[r := f (deref (heap st) r)]> (heap st)) st.

(** Assignment to fields of the room object stored under [roomId]. *)
Definition update_room (roomId : string) (f : Room -> Room) (st : RoomManager) : RoomManager :=
  set_rooms (JsMap.alter f roomId (rooms st)) st.

Definition getRoom (roomId : string) (st : RoomManager) : option Room :=
  JsMap.get roomId (rooms st).

Definition createRoom (roomId : string) (config : option RoomConfig) (now : Z)
    (st : RoomManager) : Room * RoomManager :=
  let room :=
    {| r_id := roomId;
       participants := [];
       waitingRoom := [];
       password := config ≫= c_password;
       isLocked := false;
       hostId := None;
       createdAt := now;
       maxParticipants := default defaultMaxParticipants (config ≫= c_maxParticipants);
       creatorToken := None;
       isPreCreated := false |} in
  (room, set_rooms (JsMap.set roomId room (rooms st)) st).

Definition getLatentRoomCount (st : RoomManager) : Z :=
  Z.of_nat (length (List.filter
    (fun r : Room => isPreCreated r && (JsMap.size (participants r) =? 0)%nat)
    (JsMap.values (rooms st)))).

(** [persistPreCreatedRooms], with a write that succeeds. *)
Definition persistPreCreatedRooms (st : RoomManager) : RoomManager :=
  set_persisted
    (omap (fun r : Room =>
       if isPreCreated r && truthy (creatorToken r) then
         Some {| d_roomId := r_id r;
                 d_password := password r;
                 d_creatorToken := default "" (creatorToken r);
                 d_createdAt := createdAt r;
                 d_maxParticipants := maxParticipants r |}
       else None)
     (JsMap.values (rooms st)))
    st.

Record PreCreateOptions := mkPreCreateOptions {
  o_roomId : option string;
  o_password : option string;
  o_maxParticipants : option Z
}.

(** [generated] is the value of [generateRoomId()], [token] the value of
    [randomUUID()]. *)
Definition preCreateRoom (options : option PreCreateOptions) (generated token : string)
    (now : Z) (st : RoomManager) : option (string * string) * RoomManager :=
  if getLatentRoomCount st >=? maxLatentRooms st then (None, st)
  else
    let roomId := default generated (options ≫= o_roomId) in
    if JsMap.has roomId (rooms st) then (None, st)
    else
      let room :=
        {| r_id := roomId;
           participants := [];
           waitingRoom := [];
           password := options ≫= o_password;
           isLocked := false;
           hostId := None;
           createdAt := now;
           maxParticipants :=
             default defaultMaxParticipants (options ≫= o_maxParticipants);
           creatorToken := Some token;
           isPreCreated := true |} in
      (Some (roomId, token),
       persistPreCreatedRooms (set_rooms (JsMap.set roomId room (rooms st)) st)).

Definition validateCreatorToken (roomId token : string) (st : RoomManager) : bool :=
  match JsMap.get roomId (rooms st) with
  | None => false
  | Some room =>
      if negb (truthy (creatorToken room)) then false
      else bool_decide (creatorToken room = Some token)
  end.

Definition getOrCreateRoom (roomId : string) (config : option RoomConfig) (now : Z)
    (st : RoomManager) : Room * RoomManager :=
  match getRoom roomId st with
  | Some existing => (existing, st)
  | None => createRoom roomId config now st
  end.

Definition validatePassword (roomId : string) (pw : option string) (st : RoomManager) : bool :=
  match JsMap.get roomId (rooms st) with
  | None => true
  | Some room =>
      if negb (truthy (password room)) then true
      else bool_decide (password room = pw)
  end.

Definition addToWaitingRoom (roomId : string) (participant : WaitingParticipant) (now : Z)
    (st : RoomManager) : bool * RoomManager :=
  let '(room, st1) := getOrCreateRoom roomId None now st in
  if Z.of_nat (JsMap.size (participants room)) >=? maxParticipants room then (false, st1)
  else
    (true,
     update_room roomId
       (fun r => set_waitingRoom (JsMap.set (w_id participant) participant (waitingRoom r)) r)
       st1).

Definition admitFromWaitingRoom (roomId participantId : string) (st : RoomManager)
    : option WaitingParticipant * RoomManager :=
  match JsMap.get roomId (rooms st) with
  | None => (None, st)
  | Some room =>
      match JsMap.get participantId (waitingRoom room) with
      | Some participant =>
          (Some participant,
           update_room roomId
             (fun r => set_waitingRoom (JsMap.delete participantId (waitingRoom r)) r) st)
      | None => (None, st)
      end
  end.

Definition rejectFromWaitingRoom (roomId participantId : string) (st : RoomManager)
    : option WaitingParticipant * RoomManager :=
  match JsMap.get roomId (rooms st) with
  | None => (None, st)
  | Some room =>
      match JsMap.get participantId (waitingRoom room) with
      | Some participant =>
          (Some participant,
           update_room roomId
             (fun r => set_waitingRoom (JsMap.delete participantId (waitingRoom r)) r) st)
      | None => (None, st)
      end
  end.

Definition getTotalParticipants (st : RoomManager) : nat :=
  fold_left (fun count (room : Room) => (count + JsMap.size (participants room))%nat)
            (JsMap.values (rooms st)) 0%nat.

Definition addParticipant (roomId : string) (participant : Ref) (isHost : bool) (now : Z)
    (st : RoomManager) : bool * RoomManager :=
  let '(room, st1) := getOrCreateRoom roomId None now st in
  if Z.of_nat (JsMap.size (participants room)) >=? maxParticipants room then (false, st1)
  else
    let pid := p_id (deref (heap st1) participant) in
    let st2 :=
      if (JsMap.size (participants room) =? 0)%nat || isHost then
        mutate participant (set_isModerator true)
               (update_room roomId (set_hostId (Some pid)) st1)
      else st1 in
    let st3 :=
      update_room roomId
        (fun r => set_participants (JsMap.set pid participant (participants r)) r) st2 in
    let currentTotal := getTotalParticipants st3 in
    (true,
     if (peakParticipants st3 <? currentTotal)%nat
     then set_peakParticipants currentTotal st3 else st3).

Definition removeParticipant (roomId participantId : string) (st : RoomManager) : RoomManager :=
  match JsMap.get roomId (rooms st) with
  | None => st
  | Some room =>
      let ps := JsMap.delete participantId (participants room) in
      let st1 := update_room roomId (set_participants ps) st in
      let st2 :=
        if bool_decide (hostId room = Some participantId) && (0 <? JsMap.size ps)%nat then
          match JsMap.first_value ps with
          | Some newHost =>
              mutate newHost (set_isModerator true)
                (update_room roomId
                   (set_hostId (Some (p_id (deref (heap st1) newHost)))) st1)
          | None => st1
          end
        else st1 in
      if (JsMap.size ps =? 0)%nat && negb (isPreCreated room)
      then set_rooms (JsMap.delete roomId (rooms st2)) st2
      else st2
  end.

Definition updateParticipant (roomId participantId : string) (updates : PartialParticipant)
    (st : RoomManager) : RoomManager :=
  match JsMap.get roomId (rooms st) with
  | None => st
  | Some room =>
      match JsMap.get participantId (participants room) with
      | Some participant => mutate participant (fun p => assign p updates) st
      | None => st
      end
  end.

Definition lockRoom (roomId : string) (st : RoomManager) : RoomManager :=
  update_room roomId (set_isLocked true) st.

Definition unlockRoom (roomId : string) (st : RoomManager) : RoomManager :=
  update_room roomId (set_isLocked false) st.

Definition isRoomLocked (roomId : string) (st : RoomManager) : bool :=
  match JsMap.get roomId (rooms st) with
  | Some room => isLocked room
  | None => false
  end.

Definition getParticipants (roomId : string) (st : RoomManager) : list Ref :=
  match JsMap.get roomId (rooms st) with
  | Some room => JsMap.values (participants room)
  | None => []
  end.

Definition getWaitingParticipants (roomId : string) (st : RoomManager)
    : list WaitingParticipant :=
  match JsMap.get roomId (rooms st) with
  | Some room => JsMap.values (waitingRoom room)
  | None => []
  end.

Definition getOtherParticipants (roomId excludeId : string) (st : RoomManager) : list Ref :=
  List.filter (fun p => negb (String.eqb (p_id (deref (heap st) p)) excludeId))
              (getParticipants roomId st).

(** The sends of [broadcast], in order. *)
Definition broadcast (rs : Socket -> Z) (roomId : string) (message : Msg)
    (excludeId : option string) (st : RoomManager) : list Effect :=
  omap (fun p =>
          let s := p_socket (deref (heap st) p) in
          if rs s =? 1 then Some (Send s message) else None)
       (getOtherParticipants roomId (default "" excludeId) st).

(** The sends of [sendTo]: at most one.  A [participantId] that is
    [undefined] is no key of the map. *)
Definition sendTo (rs : Socket -> Z) (participantId : option string) (roomId : string)
    (message : Msg) (st : RoomManager) : list Effect :=
  match JsMap.get roomId (rooms st) with
  | None => []
  | Some room =>
      match participantId ≫= (fun k => JsMap.get k (participants room)) with
      | Some participant =>
          let s := p_socket (deref (heap st) participant) in
          if rs s =? 1 then [Send s message] else []
      | None => []
      end
  end.

Definition getRoomCount (st : RoomManager) : nat := JsMap.size (rooms st).

Definition cleanupAbandonedRooms (maxAgeMs : Z) (now : Z) (st : RoomManager)
    : nat * RoomManager :=
  let abandoned (room : Room) : bool :=
    (JsMap.size (participants room) =? 0)%nat
    && (now - createdAt room >?
        (if isPreCreated room then latentRoomMaxAgeMs st else maxAgeMs)) in
  let removed := List.filter (fun kv => abandoned kv.2) (rooms st) in
  let st1 := set_rooms (List.filter (fun kv => negb (abandoned kv.2)) (rooms st)) st in
  let persistNeeded := existsb (fun kv : string * Room => isPreCreated kv.2) removed in
  (length removed, if persistNeeded then persistPreCreatedRooms st1 else st1).

Definition RoomManager_isModerator (roomId participantId : string) (st : RoomManager) : bool :=
  match JsMap.get roomId (rooms st) with
  | None => false
  | Some room =>
      match JsMap.get participantId (participants room) with
      | Some participant => isModerator (deref (heap st) participant)
      | None => false
      end
  end.

Definition kickParticipant (rs : Socket -> Z) (roomId participantId : string)
    (st : RoomManager) : option Ref * RoomManager * list Effect :=
  match JsMap.get roomId (rooms st) with
  | None => (None, st, [])
  | Some room =>
      match JsMap.get participantId (participants room) with
      | Some participant =>
          let s := p_socket (deref (heap st) participant) in
          (Some participant, removeParticipant roomId participantId st,
           if rs s =? 1 then [Close s] else [])
      | None => (None, st, [])
      end
  end.

(** ** The connection dispatcher ([src/api/signaling.ts]) *)

(** State of a [SignalingServer]: the registry and the two socket tables. *)
Record SignalingServer := mkSignalingServer {
  roomManager : RoomManager;
  s_participants : gmap Socket Ref;
  s_waitingParticipants : gmap Socket WaitingParticipant
}.

Definition newSignalingServer (rm : RoomManager) : SignalingServer :=
  mkSignalingServer rm ∅ ∅.

Definition set_roomManager (rm : RoomManager) (ss : SignalingServer) : SignalingServer :=
  mkSignalingServer rm (s_participants ss) (s_waitingParticipants ss).

(** A text frame: [JSON.parse] throws on [Invalid]. *)
Inductive Frame :=
| Invalid
| Json (message : Msg).

Definition errorMessage (message : string) (code : option string) (now : Z) : Msg :=
  mkMsg T_error "" "" now None None None None None None None None
        None None (Some message) code None None None "".

Definition sendError (rs : Socket -> Z) (socket : Socket) (message : string)
    (code : option string) (now : Z) : list Effect :=
  if rs socket =? 1 then [Send socket (errorMessage message code now)] else [].

Definition participantJoined (roomId participantId : string) (name : option string)
    (moderator muted videoOff : bool) (now : Z) : Msg :=
  mkMsg T_participant_joined roomId participantId now name None None None None None
        (Some moderator) (Some muted) (Some videoOff) None None None None None None "".

Definition waitingRoomMsg (roomId participantId : string) (name : option string) (now : Z) : Msg :=
  mkMsg T_waiting_room roomId participantId now name None None None None None
        None None None None None None None None None "".

Definition participantUpdated (roomId participantId : string)
    (muted videoOff handRaised : option bool) (now : Z) : Msg :=
  mkMsg T_participant_updated roomId participantId now None None None None None None
        None muted videoOff handRaised None None None None None "".

(** [participant-joined] describing the participant behind [p]. *)
Definition describe (roomId : string) (now : Z) (h : list Participant) (p : Ref) : Msg :=
  let e := deref h p in
  participantJoined roomId (p_id e) (Some (p_name e)) (isModerator e) (isMuted e)
                    (isVideoOff e) now.

(** [participantId] is the value of [randomUUID()]. *)
Definition handleJoin (rs : Socket -> Z) (socket : Socket) (message : Msg)
    (participantId : string) (now : Z) (ss : SignalingServer)
    : SignalingServer * list Effect :=
  let rm := roomManager ss in
  let roomId := m_roomId message in
  let existingRoom := getRoom roomId rm in
  if negb (default false (m_isHost message)) && negb (bool_decide (is_Some existingRoom)) then
    (ss, sendError rs socket "Meeting not found. Check the code and try again."
                   (Some "ROOM_NOT_FOUND") now)
  else if bool_decide (is_Some existingRoom)
          && negb (validatePassword roomId (m_password message) rm) then
    (ss, sendError rs socket "Invalid room password" (Some "INVALID_PASSWORD") now)
  else
    let isCreator :=
      truthy (m_creatorToken message)
      && validateCreatorToken roomId (default "" (m_creatorToken message)) rm in
    if isRoomLocked roomId rm && negb isCreator then
      let waitingParticipant :=
        {| w_id := participantId; w_name := default "" (m_name message);
           w_socket := socket; requestedAt := now |} in
      let '(ok, rm1) := addToWaitingRoom roomId waitingParticipant now rm in
      if ok then
        let waitingAck := waitingRoomMsg roomId participantId (m_name message) now in
        let waitingMessage := waitingRoomMsg roomId participantId (m_name message) now in
        (mkSignalingServer rm1 (s_participants ss)
           (<[socket := waitingParticipant]> (s_waitingParticipants ss)),
         Send socket waitingAck ::
         omap (fun p =>
                 let e := deref (heap rm1) p in
                 if isModerator e && (rs (p_socket e) =? 1)
                 then Some (Send (p_socket e) waitingMessage) else None)
              (getParticipants roomId rm1))
      else (set_roomManager rm1 ss, sendError rs socket "Room is full" None now)
    else
      let rm1 :=
        if truthy (m_password message) && negb (bool_decide (is_Some existingRoom))
        then (createRoom roomId (Some {| c_password := m_password message;
                                         c_maxParticipants := None |}) now rm).2
        else rm in
      let '(participant, rm2) :=
        alloc {| p_id := participantId; p_name := default "" (m_name message);
                 p_socket := socket; p_roomId := roomId; isModerator := false;
                 isMuted := false; isVideoOff := false; isHandRaised := false;
                 joinedAt := now |} rm1 in
      let '(added, rm3) :=
        addParticipant roomId participant (default false (m_isHost message) || isCreator)
                       now rm2 in
      if negb added then (set_roomManager rm3 ss, sendError rs socket "Room is full" None now)
      else
        let rm4 :=
          match getRoom roomId rm3 with
          | Some room =>
              if isCreator || (JsMap.size (participants room) =? 1)%nat then
                mutate participant (set_isModerator true)
                  (update_room roomId
                     (set_hostId (Some (p_id (deref (heap rm3) participant)))) rm3)
              else rm3
          | None => rm3
          end in
        let e := deref (heap rm4) participant in
        let joinNotification :=
          participantJoined roomId participantId (m_name message) (isModerator e)
                            (isMuted e) (isVideoOff e) now in
        (mkSignalingServer rm4 (<[socket := participant]> (s_participants ss))
           (s_waitingParticipants ss),
         broadcast rs roomId joinNotification (Some participantId) rm4
         ++ [Send socket joinNotification]
         ++ map (fun existing => Send socket (describe roomId now (heap rm4) existing))
                (getOtherParticipants roomId participantId rm4)).

(** The first room, in the order of the registry, whose waiting map has
    the id. *)
Definition findRoomForWaitingParticipant (participantId : string) (rm : RoomManager)
    : option string :=
  fst <$> List.find (fun kv : string * Room => JsMap.has participantId (waitingRoom kv.2))
                    (rooms rm).

(** Runs on a [leave] frame and on the [close] and [error] events of a
    socket. *)
Definition handleDisconnect (rs : Socket -> Z) (socket : Socket) (now : Z)
    (ss : SignalingServer) : SignalingServer * list Effect :=
  let rm := roomManager ss in
  match s_participants ss !! socket with
  | Some participant =>
      let e := deref (heap rm) participant in
      let rm1 := removeParticipant (p_roomId e) (p_id e) rm in
      let leaveMessage := baseMsg T_participant_left (p_roomId e) (p_id e) now in
      (mkSignalingServer rm1 (delete socket (s_participants ss)) (s_waitingParticipants ss),
       broadcast rs (p_roomId e) leaveMessage None rm1)
  | None =>
      match s_waitingParticipants ss !! socket with
      | Some waitingParticipant =>
          let roomId := findRoomForWaitingParticipant (w_id waitingParticipant) rm in
          let rm1 :=
            if truthy roomId
            then (rejectFromWaitingRoom (default "" roomId) (w_id waitingParticipant) rm).2
            else rm in
          (mkSignalingServer rm1 (s_participants ss)
             (delete socket (s_waitingParticipants ss)), [])
      | None => (ss, [])
      end
  end.

Definition handleLeave (rs : Socket -> Z) (socket : Socket) (now : Z)
    (ss : SignalingServer) : SignalingServer * list Effect :=
  handleDisconnect rs socket now ss.

Definition handleChat (rs : Socket -> Z) (socket : Socket) (message : Msg) (now : Z)
    (ss : SignalingServer) : SignalingServer * list Effect :=
  match s_participants ss !! socket with
  | None => (ss, sendError rs socket "Not joined to a room" None now)
  | Some participant =>
      let e := deref (heap (roomManager ss)) participant in
      let chatMessage := with_participantId_timestamp (p_id e) now message in
      (ss, broadcast rs (p_roomId e) chatMessage (Some (p_id e)) (roomManager ss)
           ++ [Send socket chatMessage])
  end.

Definition handleParticipantUpdate (rs : Socket -> Z) (socket : Socket) (message : Msg)
    (now : Z) (ss : SignalingServer) : SignalingServer * list Effect :=
  match s_participants ss !! socket with
  | None => (ss, sendError rs socket "Not joined to a room" None now)
  | Some participant =>
      let rm1 :=
        mutate participant
          (fun p => assign p {| u_id := None; u_name := None; u_socket := None;
                                u_roomId := None; u_isModerator := None;
                                u_isMuted := m_isMuted message;
                                u_isVideoOff := m_isVideoOff message;
                                u_isHandRaised := m_isHandRaised message;
                                u_joinedAt := None |})
          (roomManager ss) in
      let e := deref (heap rm1) participant in
      let updateMessage :=
        participantUpdated (p_roomId e) (p_id e) (Some (isMuted e)) (Some (isVideoOff e))
                           (Some (isHandRaised e)) now in
      (set_roomManager rm1 ss, broadcast rs (p_roomId e) updateMessage (Some (p_id e)) rm1)
  end.

Definition set_isHandRaised (b : bool) (p : Participant) : Participant :=
  assign p {| u_id := None; u_name := None; u_socket := None; u_roomId := None;
              u_isModerator := None; u_isMuted := None; u_isVideoOff := None;
              u_isHandRaised := Some b; u_joinedAt := None |}.

Definition handleRaiseHand (rs : Socket -> Z) (socket : Socket) (now : Z)
    (ss : SignalingServer) : SignalingServer * list Effect :=
  match s_participants ss !! socket with
  | None => (ss, [])
  | Some participant =>
      let rm1 := mutate participant (set_isHandRaised true) (roomManager ss) in
      let e := deref (heap rm1) participant in
      let message := baseMsg T_raise_hand (p_roomId e) (p_id e) now in
      (set_roomManager rm1 ss, broadcast rs (p_roomId e) message (Some (p_id e)) rm1)
  end.

Definition handleLowerHand (rs : Socket -> Z) (socket : Socket) (now : Z)
    (ss : SignalingServer) : SignalingServer * list Effect :=
  match s_participants ss !! socket with
  | None => (ss, [])
  | Some participant =>
      let rm1 := mutate participant (set_isHandRaised false) (roomManager ss) in
      let e := deref (heap rm1) participant in
      let message := baseMsg T_lower_hand (p_roomId e) (p_id e) now in
      (set_roomManager rm1 ss, broadcast rs (p_roomId e) message (Some (p_id e)) rm1)
  end.

Definition moderatorActionMsg (roomId participantId : string) (targetId : option string)
    (action : ModeratorAction) (now : Z) : Msg :=
  mkMsg T_moderator_action roomId participantId now None None None None targetId
        (Some action) None None None None None None None None None "".

Definition handleModeratorAction (rs : Socket -> Z) (socket : Socket) (message : Msg)
    (now : Z) (ss : SignalingServer) : SignalingServer * list Effect :=
  let rm := roomManager ss in
  match s_participants ss !! socket with
  | None => (ss, sendError rs socket "Not joined to a room" None now)
  | Some participant =>
      let e := deref (heap rm) participant in
      if negb (isModerator e) then
        (ss, sendError rs socket "Only moderators can perform this action" None now)
      else
        match List.find
                (fun p => bool_decide (Some (p_id (deref (heap rm) p)) = m_targetId message))
                (getParticipants (p_roomId e) rm) with
        | None => (ss, sendError rs socket "Target participant not found" None now)
        | Some targetParticipant =>
            let targetId := default "" (m_targetId message) in
            let '(rm1, effs1) :=
              match m_action message with
              | Some A_mute =>
                  (updateParticipant (p_roomId e) targetId
                     {| u_id := None; u_name := None; u_socket := None; u_roomId := None;
                        u_isModerator := None; u_isMuted := Some true;
                        u_isVideoOff := None; u_isHandRaised := None;
                        u_joinedAt := None |} rm, [])
              | Some A_unmute =>
                  (updateParticipant (p_roomId e) targetId
                     {| u_id := None; u_name := None; u_socket := None; u_roomId := None;
                        u_isModerator := None; u_isMuted := Some false;
                        u_isVideoOff := None; u_isHandRaised := None;
                        u_joinedAt := None |} rm, [])
              | Some A_kick =>
                  let notice :=
                    sendTo rs (m_targetId message) (p_roomId e)
                      (moderatorActionMsg (p_roomId e) (p_id e) (m_targetId message)
                                          A_kick now) rm in
                  let '(_, rm', closes) := kickParticipant rs (p_roomId e) targetId rm in
                  (rm', notice ++ closes)
              | Some A_make_moderator =>
                  (updateParticipant (p_roomId e) targetId
                     {| u_id := None; u_name := None; u_socket := None; u_roomId := None;
                        u_isModerator := Some true; u_isMuted := None;
                        u_isVideoOff := None; u_isHandRaised := None;
                        u_joinedAt := None |} rm, [])
              | None => (rm, [])
              end in
            let rs1 := apply_effects effs1 rs in
            let t := deref (heap rm1) targetParticipant in
            let updateMessage :=
              participantUpdated (p_roomId e) targetId (Some (isMuted t)) None
                                 (Some (isHandRaised t)) now in
            let actionMessage := with_participantId_timestamp (p_id e) now message in
            (set_roomManager rm1 ss,
             effs1
             ++ broadcast rs1 (p_roomId e) updateMessage None rm1
             ++ sendTo rs1 (m_targetId message) (p_roomId e) actionMessage rm1)
        end
  end.

(** [participants.get(socket)?.isModerator], falsy when the socket is not
    bound. *)
Definition boundModerator (socket : Socket) (ss : SignalingServer) : option Participant :=
  match s_participants ss !! socket with
  | Some participant =>
      let e := deref (heap (roomManager ss)) participant in
      if isModerator e then Some e else None
  | None => None
  end.

Definition handleRoomLock (rs : Socket -> Z) (socket : Socket) (now : Z)
    (ss : SignalingServer) : SignalingServer * list Effect :=
  match boundModerator socket ss with
  | None => (ss, sendError rs socket "Only moderators can lock the room" None now)
  | Some e =>
      let rm1 := lockRoom (p_roomId e) (roomManager ss) in
      let message :=
        mkMsg T_room_locked (p_roomId e) (p_id e) now None None None None None None
              None None None None None None None (Some (p_id e)) None "" in
      (set_roomManager rm1 ss, broadcast rs (p_roomId e) message None rm1)
  end.

Definition handleRoomUnlock (rs : Socket -> Z) (socket : Socket) (now : Z)
    (ss : SignalingServer) : SignalingServer * list Effect :=
  match boundModerator socket ss with
  | None => (ss, sendError rs socket "Only moderators can unlock the room" None now)
  | Some e =>
      let rm1 := unlockRoom (p_roomId e) (roomManager ss) in
      let message :=
        mkMsg T_room_unlocked (p_roomId e) (p_id e) now None None None None None None
              None None None None None None None None (Some (p_id e)) "" in
      (set_roomManager rm1 ss, broadcast rs (p_roomId e) message None rm1)
  end.

Definition handleAdmitUser (rs : Socket -> Z) (socket : Socket) (message : Msg) (now : Z)
    (ss : SignalingServer) : SignalingServer * list Effect :=
  match boundModerator socket ss with
  | None => (ss, sendError rs socket "Only moderators can admit users" None now)
  | Some e =>
      let '(admitted, rm1) :=
        match m_targetId message with
        | Some targetId => admitFromWaitingRoom (p_roomId e) targetId (roomManager ss)
        | None => (None, roomManager ss)
        end in
      match admitted with
      | Some waitingParticipant =>
          let '(newParticipant, rm2) :=
            alloc {| p_id := w_id waitingParticipant; p_name := w_name waitingParticipant;
                     p_socket := w_socket waitingParticipant; p_roomId := p_roomId e;
                     isModerator := false; isMuted := false; isVideoOff := false;
                     isHandRaised := false; joinedAt := now |} rm1 in
          let rm3 := (addParticipant (p_roomId e) newParticipant false now rm2).2 in
          let socketKey := w_socket waitingParticipant in
          let n := deref (heap rm3) newParticipant in
          let selfJoinMessage :=
            participantJoined (p_roomId e) (p_id n) (Some (p_name n)) false false false now in
          let joinNotification :=
            participantJoined (p_roomId e) (p_id n) (Some (p_name n)) false false false now in
          (mkSignalingServer rm3 (<[socketKey := newParticipant]> (s_participants ss))
             (delete socketKey (s_waitingParticipants ss)),
           [Send socketKey selfJoinMessage]
           ++ map (fun existing => Send socketKey (describe (p_roomId e) now (heap rm3) existing))
                  (getOtherParticipants (p_roomId e) (p_id n) rm3)
           ++ broadcast rs (p_roomId e) joinNotification (Some (p_id n)) rm3)
      | None => (set_roomManager rm1 ss, [])
      end
  end.

Definition handleRejectUser (rs : Socket -> Z) (socket : Socket) (message : Msg) (now : Z)
    (ss : SignalingServer) : SignalingServer * list Effect :=
  match boundModerator socket ss with
  | None => (ss, sendError rs socket "Only moderators can reject users" None now)
  | Some e =>
      let '(rejected, rm1) :=
        match m_targetId message with
        | Some targetId => rejectFromWaitingRoom (p_roomId e) targetId (roomManager ss)
        | None => (None, roomManager ss)
        end in
      match rejected with
      | Some waitingParticipant =>
          let socketKey := w_socket waitingParticipant in
          (mkSignalingServer rm1 (s_participants ss)
             (delete socketKey (s_waitingParticipants ss)),
           [Send socketKey
              (mkMsg T_reject_user (p_roomId e) (w_id waitingParticipant) now None None
                     None None None None None None None None None None
                     (m_reason message) None None "");
            Close socketKey])
      | None => (set_roomManager rm1 ss, [])
      end
  end.

Definition handleRelayMessage (rs : Socket -> Z) (socket : Socket) (message : Msg) (now : Z)
    (ss : SignalingServer) : SignalingServer * list Effect :=
  match s_participants ss !! socket with
  | None => (ss, sendError rs socket "Not joined to a room" None now)
  | Some participant =>
      let e := deref (heap (roomManager ss)) participant in
      if truthy (m_targetId message) then
        (ss, sendTo rs (m_targetId message) (p_roomId e)
                    (with_participantId (p_id e) message) (roomManager ss))
      else (ss, [])
  end.

(** [uuid] is the value [randomUUID()] has when the frame is a join.  The
    handlers below throw nothing, so the [catch] branch is the one of a
    frame that does not parse. *)
Definition handleMessage (rs : Socket -> Z) (socket : Socket) (data : Frame)
    (uuid : string) (now : Z) (ss : SignalingServer) : SignalingServer * list Effect :=
  match data with
  | Invalid => (ss, sendError rs socket "Invalid message format" None now)
  | Json message =>
      match m_type message with
      | T_join => handleJoin rs socket message uuid now ss
      | T_leave => handleLeave rs socket now ss
      | T_offer | T_answer | T_ice_candidate
      | T_file_offer | T_file_answer | T_file_chunk
      | T_quality_change => handleRelayMessage rs socket message now ss
      | T_chat => handleChat rs socket message now ss
      | T_participant_updated => handleParticipantUpdate rs socket message now ss
      | T_raise_hand => handleRaiseHand rs socket now ss
      | T_lower_hand => handleLowerHand rs socket now ss
      | T_moderator_action => handleModeratorAction rs socket message now ss
      | T_room_locked => handleRoomLock rs socket now ss
      | T_room_unlocked => handleRoomUnlock rs socket now ss
      | T_admit_user => handleAdmitUser rs socket message now ss
      | T_reject_user => handleRejectUser rs socket message now ss
      | _ => (ss, sendError rs socket "Unknown message type" None now)
      end
  end.

(** ** Registry operations as a transition system *)

(** One call of a public mutating method of [RoomManager].  A caller of
    [addParticipant] passes an object literal of its own, so
    [OpAddParticipant] carries the record and the step allocates it. *)
Inductive Op :=
| OpCreateRoom (roomId : string) (config : option RoomConfig)
| OpPreCreateRoom (options : option PreCreateOptions) (generated token : string)
| OpGetOrCreateRoom (roomId : string) (config : option RoomConfig)
| OpAddToWaitingRoom (roomId : string) (participant : WaitingParticipant)
| OpAdmitFromWaitingRoom (roomId participantId : string)
| OpRejectFromWaitingRoom (roomId participantId : string)
| OpAddParticipant (roomId : string) (participant : Participant) (isHost : bool)
| OpRemoveParticipant (roomId participantId : string)
| OpUpdateParticipant (roomId participantId : string) (updates : PartialParticipant)
| OpLockRoom (roomId : string)
| OpUnlockRoom (roomId : string)
| OpKickParticipant (roomId participantId : string)
| OpCleanupAbandonedRooms (maxAgeMs : Z).

(** The state after the call returns; [now] is the clock at the call. *)
Definition step (rs : Socket -> Z) (now : Z) (op : Op) (st : RoomManager) : RoomManager :=
  match op with
  | OpCreateRoom roomId config => (createRoom roomId config now st).2
  | OpPreCreateRoom options generated token =>
      (preCreateRoom options generated token now st).2
  | OpGetOrCreateRoom roomId config => (getOrCreateRoom roomId config now st).2
  | OpAddToWaitingRoom roomId participant =>
      (addToWaitingRoom roomId participant now st).2
  | OpAdmitFromWaitingRoom roomId participantId =>
      (admitFromWaitingRoom roomId participantId st).2
  | OpRejectFromWaitingRoom roomId participantId =>
      (rejectFromWaitingRoom roomId participantId st).2
  | OpAddParticipant roomId participant isHost =>
      let '(ref, st1) := alloc participant st in
      (addParticipant roomId ref isHost now st1).2
  | OpRemoveParticipant roomId participantId => removeParticipant roomId participantId st
  | OpUpdateParticipant roomId participantId updates =>
      updateParticipant roomId participantId updates st
  | OpLockRoom roomId => lockRoom roomId st
  | OpUnlockRoom roomId => unlockRoom roomId st
  | OpKickParticipant roomId participantId =>
      (kickParticipant rs roomId participantId st).1.2
  | OpCleanupAbandonedRooms maxAgeMs => (cleanupAbandonedRooms maxAgeMs now st).2
  end.

(** A sequence of calls, each at its own clock value. *)
Fixpoint run (rs : Socket -> Z) (calls : list (Z * Op)) (st : RoomManager) : RoomManager :=
  match calls with
  | [] => st
  | (now, op) :: rest => run rs rest (step rs now op st)
  end.

(** *** Invariants of the data model *)

(** Invariant 1: a room holds at most [maxParticipants] participants. *)
Definition within_capacity (room : Room) : Prop :=
  Z.of_nat (JsMap.size (participants room)) <= maxParticipants room.

Definition Capacity (st : RoomManager) : Prop :=
  Forall (fun kv : string * Room => within_capacity kv.2) (rooms st).

(** The capacities a call configures are not negative.  The source takes
    [maxParticipants] as a [number] and tests nothing about it; the model
    takes it in [Z], the integers, of which the data model's positive
    integers are part. *)
Definition capacity_ok (o : option Z) : bool :=
  match o with Some m => 0 <=? m | None => true end.

Definition config_ok (op : Op) : bool :=
  match op with
  | OpCreateRoom _ config | OpGetOrCreateRoom _ config =>
      capacity_ok (config ≫= c_maxParticipants)
  | OpPreCreateRoom options _ _ => capacity_ok (options ≫= o_maxParticipants)
  | _ => true
  end.

(** Invariant 2: a room with participants has a host among them who is a
    moderator. *)
Definition has_host (h : list Participant) (room : Room) : Prop :=
  participants room <> [] ->
  exists ref, ref ∈ JsMap.values (participants room)
              /\ hostId room = Some (p_id (deref h ref))
              /\ isModerator (deref h ref) = true.

Definition HostExists (st : RoomManager) : Prop :=
  Forall (fun kv : string * Room => has_host (heap st) kv.2) (rooms st).

(** Every entry of a participants map designates an object of the store,
    filed under that object's [id]. *)
Definition keyed_by_id (h : list Participant) (room : Room) : Prop :=
  Forall (fun kv : string * Ref => (kv.2 < length h)%nat /\ p_id (deref h kv.2) = kv.1)
         (participants room).

Definition host_at_key (h : list Participant) (room : Room) : Prop :=
  participants room <> [] ->
  exists hid ref, hostId room = Some hid
                  /\ JsMap.get hid (participants room) = Some ref
                  /\ isModerator (deref h ref) = true.

Definition room_wf (h : list Participant) (room : Room) : Prop :=
  keyed_by_id h room /\ host_at_key h room.

Definition Wf (st : RoomManager) : Prop :=
  Forall (fun kv : string * Room => room_wf (heap st) kv.2) (rooms st).

(** The store [h'] extends [h]: the objects of [h] are still there, with
    the ids they had, and those that were moderators still are. *)
Definition heap_le (h h' : list Participant) : Prop :=
  (length h <= length h')%nat
  /\ forall r, (r < length h)%nat ->
       p_id (deref h' r) = p_id (deref h r)
       /\ (isModerator (deref h r) = true -> isModerator (deref h' r) = true).

(** A patch that neither renames its target nor takes the moderator bit
    away. *)
Definition keeps_host (updates : PartialParticipant) : bool :=
  bool_decide (u_id updates = None) && bool_decide (u_isModerator updates <> Some false).

(** The id a joining participant brings is not yet in the room. *)
Definition fresh_in_room (roomId : string) (p : Participant) (st : RoomManager) : bool :=
  match getRoom roomId st with
  | Some room => negb (JsMap.has (p_id p) (participants room))
  | None => true
  end.

Definition host_safe (op : Op) (st : RoomManager) : bool :=
  match op with
  | OpAddParticipant roomId p _ => fresh_in_room roomId p st
  | OpUpdateParticipant _ _ updates => keeps_host updates
  | _ => true
  end.

Fixpoint all_host_safe (rs : Socket -> Z) (calls : list (Z * Op)) (st : RoomManager) : bool :=
  match calls with
  | [] => true
  | (now, op) :: rest => host_safe op st && all_host_safe rs rest (step rs now op st)
  end.





(** ** Example states *)

Definition all_open : Socket -> Z := fun _ => OPEN.

(** Every socket is open but [s], which is closing. *)
Definition all_open_but (s : Socket) : Socket -> Z :=
  fun s' => if decide (s' = s) then CLOSING else OPEN.

Definition alice : Participant :=
  mkParticipant "p1" "Alice" 1%nat "room" false false false false 100.

Definition bob : Participant :=
  mkParticipant "p2" "Bob" 2%nat "room" false false false false 200.

(** A registry with one ad-hoc room, ["room"], that Alice has joined. *)
Definition one_room : RoomManager :=
  run all_open [(100, OpAddParticipant "room" alice false)] (newRoomManager None None).

Definition carol_waiting : WaitingParticipant :=
  mkWaitingParticipant "p3" "Carol" 3%nat 250.

(** A session of registry calls: Alice and Bob join a room capped at two;
    Carol waits and is admitted once the room is full, so that her
    [addParticipant] is refused; Alice leaves. *)
Definition small_room_session : list (Z * Op) :=
  [(50, OpCreateRoom "room" (Some {| c_password := None; c_maxParticipants := Some 2 |}));
   (100, OpAddParticipant "room" alice false);
   (150, OpLockRoom "room");
   (170, OpAddToWaitingRoom "room" carol_waiting);
   (200, OpAddParticipant "room" bob false);
   (250, OpAdmitFromWaitingRoom "room" "p3");
   (251, OpAddParticipant "room"
           (mkParticipant "p3" "Carol" 3%nat "room" false false false false 251) false);
   (300, OpRemoveParticipant "room" "p1")].

(** A patch that carries the three identity fields. *)
Definition rename_patch : PartialParticipant :=
  {| u_id := Some "p9"; u_name := None; u_socket := None; u_roomId := Some "elsewhere";
     u_isModerator := None; u_isMuted := None; u_isVideoOff := None;
     u_isHandRaised := None; u_joinedAt := Some 999 |}.

(** A second object that carries Alice's id. *)
Definition alice_again : Participant :=
  mkParticipant "p1" "Alice" 5%nat "room" false false false false 300.


Definition demote_patch : PartialParticipant :=
  {| u_id := None; u_name := None; u_socket := None; u_roomId := None;
     u_isModerator := Some false; u_isMuted := None; u_isVideoOff := None;
     u_isHandRaised := None; u_joinedAt := None |}.


(** *** Observations on the effects of a handler *)


(** The effect sends an [error] envelope that carries the code. *)
Definition is_error_with_code (code : string) (e : Effect) : bool :=
  match e with
  | Send _ m =>
      match m_type m with
      | T_error => bool_decide (m_code m = Some code)
      | _ => false
      end
  | Close _ => false
  end.

Definition rejects_with (code : string) (effects : list Effect) : bool :=
  existsb (is_error_with_code code) effects.

(** The rejection condition of the join path as the specification words
    it: no room, no host flag, no creator token. *)
Definition spec_not_found_condition (message : Msg) (rm : RoomManager) : Prop :=
  getRoom (m_roomId message) rm = None
  /\ default false (m_isHost message) = false
  /\ m_creatorToken message = None.

(** The socket gets the error envelope ["Not joined to a room"]. *)
Definition replies_not_joined (socket : Socket) (now : Z) (effects : list Effect) : Prop :=
  Send socket (errorMessage "Not joined to a room" None now) ∈ effects.

Definition empty_server : SignalingServer :=
  newSignalingServer (newRoomManager None None).

(** A join for a room nobody created, by a joiner who is not a host and
    presents a creator token. *)
Definition join_with_token : Msg :=
  mkMsg T_join "NOROOM" "" 0 (Some "Eve") None None (Some "tk-abc") None None
        None None None None None None None None None "".

(** *** Serving a sequence of frames *)

(** Frames handled one after the other, each with the socket it arrives
    on, the value [randomUUID()] would return and the clock. *)
Fixpoint serve (rs : Socket -> Z) (frames : list (Socket * Frame * string * Z))
    (ss : SignalingServer) : SignalingServer * list Effect :=
  match frames with
  | [] => (ss, [])
  | (socket, data, uuid, now) :: rest =>
      let '(ss1, effects1) := handleMessage rs socket data uuid now ss in
      let '(ss2, effects2) := serve rs rest ss1 in
      (ss2, effects1 ++ effects2)
  end.

Definition joinMsg (roomId name : string) (isHost : option bool) : Msg :=
  mkMsg T_join roomId "" 0 (Some name) None isHost None None None
        None None None None None None None None None "".

Definition targeted (ty : MessageType) (roomId targetId : string) (rest : string) : Msg :=
  mkMsg ty roomId "forged" 0 None None None None (Some targetId) None
        None None None None None None None None None rest.

(** Alice opens room ["ABC123"] as host on socket 1, Bob joins on
    socket 2. *)
Definition two_peers : SignalingServer :=
  (serve all_open
     [(1%nat, Json (joinMsg "ABC123" "Alice" (Some true)), "P1", 1);
      (2%nat, Json (joinMsg "ABC123" "Bob" None), "P2", 2)]
     empty_server).1.

(** *** Admission into a room that has filled up *)

Definition in_waitingRoom (roomId participantId : string) (rm : RoomManager) : bool :=
  match getRoom roomId rm with
  | Some room => JsMap.has participantId (waitingRoom room)
  | None => false
  end.

Definition in_participants (roomId participantId : string) (rm : RoomManager) : bool :=
  match getRoom roomId rm with
  | Some room => JsMap.has participantId (participants room)
  | None => false
  end.

Definition admitMsg (roomId targetId : string) : Msg :=
  mkMsg T_admit_user roomId "" 0 None None None None (Some targetId) None
        None None None None None None None None None "".

(** Mia opens ["ROOM"] (default capacity 8) as host on socket 1 and locks
    it.  Eight joiners arrive on sockets 11..18 and wait; each passes the
    capacity test of [addToWaitingRoom], the room having one participant.
    Mia admits the first seven, which fills the room. *)
Definition full_room_frames : list (Socket * Frame * string * Z) :=
  [(1%nat, Json (joinMsg "ROOM" "Mia" (Some true)), "M", 1);
   (1%nat, Json (baseMsg T_room_locked "ROOM" "" 0), "", 2);
   (11%nat, Json (joinMsg "ROOM" "Ann" None), "W1", 11);
   (12%nat, Json (joinMsg "ROOM" "Ben" None), "W2", 12);
   (13%nat, Json (joinMsg "ROOM" "Cat" None), "W3", 13);
   (14%nat, Json (joinMsg "ROOM" "Dan" None), "W4", 14);
   (15%nat, Json (joinMsg "ROOM" "Eve" None), "W5", 15);
   (16%nat, Json (joinMsg "ROOM" "Fay" None), "W6", 16);
   (17%nat, Json (joinMsg "ROOM" "Gus" None), "W7", 17);
   (18%nat, Json (joinMsg "ROOM" "Hal" None), "W8", 18);
   (1%nat, Json (admitMsg "ROOM" "W1"), "", 21);
   (1%nat, Json (admitMsg "ROOM" "W2"), "", 22);
   (1%nat, Json (admitMsg "ROOM" "W3"), "", 23);
   (1%nat, Json (admitMsg "ROOM" "W4"), "", 24);
   (1%nat, Json (admitMsg "ROOM" "W5"), "", 25);
   (1%nat, Json (admitMsg "ROOM" "W6"), "", 26);
   (1%nat, Json (admitMsg "ROOM" "W7"), "", 27)].

Definition full_room : SignalingServer := (serve all_open full_room_frames empty_server).1.

(** *** The statistics of [getStats] *)

(** The peak recorded so far covers the participants now present. *)
Definition PeakCovers (st : RoomManager) : Prop :=
  (getTotalParticipants st <= peakParticipants st)%nat.

(** *** What a participant cannot change about itself *)

(** The fields of a participant that say who it is, where it is and what
    it may do. *)
Definition same_standing (old new : Participant) : Prop :=
  p_id new = p_id old /\ p_name new = p_name old /\ p_socket new = p_socket old
  /\ p_roomId new = p_roomId old /\ isModerator new = isModerator old
  /\ joinedAt new = joinedAt old.

(** *** Restarting the registry *)

(** [loadPreCreatedRooms], reading the file [persisted]; [now] is
    [Date.now()], which the few steps of the loop do not move past the age
    limit of a room. *)
Definition loadPreCreatedRooms (now : Z) (st : RoomManager) : RoomManager :=
  set_rooms
    (fold_left
       (fun (loaded : JsMap.t string Room) (roomData : PreCreatedRoomData) =>
          if now - d_createdAt roomData >? latentRoomMaxAgeMs st then loaded
          else
            JsMap.set (d_roomId roomData)
              {| r_id := d_roomId roomData;
                 participants := [];
                 waitingRoom := [];
                 password := d_password roomData;
                 isLocked := false;
                 hostId := None;
                 createdAt := d_createdAt roomData;
                 maxParticipants := d_maxParticipants roomData;
                 creatorToken := Some (d_creatorToken roomData);
                 isPreCreated := true |}
              loaded)
       (persisted st) (rooms st))
    st.

(** [new RoomManager(options)] when the file at [persistencePath] holds
    [file]. *)
Definition restartRoomManager (maxLatent latentHours : option Z) (now : Z)
    (file : list PreCreatedRoomData) : RoomManager :=
  loadPreCreatedRooms now (set_persisted file (newRoomManager maxLatent latentHours)).


(** No key of the room map occurs twice, and every room carries its key as
    id. *)
Definition keyed_map (m : JsMap.t string Room) : Prop :=
  NoDup (map fst m) /\ Forall (fun kv : string * Room => r_id kv.2 = kv.1) m.

Definition rooms_keyed (st : RoomManager) : Prop := keyed_map (rooms st).

(** What [persistPreCreatedRooms] writes for a room, if anything. *)
Definition roomData (r : Room) : option PreCreatedRoomData :=
  if isPreCreated r && truthy (creatorToken r) then
    Some {| d_roomId := r_id r;
            d_password := password r;
            d_creatorToken := default "" (creatorToken r);
            d_createdAt := createdAt r;
            d_maxParticipants := maxParticipants r |}
  else None.


(** Two states with the same file and the same rooms to write. *)
Definition same_file (st st' : RoomManager) : Prop :=
  persisted st' = persisted st
  /\ omap roomData (JsMap.values (rooms st')) = omap roomData (JsMap.values (rooms st)).

(** No call of [createRoom] in the sequence names an id the registry has
    at that point.  The server calls [createRoom] through
    [getOrCreateRoom] and from the join path, for ids it has found
    missing. *)
Fixpoint creates_fresh (rs : Socket -> Z) (calls : list (Z * Op)) (st : RoomManager)
    : bool :=
  match calls with
  | [] => true
  | (now, op) :: rest =>
      match op with
      | OpCreateRoom roomId _ => negb (JsMap.has roomId (rooms st))
      | _ => true
      end
      && creates_fresh rs rest (step rs now op st)
  end.

(** ** The server entry ([src/api/index.ts]) *)

(** *** Rate limiting of connections and of room creation *)

Definition RATE_LIMIT_WINDOW : Z := 60000.
Definition MAX_CONNECTIONS_PER_WINDOW : nat := 10.

(** [attempts.filter((time) => now - time < RATE_LIMIT_WINDOW)] *)
Definition validAttempts (now : Z) (attempts : list Z) : list Z :=
  List.filter (fun time => now - time <? RATE_LIMIT_WINDOW) attempts.

(** [now] is [Date.now()]; the state is the map [connectionAttempts]. *)
Definition checkRateLimit (ip : string) (now : Z) (connectionAttempts : gmap string (list Z))
    : bool * gmap string (list Z) :=
  let attempts := default [] (connectionAttempts !! ip) in
  let valid := validAttempts now attempts in
  if (MAX_CONNECTIONS_PER_WINDOW <=? length valid)%nat then (false, connectionAttempts)
  else (true, <[ip := valid ++ [now]]> connectionAttempts).

(** The callback of the [setInterval] that sweeps [connectionAttempts]. *)
Definition sweepConnectionAttempts (now : Z) (connectionAttempts : gmap string (list Z))
    : gmap string (list Z) :=
  omap (fun attempts =>
          let valid := validAttempts now attempts in
          if (length valid =? 0)%nat then None else Some valid)
       connectionAttempts.

(** What happens to the limiter: an upgrade or a room creation request
    from an address, or a tick of the sweeping timer. *)
Inductive LimiterEvent :=
| Attempt (ip : string) (now : Z)
| Sweep (now : Z).

Definition event_time (e : LimiterEvent) : Z :=
  match e with
  | Attempt _ now => now
  | Sweep now => now
  end.

(** The state of the limiter together with the attempts let through so
    far, oldest first. *)
Definition limiter_step (st : list (string * Z) * gmap string (list Z)) (e : LimiterEvent)
    : list (string * Z) * gmap string (list Z) :=
  match e with
  | Attempt ip now =>
      let '(ok, m) := checkRateLimit ip now st.2 in
      (if ok then st.1 ++ [(ip, now)] else st.1, m)
  | Sweep now => (st.1, sweepConnectionAttempts now st.2)
  end.

Definition limiter_run (events : list LimiterEvent)
    : list (string * Z) * gmap string (list Z) :=
  fold_left limiter_step events ([], ∅).

(** The times at which an address was let through. *)
Definition accepted_times (ip : string) (log : list (string * Z)) : list Z :=
  map snd (List.filter (fun c : string * Z => bool_decide (c.1 = ip)) log).

(** The times of a list that fall in the window of one minute that ends
    at [t]. *)
Definition in_window (t : Z) (times : list Z) : list Z :=
  List.filter (fun a => (t - RATE_LIMIT_WINDOW <? a) && (a <=? t)) times.

(** What the stored attempts and the attempts let through have in common
    at any clock value that is not before the events so far. *)
Definition limiter_tracks (events : list LimiterEvent)
    (st : list (string * Z) * gmap string (list Z)) : Prop :=
  forall now, Forall (fun e => event_time e <= now) events ->
    Forall (fun c : string * Z => c.2 <= now) st.1
    /\ forall ip, validAttempts now (default [] (st.2 !! ip))
                  = validAttempts now (accepted_times ip st.1).

(** *** WebSocket frames ([WebSocketConnection]) *)

(** A [Buffer] is a list of bytes, each a number below 256. *)
Definition is_byte (b : Z) : Prop := 0 <= b < 256.

Definition MAX_WEBSOCKET_BUFFER_SIZE : Z := 1024 * 1024.

(** [data[i]], read only below [data.length]. *)
Definition byte_at (data : list Z) (i : nat) : Z := nth i data 0.

(** [data.subarray(start, stop)] *)
Definition subarray (start stop : nat) (data : list Z) : list Z :=
  take (stop - start) (drop start data).

(** The big-endian number a run of bytes spells: [readUInt16BE] for two
    bytes, [readBigUInt64BE] for eight. *)
Definition readBE (bytes : list Z) : Z :=
  fold_left (fun acc b => acc * 256 + b) bytes 0.

(** The [n] bytes that spell [v]: [writeUInt16BE] for two bytes,
    [writeBigUInt64BE] for eight. *)
Fixpoint writeBE (n : nat) (v : Z) : list Z :=
  match n with
  | O => []
  | S k => Z.land (Z.shiftr v (8 * Z.of_nat k)) 255 :: writeBE k v
  end.

(** A string without lone surrogates is the list of its Unicode scalar
    values. *)
Definition is_scalar (c : Z) : Prop := 0 <= c < 55296 \/ 57344 <= c < 1114112.

(** The UTF-8 bytes of one scalar value. *)
Definition utf8_char (c : Z) : list Z :=
  if c <? 128 then [c]
  else if c <? 2048 then
    [Z.lor 192 (Z.shiftr c 6); Z.lor 128 (Z.land c 63)]
  else if c <? 65536 then
    [Z.lor 224 (Z.shiftr c 12); Z.lor 128 (Z.land (Z.shiftr c 6) 63);
     Z.lor 128 (Z.land c 63)]
  else
    [Z.lor 240 (Z.shiftr c 18); Z.lor 128 (Z.land (Z.shiftr c 12) 63);
     Z.lor 128 (Z.land (Z.shiftr c 6) 63); Z.lor 128 (Z.land c 63)].

(** [Buffer.from(data, "utf-8")], the payload [send] frames.  On these
    bytes [toString("utf-8")] is the inverse and gives [data] back; on
    bytes that are no UTF-8 encoding it substitutes U+FFFD. *)
Definition Buffer_from_utf8 (data : list Z) : list Z := concat (map utf8_char data).

(** [payload[i] ^= mask[i % 4]] for every [i]. *)
Definition applyMask (mask payload : list Z) : list Z :=
  imap (fun i b => Z.lxor b (nth (i mod 4) mask 0)) payload.

(** The result of [parseFrame] when it is not [null]: the payload of a
    text frame as the bytes that [parseFrame] hands to
    [toString("utf-8")], the number of bytes the frame takes, and whether
    [this.close()] was called.  The bytes stand for the message where they
    are the UTF-8 encoding of a string, which they are in every frame that
    [send] or a browser writes; the substitution of U+FFFD for other bytes
    is not modelled. *)
Record ParsedFrame := mkParsedFrame {
  f_message : option (list Z);
  f_consumed : nat;
  f_close : bool
}.

(** The part of [parseFrame] that follows the reading of the header:
    [payloadLength] is the length the header announces, [offset0] the
    number of bytes the header takes before the masking key. *)
Definition frameBody (data : list Z) (opcode : Z) (masked : bool) (payloadLength : Z)
    (offset0 : nat) : option ParsedFrame :=
  let offset := if masked then (offset0 + 4)%nat else offset0 in
  let totalLength := Z.to_nat (Z.of_nat offset + payloadLength) in
  if (length data <? totalLength)%nat then None
  else if opcode =? 8 then Some (mkParsedFrame None totalLength true)
  else if negb (opcode =? 1) then Some (mkParsedFrame None totalLength false)
  else
    let payload := subarray offset totalLength data in
    let payload :=
      if masked then applyMask (subarray (offset - 4) offset data) payload
      else payload in
    Some (mkParsedFrame (Some payload) totalLength false).

(** [Number(readBigUInt64BE)] is exact below [2^53]; above, it exceeds the
    length of any buffer just as the exact value does. *)
Definition parseFrame (data : list Z) : option ParsedFrame :=
  if (length data <? 2)%nat then None
  else
    let opcode := Z.land (byte_at data 0) 15 in
    let masked := negb (Z.land (byte_at data 1) 128 =? 0) in
    let short := Z.land (byte_at data 1) 127 in
    if short =? 126 then
      if (length data <? 4)%nat then None
      else frameBody data opcode masked (readBE (subarray 2 4 data)) 4
    else if short =? 127 then
      if (length data <? 10)%nat then None
      else frameBody data opcode masked (readBE (subarray 2 10 data)) 10
    else frameBody data opcode masked short 2.

(** The bytes [send] writes for a payload, [None] when the connection is
    not open and nothing is written. *)
Definition send (readyState : Z) (payload : list Z) : option (list Z) :=
  if negb (readyState =? OPEN) then None
  else
    let len := Z.of_nat (length payload) in
    let frame :=
      if len <? 126 then [129; len]
      else if len <? 65536 then [129; 126] ++ writeBE 2 len
      else [129; 127] ++ writeBE 8 len in
    Some (frame ++ payload).

Record WebSocketConnection := mkWebSocketConnection {
  readyState : Z;
  buffer : list Z
}.

(** [close()] *)
Definition close (c : WebSocketConnection) : WebSocketConnection :=
  if readyState c =? CLOSED then c else mkWebSocketConnection CLOSING (buffer c).

(** The loop of [processBuffer] on a connection, with the messages it
    dispatches, oldest first.  Every turn of the loop takes at least two
    bytes off the buffer, so [fuel] turns are enough for a buffer of
    [fuel] bytes. *)
Fixpoint processBuffer_loop (fuel : nat) (c : WebSocketConnection)
    : WebSocketConnection * list (list Z) :=
  match fuel with
  | O => (c, [])
  | S fuel' =>
      if (length (buffer c) <? 2)%nat then (c, [])
      else
        match parseFrame (buffer c) with
        | None => (c, [])
        | Some result =>
            let c1 := if f_close result then close c else c in
            let c2 := mkWebSocketConnection (readyState c1)
                                            (drop (f_consumed result) (buffer c)) in
            let '(c3, messages) := processBuffer_loop fuel' c2 in
            (c3, match f_message result with
                 | Some message => message :: messages
                 | None => messages
                 end)
        end
  end.

Definition processBuffer (c : WebSocketConnection) : WebSocketConnection * list (list Z) :=
  processBuffer_loop (length (buffer c)) c.

(** The handler of the socket's [data] event. *)
Definition onData (data : list Z) (c : WebSocketConnection)
    : WebSocketConnection * list (list Z) :=
  if MAX_WEBSOCKET_BUFFER_SIZE <? Z.of_nat (length (buffer c)) + Z.of_nat (length data)
  then (close c, [])
  else processBuffer (mkWebSocketConnection (readyState c) (buffer c ++ data)).

(** Chunks arriving one after the other on a new connection. *)
Definition receive (chunks : list (list Z)) (c : WebSocketConnection)
    : WebSocketConnection * list (list Z) :=
  fold_left (fun st data => let '(c', messages) := onData data st.1 in (c', st.2 ++ messages))
            chunks (c, []).

Definition newWebSocketConnection : WebSocketConnection := mkWebSocketConnection OPEN [].

(** * Properties *)

(** ** Facts about insertion-ordered maps *)

Section JsMapFacts.
Context {K V : Type} `{EqDecision K}.
Implicit Types (k : K) (v : V) (m : list (K * V)).

Lemma get_set_eq k v m : JsMap.get k (JsMap.set k v m) = Some v.
Proof.
  induction m as [|[k' v'] m IH]; simpl.
  - by rewrite decide_True.
  - destruct (decide (k = k')) as [->|Hne]; simpl.
    + by rewrite decide_True.
    + by rewrite decide_False.
Qed.

Lemma get_set_ne k k' v m : k <> k' -> JsMap.get k' (JsMap.set k v m) = JsMap.get k' m.
Proof.
  intros Hne. induction m as [|[k0 v0] m IH]; simpl.
  - rewrite decide_False; [done | congruence].
  - destruct (decide (k = k0)) as [->|Hk]; simpl.
    + rewrite !decide_False; [done | congruence | congruence].
    + destruct (decide (k' = k0)); [done | apply IH].
Qed.

Lemma get_delete_eq k m : JsMap.get k (JsMap.delete k m) = None.
Proof.
  induction m as [|[k' v'] m IH]; simpl; [done|].
  destruct (decide (k = k')); simpl; [done|]. by rewrite decide_False.
Qed.

Lemma get_delete_ne k k' m : k <> k' -> JsMap.get k' (JsMap.delete k m) = JsMap.get k' m.
Proof.
  intros Hne. induction m as [|[k0 v0] m IH]; simpl; [done|].
  destruct (decide (k = k0)) as [->|Hk]; simpl.
  - rewrite decide_False; [done | congruence].
  - destruct (decide (k' = k0)); [done | apply IH].
Qed.

Lemma get_elem_of k v m : JsMap.get k m = Some v -> (k, v) ∈ m.
Proof.
  induction m as [|[k' v'] m IH]; simpl; [done|].
  destruct (decide (k = k')) as [->|Hne].
  - intros [= ->]. apply list_elem_of_here.
  - intros Hg. apply list_elem_of_further, IH, Hg.
Qed.

Lemma length_set_le k v m : (length (JsMap.set k v m) <= S (length m))%nat.
Proof.
  induction m as [|[k' v'] m IH]; simpl; [lia|].
  destruct (decide (k = k')); simpl; lia.
Qed.

Lemma length_delete_le k m : (length (JsMap.delete k m) <= length m)%nat.
Proof.
  induction m as [|[k' v'] m IH]; simpl; [lia|].
  destruct (decide (k = k')); simpl; lia.
Qed.


Lemma Forall_set (P : K * V -> Prop) k v m :
  Forall P m -> P (k, v) -> Forall P (JsMap.set k v m).
Proof.
  intros Hm Hv. induction Hm as [|[k' v'] m Hx Hm IH]; simpl.
  - by constructor.
  - destruct (decide (k = k')); by constructor.
Qed.

Lemma Forall_delete (P : K * V -> Prop) k m :
  Forall P m -> Forall P (JsMap.delete k m).
Proof.
  intros Hm. induction Hm as [|[k' v'] m Hx Hm IH]; simpl; [constructor|].
  destruct (decide (k = k')); [done | by constructor].
Qed.

Lemma Forall_get (P : K * V -> Prop) k v m :
  Forall P m -> JsMap.get k m = Some v -> P (k, v).
Proof.
  intros Hm Hg. apply get_elem_of in Hg.
  by eapply (proj1 (Forall_forall P m)) in Hg.
Qed.

Lemma Forall_alter (P : K * V -> Prop) (f : V -> V) k m :
  Forall P m ->
  (forall v, JsMap.get k m = Some v -> P (k, v) -> P (k, f v)) ->
  Forall P (JsMap.alter f k m).
Proof.
  intros Hm Hf. unfold JsMap.alter.
  destruct (JsMap.get k m) as [v|] eqn:Hg; [|done].
  apply Forall_set; [done|]. apply Hf; [done|]. by eapply Forall_get.
Qed.

Lemma get_alter_eq (f : V -> V) k m :
  JsMap.get k (JsMap.alter f k m) = f <$> JsMap.get k m.
Proof.
  unfold JsMap.alter. destruct (JsMap.get k m) as [v|] eqn:Hg; simpl.
  - apply get_set_eq.
  - done.
Qed.

Lemma get_alter_ne (f : V -> V) k k' m :
  k <> k' -> JsMap.get k' (JsMap.alter f k m) = JsMap.get k' m.
Proof.
  intros Hne. unfold JsMap.alter. destruct (JsMap.get k m); [|done].
  by apply get_set_ne.
Qed.

Lemma set_set k v v' m : JsMap.set k v' (JsMap.set k v m) = JsMap.set k v' m.
Proof.
  induction m as [|[k0 v0] m IH]; simpl.
  - by rewrite decide_True.
  - destruct (decide (k = k0)) as [->|Hne]; simpl.
    + by rewrite decide_True.
    + rewrite decide_False by done. by rewrite IH.
Qed.

Lemma alter_set (f : V -> V) k v m :
  JsMap.alter f k (JsMap.set k v m) = JsMap.set k (f v) m.
Proof. unfold JsMap.alter. rewrite get_set_eq. apply set_set. Qed.



Lemma alter_alter (f g : V -> V) k m :
  JsMap.alter g k (JsMap.alter f k m) = JsMap.alter (fun v => g (f v)) k m.
Proof.
  unfold JsMap.alter. destruct (JsMap.get k m) as [v|] eqn:Hg.
  - rewrite get_set_eq. apply set_set.
  - by rewrite Hg.
Qed.

Lemma get_first_value v m :
  JsMap.first_value m = Some v -> exists k, (k, v) ∈ m /\ JsMap.get k m = Some v.
Proof.
  destruct m as [|[k v'] m]; simpl; [done|]. intros [= ->].
  exists k. split; [apply list_elem_of_here | by rewrite decide_True].
Qed.

Lemma get_values k v m : JsMap.get k m = Some v -> v ∈ JsMap.values m.
Proof.
  intros Hg. apply get_elem_of in Hg. unfold JsMap.values.
  apply list_elem_of_fmap. by exists (k, v).
Qed.

End JsMapFacts.

(** ** Password check *)

(** C7: [validatePassword] answers [true] exactly when the registry has no
    room under the id, or the room stores no password (its [password] is
    [undefined] or the empty string, which the test [!room.password] does not
    tell apart), or the candidate is the stored password. *)
Theorem validatePassword_true_iff (roomId : string) (candidate : option string)
    (st : RoomManager) :
  validatePassword roomId candidate st = true <->
  getRoom roomId st = None
  \/ exists room, getRoom roomId st = Some room
                  /\ (truthy (password room) = false \/ password room = candidate).
Proof.
  unfold validatePassword, getRoom.
  destruct (JsMap.get roomId (rooms st)) as [room|]; [|by split; [left|]].
  split.
  - intros Hv. right. exists room. split; [done|].
    destruct (truthy (password room)); simpl in Hv; [|by left].
    right. by apply bool_decide_eq_true in Hv.
  - intros [|[room' [[= <-] [Hn|Heq]]]]; [done| |].
    + by rewrite Hn.
    + destruct (truthy (password room)); simpl; [|done].
      by apply bool_decide_eq_true.
Qed.

(** ** Room creation *)


(** ** Participant update *)

Lemma deref_insert_eq (h : list Participant) (r : Ref) (p : Participant) :
  (r < length h)%nat -> deref (<[r := p]> h) r = p.
Proof. intros Hr. unfold deref. by rewrite list_lookup_insert_eq. Qed.

Lemma deref_insert_ne (h : list Participant) (r r' : Ref) (p : Participant) :
  r <> r' -> deref (<[r := p]> h) r' = deref h r'.
Proof. intros Hr. unfold deref. by rewrite list_lookup_insert_ne. Qed.




(** ** Relay *)




(** ** Join: the room-not-found rejection *)

Lemma rejects_with_none (code : string) (effects : list Effect) :
  (forall e, e ∈ effects -> is_error_with_code code e = false) ->
  rejects_with code effects = false.
Proof.
  intros Hall. unfold rejects_with. induction effects as [|e l IH]; simpl; [done|].
  rewrite (Hall e) by apply list_elem_of_here. simpl.
  apply IH. intros e' He'. apply Hall. by apply list_elem_of_further.
Qed.

Lemma rejects_with_app (code : string) (a b : list Effect) :
  rejects_with code (a ++ b) = rejects_with code a || rejects_with code b.
Proof. unfold rejects_with. apply existsb_app. Qed.

Lemma rejects_with_sendError (code : string) (rs : Socket -> Z) (socket : Socket)
    (text : string) (c : option string) (now : Z) :
  c <> Some code -> rejects_with code (sendError rs socket text c now) = false.
Proof.
  intros Hc. unfold sendError. destruct (rs socket =? 1); simpl; [|done].
  rewrite bool_decide_eq_false_2; done.
Qed.

Lemma rejects_with_broadcast (code : string) (rs : Socket -> Z) (roomId : string)
    (m : Msg) (excludeId : option string) (st : RoomManager) :
  m_type m <> T_error -> rejects_with code (broadcast rs roomId m excludeId st) = false.
Proof.
  intros Hm. apply rejects_with_none. intros e He. unfold broadcast in He.
  apply list_elem_of_omap in He as (p & _ & Hp).
  destruct (rs (p_socket (deref (heap st) p)) =? 1); [|done].
  injection Hp as <-. simpl. by destruct (m_type m).
Qed.

Lemma rejects_with_omap {A : Type} (code : string) (f : A -> option Effect) (l : list A) :
  (forall x e, f x = Some e -> is_error_with_code code e = false) ->
  rejects_with code (omap f l) = false.
Proof.
  intros Hf. apply rejects_with_none. intros e He.
  apply list_elem_of_omap in He as (x & _ & Hx). by eapply Hf.
Qed.

Lemma rejects_with_map {A : Type} (code : string) (f : A -> Effect) (l : list A) :
  (forall x, is_error_with_code code (f x) = false) ->
  rejects_with code (map f l) = false.
Proof.
  intros Hf. apply rejects_with_none. intros e He.
  apply list_elem_of_fmap in He as (x & -> & _). apply Hf.
Qed.

Lemma rejects_with_cons (code : string) (e : Effect) (l : list Effect) :
  rejects_with code (e :: l) = is_error_with_code code e || rejects_with code l.
Proof. reflexivity. Qed.

(** C5, as the code has it: on an open socket, a join is answered with the
    [ROOM_NOT_FOUND] error exactly when the registry has no room under the
    id and the message does not set [isHost]; a creator token plays no part.
    In that case the error is the only effect and no state changes. *)
Theorem join_not_found_iff (rs : Socket -> Z) (socket : Socket) (message : Msg)
    (participantId : string) (now : Z) (ss : SignalingServer) :
  rs socket = 1 ->
  let res := handleJoin rs socket message participantId now ss in
  (rejects_with "ROOM_NOT_FOUND" res.2 = true <->
   getRoom (m_roomId message) (roomManager ss) = None
   /\ default false (m_isHost message) = false)
  /\ (getRoom (m_roomId message) (roomManager ss) = None ->
      default false (m_isHost message) = false ->
      res = (ss, [Send socket
                    (errorMessage "Meeting not found. Check the code and try again."
                                  (Some "ROOM_NOT_FOUND") now)])).
Proof.
  intros Hopen res. subst res. unfold handleJoin. cbv zeta.
  destruct (getRoom (m_roomId message) (roomManager ss)) as [room|] eqn:Hroom;
    destruct (default false (m_isHost message)) eqn:Hhost.
  all: cbn [negb andb orb].
  all: repeat case_match.
  all: cbn [fst snd].
  all: rewrite ?rejects_with_cons, ?rejects_with_app, ?rejects_with_sendError,
         ?rejects_with_broadcast by done.
  all: rewrite ?rejects_with_map by (intros; reflexivity).
  all: rewrite ?rejects_with_omap
         by (intros x e; case_match; [by intros [= <-] | done]).
  all: try (split; [split; [done | by intros [? ?]] | done]).
  unfold sendError. rewrite Hopen. simpl. done.
Qed.


Lemma join_not_found_iff_witness :
  all_open 3%nat = 1
  /\ rejects_with "ROOM_NOT_FOUND"
       (handleJoin all_open 3%nat (joinMsg "NOROOM" "Eve" None) "P3" 5 empty_server).2
     = true.
Proof.
  split; [reflexivity|].
  apply (proj1 (join_not_found_iff all_open 3%nat (joinMsg "NOROOM" "Eve" None) "P3" 5
                  empty_server eq_refl)).
  split; vm_compute; reflexivity.
Defined.

(** C5 as stated fails.  The join of [join_with_token] presents a creator
    token, so the condition of the specification does not hold, and is
    rejected with [ROOM_NOT_FOUND] all the same.  And on a socket that is
    no longer open, a join that meets the condition gets no envelope. *)
Lemma join_not_found_ignores_token :
  (rejects_with "ROOM_NOT_FOUND"
     (handleJoin all_open 3%nat join_with_token "P3" 5 empty_server).2 = true
   /\ ~ spec_not_found_condition join_with_token (roomManager empty_server))
  /\ (spec_not_found_condition (joinMsg "NOROOM" "Eve" None) (roomManager empty_server)
      /\ rejects_with "ROOM_NOT_FOUND"
           (handleJoin (all_open_but 3%nat) 3%nat (joinMsg "NOROOM" "Eve" None) "P3" 5
                       empty_server).2 = false).
Proof.
  split; split.
  - vm_compute; reflexivity.
  - intros (_ & _ & Htoken). discriminate Htoken.
  - repeat split.
  - vm_compute; reflexivity.
Qed.

(** ** Frames on a socket that has not joined *)

(** C8, as the code has it: on an open socket bound to no participant and
    no waiting participant, a frame of any type but [join] changes no
    state.  The relay types, [chat], [participant-updated] and
    [moderator-action] are answered with the error "Not joined to a room";
    [leave] is answered with nothing; the lock and admission types are
    answered with the moderators-only error of their handler; a type the
    dispatcher does not route with "Unknown message type".  ([raise-hand]
    and [lower-hand] change no state either; what they are answered with is
    left open here.) *)
Theorem unbound_socket_frames (rs : Socket -> Z) (socket : Socket) (message : Msg)
    (uuid : string) (now : Z) (ss : SignalingServer) :
  s_participants ss !! socket = None ->
  s_waitingParticipants ss !! socket = None ->
  rs socket = 1 ->
  m_type message <> T_join ->
  let res := handleMessage rs socket (Json message) uuid now ss in
  let reply text := [Send socket (errorMessage text None now)] in
  res.1 = ss
  /\ match m_type message with
     | T_offer | T_answer | T_ice_candidate | T_file_offer | T_file_answer
     | T_file_chunk | T_quality_change | T_chat | T_participant_updated
     | T_moderator_action => res.2 = reply "Not joined to a room"
     | T_leave => res.2 = []
     | T_raise_hand | T_lower_hand => True
     | T_room_locked => res.2 = reply "Only moderators can lock the room"
     | T_room_unlocked => res.2 = reply "Only moderators can unlock the room"
     | T_admit_user => res.2 = reply "Only moderators can admit users"
     | T_reject_user => res.2 = reply "Only moderators can reject users"
     | _ => res.2 = reply "Unknown message type"
     end.
Proof.
  intros Hp Hw Hopen Hty res reply. subst res reply.
  unfold handleMessage, handleLeave, handleDisconnect, handleRelayMessage, handleChat,
    handleParticipantUpdate, handleRaiseHand, handleLowerHand, handleModeratorAction,
    handleRoomLock, handleRoomUnlock, handleAdmitUser, handleRejectUser,
    boundModerator, sendError.
  rewrite Hp, Hw, Hopen. simpl.
  by destruct (m_type message).
Qed.

Lemma unbound_socket_frames_witness :
  handleMessage all_open 7%nat (Json (targeted T_offer "ABC123" "P2" "sdp")) "" 9 two_peers
  = (two_peers, [Send 7%nat (errorMessage "Not joined to a room" None 9)]).
Proof.
  assert (s_participants two_peers !! 7%nat = None) as Hp by (vm_compute; reflexivity).
  assert (s_waitingParticipants two_peers !! 7%nat = None) as Hw
    by (vm_compute; reflexivity).
  destruct (unbound_socket_frames all_open 7%nat (targeted T_offer "ABC123" "P2" "sdp")
              "" 9 two_peers Hp Hw eq_refl ltac:(discriminate)) as [H1 H2].
  rewrite (surjective_pairing (handleMessage _ _ _ _ _ _)).
  cbv zeta in H1, H2. simpl m_type in H2. cbv iota in H2. rewrite H1, H2. reflexivity.
Defined.

(** C8 as stated fails: on a socket that has not joined, [raise-hand] and
    [leave] are dropped without any envelope, and [room-locked] is answered
    with another error; and when the socket is no longer open, [chat] is
    not answered either. *)
Lemma unbound_frames_without_not_joined_error :
  let frame ty := Json (baseMsg ty "ABC123" "" 0) in
  s_participants two_peers !! 7%nat = None
  /\ s_waitingParticipants two_peers !! 7%nat = None
  /\ ~ replies_not_joined 7%nat 9
        (handleMessage all_open 7%nat (frame T_raise_hand) "" 9 two_peers).2
  /\ ~ replies_not_joined 7%nat 9
        (handleMessage all_open 7%nat (frame T_leave) "" 9 two_peers).2
  /\ ~ replies_not_joined 7%nat 9
        (handleMessage all_open 7%nat (frame T_room_locked) "" 9 two_peers).2
  /\ ~ replies_not_joined 7%nat 9
        (handleMessage (all_open_but 7%nat) 7%nat (frame T_chat) "" 9 two_peers).2.
Proof.
  cbv zeta.
  split; [vm_compute; reflexivity|]. split; [vm_compute; reflexivity|].
  unfold replies_not_joined. split; [|split; [|split]].
  - replace (handleMessage _ _ _ _ _ _).2 with (@nil Effect) by (vm_compute; reflexivity).
    apply not_elem_of_nil.
  - replace (handleMessage _ _ _ _ _ _).2 with (@nil Effect) by (vm_compute; reflexivity).
    apply not_elem_of_nil.
  - replace (handleMessage _ _ _ _ _ _).2
      with [Send 7%nat (errorMessage "Only moderators can lock the room" None 9)]
      by (vm_compute; reflexivity).
    intros Hin. apply list_elem_of_singleton in Hin. discriminate Hin.
  - replace (handleMessage _ _ _ _ _ _).2 with (@nil Effect) by (vm_compute; reflexivity).
    apply not_elem_of_nil.
Qed.

(** ** Capacity *)

Lemma getOrCreateRoom_cases (roomId : string) (config : option RoomConfig) (now : Z)
    (st : RoomManager) :
  let room := (getOrCreateRoom roomId config now st).1 in
  let st1 := (getOrCreateRoom roomId config now st).2 in
  getRoom roomId st1 = Some room
  /\ heap st1 = heap st
  /\ ((getRoom roomId st = Some room /\ st1 = st)
      \/ (getRoom roomId st = None
          /\ (room, st1) = createRoom roomId config now st)).
Proof.
  unfold getOrCreateRoom. destruct (getRoom roomId st) as [existing|] eqn:Hroom; simpl.
  - split; [done|]. split; [done|]. by left.
  - split; [unfold getRoom; simpl; apply get_set_eq|]. split; [done|]. by right.
Qed.

Lemma Capacity_update_room (roomId : string) (f : Room -> Room) (st : RoomManager) :
  Capacity st ->
  (forall r, getRoom roomId st = Some r -> within_capacity r -> within_capacity (f r)) ->
  Capacity (update_room roomId f st).
Proof.
  intros Hcap Hf. unfold Capacity, update_room. simpl.
  apply Forall_alter; [done|]. intros r Hr Hw. by apply Hf.
Qed.

Lemma Capacity_createRoom (roomId : string) (config : option RoomConfig) (now : Z)
    (st : RoomManager) :
  Capacity st -> capacity_ok (config ≫= c_maxParticipants) = true ->
  Capacity (createRoom roomId config now st).2.
Proof.
  intros Hcap Hok. unfold Capacity. simpl. apply Forall_set; [done|].
  unfold within_capacity. simpl.
  destruct (config ≫= c_maxParticipants) as [m|]; simpl in *.
  - by apply Z.leb_le.
  - done.
Qed.

Lemma Capacity_getOrCreateRoom (roomId : string) (config : option RoomConfig) (now : Z)
    (st : RoomManager) :
  Capacity st -> capacity_ok (config ≫= c_maxParticipants) = true ->
  Capacity (getOrCreateRoom roomId config now st).2.
Proof.
  intros Hcap Hok. unfold getOrCreateRoom.
  destruct (getRoom roomId st); [done|]. by apply Capacity_createRoom.
Qed.

Lemma Capacity_same_rooms (st st' : RoomManager) :
  rooms st' = rooms st -> Capacity st -> Capacity st'.
Proof. unfold Capacity. by intros ->. Qed.

Lemma Capacity_if (c : bool) (st st' : RoomManager) :
  Capacity st -> Capacity st' -> Capacity (if c then st else st').
Proof. by destruct c. Qed.

Lemma Capacity_if_peak (b : bool) (n : nat) (st : RoomManager) :
  Capacity st -> Capacity (if b then set_peakParticipants n st else st).
Proof. by destruct b. Qed.

Lemma Capacity_addToWaitingRoom (roomId : string) (w : WaitingParticipant) (now : Z)
    (st : RoomManager) :
  Capacity st -> Capacity (addToWaitingRoom roomId w now st).2.
Proof.
  intros Hcap. unfold addToWaitingRoom.
  pose proof (Capacity_getOrCreateRoom roomId None now st Hcap eq_refl) as Hcap1.
  destruct (getOrCreateRoom roomId None now st) as [room st1]. simpl in Hcap1.
  case_match; simpl; [done|]. by apply Capacity_update_room.
Qed.

Lemma Capacity_admitFromWaitingRoom (roomId participantId : string) (st : RoomManager) :
  Capacity st -> Capacity (admitFromWaitingRoom roomId participantId st).2.
Proof.
  intros Hcap. unfold admitFromWaitingRoom. repeat case_match; simpl; try done.
  by apply Capacity_update_room.
Qed.

Lemma Capacity_rejectFromWaitingRoom (roomId participantId : string) (st : RoomManager) :
  Capacity st -> Capacity (rejectFromWaitingRoom roomId participantId st).2.
Proof.
  intros Hcap. unfold rejectFromWaitingRoom. repeat case_match; simpl; try done.
  by apply Capacity_update_room.
Qed.

Lemma getRoom_update_room_eq (roomId : string) (f : Room -> Room) (st : RoomManager) :
  getRoom roomId (update_room roomId f st) = f <$> getRoom roomId st.
Proof. unfold getRoom, update_room. simpl. apply get_alter_eq. Qed.

Lemma getRoom_mutate (roomId : string) (r : Ref) (f : Participant -> Participant)
    (st : RoomManager) :
  getRoom roomId (mutate r f st) = getRoom roomId st.
Proof. reflexivity. Qed.

Lemma Capacity_addParticipant (roomId : string) (participant : Ref) (isHost : bool)
    (now : Z) (st : RoomManager) :
  Capacity st -> Capacity (addParticipant roomId participant isHost now st).2.
Proof.
  intros Hcap. unfold addParticipant.
  pose proof (Capacity_getOrCreateRoom roomId None now st Hcap eq_refl) as Hcap1.
  destruct (getOrCreateRoom_cases roomId None now st) as (Hroom & _ & _).
  destruct (getOrCreateRoom roomId None now st) as [room st1]. simpl in Hcap1, Hroom.
  destruct (Z.of_nat (JsMap.size (participants room)) >=? maxParticipants room) eqn:Hfull;
    cbv beta iota zeta; cbn [snd]; [done|].
  assert (Z.of_nat (JsMap.size (participants room)) < maxParticipants room) as Hlt by lia.
  apply Capacity_if_peak.
  apply Capacity_update_room.
  - case_match; [|done].
    eapply Capacity_same_rooms; [reflexivity|]. by apply Capacity_update_room.
  - intros r Hr _. unfold within_capacity. simpl.
    assert (participants r = participants room /\ maxParticipants r = maxParticipants room)
      as [Hps Hmax].
    { case_match.
      - rewrite getRoom_mutate, getRoom_update_room_eq, Hroom in Hr.
        by injection Hr as <-.
      - rewrite Hroom in Hr. by injection Hr as <-. }
    rewrite Hps, Hmax. unfold JsMap.size in *.
    pose proof (length_set_le (p_id (deref (heap st1) participant)) participant
                  (participants room)).
    lia.
Qed.

Lemma Capacity_delete_room (roomId : string) (st : RoomManager) :
  Capacity st -> Capacity (set_rooms (JsMap.delete roomId (rooms st)) st).
Proof. intros Hcap. unfold Capacity. simpl. by apply Forall_delete. Qed.

Lemma Capacity_removeParticipant (roomId participantId : string) (st : RoomManager) :
  Capacity st -> Capacity (removeParticipant roomId participantId st).
Proof.
  intros Hcap. unfold removeParticipant.
  destruct (JsMap.get roomId (rooms st)) as [room|] eqn:Hroom; [|done].
  cbv zeta.
  set (ps := JsMap.delete participantId (participants room)).
  assert (Capacity (update_room roomId (set_participants ps) st)) as Hcap1.
  { apply Capacity_update_room; [done|]. intros r Hr Hw.
    unfold getRoom in Hr. rewrite Hroom in Hr. injection Hr as <-.
    unfold within_capacity in *. simpl. unfold JsMap.size in *.
    pose proof (length_delete_le participantId (participants room)). subst ps. lia. }
  match goal with
  | |- Capacity (if _ then set_rooms (JsMap.delete _ (rooms ?s)) ?s else ?s) =>
      assert (Capacity s) as Hcap2
  end.
  { apply Capacity_if; [|done].
    destruct (JsMap.first_value ps) as [newHost|]; [|done].
    eapply Capacity_same_rooms; [reflexivity|]. by apply Capacity_update_room. }
  apply Capacity_if; [by apply Capacity_delete_room | done].
Qed.

Lemma Forall_List_filter {A : Type} (P : A -> Prop) (f : A -> bool) (l : list A) :
  Forall P l -> Forall P (List.filter f l).
Proof.
  intros Hl. induction Hl as [|x l Hx Hl IH]; simpl; [constructor|].
  destruct (f x); [by constructor | done].
Qed.

Lemma Capacity_cleanupAbandonedRooms (maxAgeMs now : Z) (st : RoomManager) :
  Capacity st -> Capacity (cleanupAbandonedRooms maxAgeMs now st).2.
Proof.
  intros Hcap. unfold cleanupAbandonedRooms. cbv zeta. cbn [snd].
  case_match; unfold Capacity; simpl; by apply Forall_List_filter.
Qed.

Lemma Capacity_preCreateRoom (options : option PreCreateOptions) (generated token : string)
    (now : Z) (st : RoomManager) :
  Capacity st -> capacity_ok (options ≫= o_maxParticipants) = true ->
  Capacity (preCreateRoom options generated token now st).2.
Proof.
  intros Hcap Hok. unfold preCreateRoom. repeat case_match; cbn [snd]; try done.
  unfold Capacity. simpl. apply Forall_set; [done|].
  unfold within_capacity. simpl.
  destruct (options ≫= o_maxParticipants) as [m|]; simpl in *.
  - by apply Z.leb_le.
  - done.
Qed.

Lemma Capacity_updateParticipant (roomId participantId : string)
    (updates : PartialParticipant) (st : RoomManager) :
  Capacity st -> Capacity (updateParticipant roomId participantId updates st).
Proof. intros Hcap. unfold updateParticipant. by repeat case_match. Qed.

Lemma Capacity_kickParticipant (rs : Socket -> Z) (roomId participantId : string)
    (st : RoomManager) :
  Capacity st -> Capacity (kickParticipant rs roomId participantId st).1.2.
Proof.
  intros Hcap. unfold kickParticipant.
  destruct (JsMap.get roomId (rooms st)) as [room|]; [|done].
  destruct (JsMap.get participantId (participants room)); [|done].
  cbn [fst snd]. by apply Capacity_removeParticipant.
Qed.

Lemma Capacity_step (rs : Socket -> Z) (now : Z) (op : Op) (st : RoomManager) :
  Capacity st -> config_ok op = true -> Capacity (step rs now op st).
Proof.
  intros Hcap Hok. destruct op; simpl in Hok; unfold step.
  - by apply Capacity_createRoom.
  - by apply Capacity_preCreateRoom.
  - by apply Capacity_getOrCreateRoom.
  - by apply Capacity_addToWaitingRoom.
  - by apply Capacity_admitFromWaitingRoom.
  - by apply Capacity_rejectFromWaitingRoom.
  - unfold alloc. apply Capacity_addParticipant.
    by eapply Capacity_same_rooms; [reflexivity|].
  - by apply Capacity_removeParticipant.
  - by apply Capacity_updateParticipant.
  - by apply Capacity_update_room.
  - by apply Capacity_update_room.
  - by apply Capacity_kickParticipant.
  - by apply Capacity_cleanupAbandonedRooms.
Qed.

(** C2, as the code has it: along any sequence of registry calls that
    starts in a state where every room is within its capacity, every room
    is within its capacity after each call, provided the capacities that
    the calls configure are integers that are not negative.  (A sequence
    is arbitrary, hence so is each of its prefixes.)  The registry stores
    whatever capacity a call configures and tests none. *)
Theorem capacity_invariant (rs : Socket -> Z) (calls : list (Z * Op)) (st : RoomManager) :
  Capacity st ->
  forallb (fun c : Z * Op => config_ok c.2) calls = true ->
  Capacity (run rs calls st)
  /\ forall roomId room,
       getRoom roomId (run rs calls st) = Some room ->
       Z.of_nat (JsMap.size (participants room)) <= maxParticipants room.
Proof.
  intros Hcap Hok.
  assert (Capacity (run rs calls st)) as Hfinal.
  { revert st Hcap Hok. induction calls as [|[now op] rest IH]; intros st Hcap Hok.
    - done.
    - simpl in Hok. apply andb_true_iff in Hok as [Hop Hrest].
      simpl. apply IH; [|done]. by apply Capacity_step. }
  split; [done|]. intros roomId room Hroom.
  by apply (Forall_get _ _ _ _ Hfinal Hroom).
Qed.

Lemma capacity_invariant_witness :
  Capacity (run all_open small_room_session (newRoomManager None None)).
Proof.
  apply (capacity_invariant all_open small_room_session (newRoomManager None None)).
  - constructor.
  - vm_compute; reflexivity.
Defined.

(** C2 as stated fails: the registry stores a capacity as it is given.  A
    room pre-created, or created, with a negative capacity holds more
    participants, none, than its capacity from the moment it exists. *)
Lemma capacity_broken_by_negative_capacity :
  let fresh := newRoomManager None None in
  let posted :=
    run all_open
        [(1, OpPreCreateRoom (Some (mkPreCreateOptions (Some "NEG") None (Some (-1))))
                             "generated" "tok-1")] fresh in
  let created :=
    run all_open
        [(1, OpCreateRoom "NEG" (Some {| c_password := None;
                                         c_maxParticipants := Some (-1) |}))] fresh in
  Capacity fresh
  /\ (exists room, getRoom "NEG" posted = Some room
                   /\ participants room = []
                   /\ ~ Z.of_nat (JsMap.size (participants room)) <= maxParticipants room)
  /\ (exists room, getRoom "NEG" created = Some room
                   /\ participants room = []
                   /\ ~ Z.of_nat (JsMap.size (participants room)) <= maxParticipants room)
  /\ ~ Capacity posted /\ ~ Capacity created.
Proof.
  cbv zeta. split; [constructor|].
  split; [eexists; split; [vm_compute; reflexivity|]; split; [done | simpl; lia]|].
  split; [eexists; split; [vm_compute; reflexivity|]; split; [done | simpl; lia]|].
  split; intros Hcap; vm_compute in Hcap;
    apply Forall_cons in Hcap as [Hroom _]; by apply Hroom.
Qed.

(** ** Capacity along the dispatcher *)

Lemma Capacity_mutate (r : Ref) (f : Participant -> Participant) (st : RoomManager) :
  Capacity st -> Capacity (mutate r f st).
Proof. done. Qed.

Lemma Capacity_handleJoin (rs : Socket -> Z) (socket : Socket) (message : Msg)
    (participantId : string) (now : Z) (ss : SignalingServer) :
  Capacity (roomManager ss) ->
  Capacity (roomManager (handleJoin rs socket message participantId now ss).1).
Proof.
  intros Hcap. unfold handleJoin. cbv zeta.
  destruct (negb (default false (m_isHost message)) && _); [done|].
  destruct (bool_decide _ && negb (validatePassword _ _ _)); [done|].
  destruct (isRoomLocked _ _ && _).
  - match goal with
    | |- context [addToWaitingRoom ?a ?b ?c ?d] =>
        pose proof (Capacity_addToWaitingRoom a b c d Hcap) as Hcap1;
        destruct (addToWaitingRoom a b c d) as [[|] rm1]
    end; done.
  - match goal with
    | |- context [alloc ?p ?s] =>
        assert (Capacity s) as Hcap1;
        [apply Capacity_if; [by apply Capacity_createRoom | done]|];
        generalize dependent s; intros rm1 Hcap1
    end.
    unfold alloc.
    match goal with
    | |- context [addParticipant ?a ?b ?c ?d ?s] =>
        pose proof (Capacity_addParticipant a b c d s Hcap1) as Hcap3;
        destruct (addParticipant a b c d s) as [[|] rm3]
    end; cbn [negb fst roomManager set_roomManager]; [|done].
    simpl in Hcap3. destruct (getRoom (m_roomId message) rm3); [|done].
    apply Capacity_if; [|done]. apply Capacity_mutate. by apply Capacity_update_room.
Qed.

Lemma Capacity_handleDisconnect (rs : Socket -> Z) (socket : Socket) (now : Z)
    (ss : SignalingServer) :
  Capacity (roomManager ss) ->
  Capacity (roomManager (handleDisconnect rs socket now ss).1).
Proof.
  intros Hcap. unfold handleDisconnect. cbv zeta.
  destruct (s_participants ss !! socket).
  - by apply Capacity_removeParticipant.
  - destruct (s_waitingParticipants ss !! socket); [|done]. cbn [fst roomManager].
    apply Capacity_if; [|done]. by apply Capacity_rejectFromWaitingRoom.
Qed.

Lemma Capacity_handleModeratorAction (rs : Socket -> Z) (socket : Socket) (message : Msg)
    (now : Z) (ss : SignalingServer) :
  Capacity (roomManager ss) ->
  Capacity (roomManager (handleModeratorAction rs socket message now ss).1).
Proof.
  intros Hcap. unfold handleModeratorAction. cbv zeta.
  destruct (s_participants ss !! socket) as [participant|]; [|done].
  destruct (negb _); [done|].
  destruct (List.find _ _); [|done].
  destruct (m_action message) as [[| | |]|]; cbn [fst roomManager set_roomManager];
    try (by apply Capacity_updateParticipant); [|done].
  match goal with
  | |- context [kickParticipant ?a ?b ?c ?d] =>
      pose proof (Capacity_kickParticipant a b c d Hcap) as Hcap1;
      destruct (kickParticipant a b c d) as [[? rm1] ?]
  end.
  done.
Qed.

Lemma Capacity_handleAdmitUser (rs : Socket -> Z) (socket : Socket) (message : Msg)
    (now : Z) (ss : SignalingServer) :
  Capacity (roomManager ss) ->
  Capacity (roomManager (handleAdmitUser rs socket message now ss).1).
Proof.
  intros Hcap. unfold handleAdmitUser.
  destruct (boundModerator socket ss) as [e|]; [|done].
  assert (Capacity (match m_targetId message with
                    | Some targetId =>
                        admitFromWaitingRoom (p_roomId e) targetId (roomManager ss)
                    | None => (None, roomManager ss)
                    end).2) as Hcap1.
  { destruct (m_targetId message); [by apply Capacity_admitFromWaitingRoom | done]. }
  destruct (match m_targetId message with Some _ => _ | None => _ end)
    as [[w|] rm1]; [|done].
  unfold alloc. cbv zeta. cbn [fst roomManager].
  by apply Capacity_addParticipant.
Qed.

Lemma Capacity_handleRejectUser (rs : Socket -> Z) (socket : Socket) (message : Msg)
    (now : Z) (ss : SignalingServer) :
  Capacity (roomManager ss) ->
  Capacity (roomManager (handleRejectUser rs socket message now ss).1).
Proof.
  intros Hcap. unfold handleRejectUser.
  destruct (boundModerator socket ss) as [e|]; [|done].
  assert (Capacity (match m_targetId message with
                    | Some targetId =>
                        rejectFromWaitingRoom (p_roomId e) targetId (roomManager ss)
                    | None => (None, roomManager ss)
                    end).2) as Hcap1.
  { destruct (m_targetId message); [by apply Capacity_rejectFromWaitingRoom | done]. }
  by destruct (match m_targetId message with Some _ => _ | None => _ end) as [[w|] rm1].
Qed.

(** Whatever frame the dispatcher handles, on whatever socket, every room
    stays within its capacity: the rooms the join path creates have the
    default capacity, and the admit path goes through [addParticipant]. *)
Lemma Capacity_handleMessage (rs : Socket -> Z) (socket : Socket) (data : Frame)
    (uuid : string) (now : Z) (ss : SignalingServer) :
  Capacity (roomManager ss) ->
  Capacity (roomManager (handleMessage rs socket data uuid now ss).1).
Proof.
  intros Hcap. destruct data as [|message]; [done|].
  unfold handleMessage.
  destruct (m_type message); try done.
  - by apply Capacity_handleJoin.
  - by apply Capacity_handleDisconnect.
  - unfold handleRelayMessage. by repeat case_match.
  - unfold handleRelayMessage. by repeat case_match.
  - unfold handleRelayMessage. by repeat case_match.
  - unfold handleParticipantUpdate. by case_match.
  - unfold handleChat. by case_match.
  - unfold handleRelayMessage. by repeat case_match.
  - unfold handleRelayMessage. by repeat case_match.
  - unfold handleRelayMessage. by repeat case_match.
  - by apply Capacity_handleModeratorAction.
  - unfold handleRoomLock. case_match; [|done]. by apply Capacity_update_room.
  - unfold handleRoomUnlock. case_match; [|done]. by apply Capacity_update_room.
  - by apply Capacity_handleAdmitUser.
  - by apply Capacity_handleRejectUser.
  - unfold handleRaiseHand. by case_match.
  - unfold handleLowerHand. by case_match.
  - unfold handleRelayMessage. by repeat case_match.
Qed.

Lemma Capacity_serve (rs : Socket -> Z) (frames : list (Socket * Frame * string * Z))
    (ss : SignalingServer) :
  Capacity (roomManager ss) -> Capacity (roomManager (serve rs frames ss).1).
Proof.
  revert ss. induction frames as [|[[[socket data] uuid] now] rest IH]; intros ss Hcap.
  - done.
  - simpl.
    pose proof (Capacity_handleMessage rs socket data uuid now ss Hcap) as Hcap1.
    destruct (handleMessage rs socket data uuid now ss) as [ss1 effects1].
    specialize (IH ss1 Hcap1). by destruct (serve rs rest ss1).
Qed.

(** ** No ghost rooms *)












(** ** Host existence *)

Lemma heap_le_app (h : list Participant) (p : Participant) : heap_le h (h ++ [p]).
Proof.
  split; [rewrite length_app; simpl; lia|].
  intros r Hr. unfold deref. by rewrite lookup_app_l.
Qed.

Lemma heap_le_insert (h : list Participant) (r : Ref) (p : Participant) :
  p_id p = p_id (deref h r) ->
  (isModerator (deref h r) = true -> isModerator p = true) ->
  heap_le h (<[r := p]> h).
Proof.
  intros Hid Hmod. split; [by rewrite length_insert|].
  intros r' Hr'. destruct (decide (r = r')) as [<-|Hne].
  - by rewrite deref_insert_eq.
  - by rewrite deref_insert_ne.
Qed.

Lemma room_wf_heap_le (h h' : list Participant) (room : Room) :
  heap_le h h' -> room_wf h room -> room_wf h' room.
Proof.
  intros [Hlen Hle] [Hkeyed Hhost]. split.
  - unfold keyed_by_id in *. eapply Forall_impl; [exact Hkeyed|].
    intros [k ref] [Hlt Hid]. simpl in *. split; [lia|].
    destruct (Hle ref Hlt) as [-> _]. done.
  - intros Hne. destruct (Hhost Hne) as (hid & ref & Hh & Hg & Hm).
    exists hid, ref. split; [done|]. split; [done|].
    pose proof (Forall_get _ _ _ _ Hkeyed Hg) as [Hlt _]. simpl in Hlt.
    by apply (Hle ref Hlt).
Qed.

Lemma Wf_heap (h' : list Participant) (st : RoomManager) :
  Wf st -> heap_le (heap st) h' -> Wf (set_heap h' st).
Proof.
  intros Hwf Hle. unfold Wf in *. simpl.
  eapply Forall_impl; [exact Hwf|]. intros [k room] Hroom. simpl in *.
  by eapply room_wf_heap_le.
Qed.

Lemma Wf_update_room (roomId : string) (f : Room -> Room) (st : RoomManager) :
  Wf st ->
  (forall r, getRoom roomId st = Some r -> room_wf (heap st) r -> room_wf (heap st) (f r)) ->
  Wf (update_room roomId f st).
Proof.
  intros Hwf Hf. unfold Wf, update_room. simpl.
  apply Forall_alter; [done|]. intros r Hr Hw. by apply Hf.
Qed.

Lemma Wf_if (c : bool) (st st' : RoomManager) : Wf st -> Wf st' -> Wf (if c then st else st').
Proof. by destruct c. Qed.

Lemma Wf_if_peak (b : bool) (n : nat) (st : RoomManager) :
  Wf st -> Wf (if b then set_peakParticipants n st else st).
Proof. by destruct b. Qed.

Lemma room_wf_empty (h : list Participant) (r : Room) : participants r = [] -> room_wf h r.
Proof.
  intros Hnil. split.
  - unfold keyed_by_id. rewrite Hnil. constructor.
  - intros Hne. done.
Qed.

Lemma Wf_createRoom (roomId : string) (config : option RoomConfig) (now : Z)
    (st : RoomManager) :
  Wf st -> Wf (createRoom roomId config now st).2.
Proof.
  intros Hwf. unfold Wf. simpl. apply Forall_set; [done|]. by apply room_wf_empty.
Qed.

Lemma Wf_getOrCreateRoom (roomId : string) (config : option RoomConfig) (now : Z)
    (st : RoomManager) :
  Wf st -> Wf (getOrCreateRoom roomId config now st).2.
Proof.
  intros Hwf. unfold getOrCreateRoom.
  destruct (getRoom roomId st); [done|]. by apply Wf_createRoom.
Qed.

Lemma update_room_twice (roomId : string) (f g : Room -> Room) (st : RoomManager) :
  update_room roomId g (update_room roomId f st)
  = update_room roomId (fun r => g (f r)) st.
Proof. unfold update_room, set_rooms. simpl. by rewrite alter_alter. Qed.

Lemma update_room_mutate (roomId : string) (f : Room -> Room) (r : Ref)
    (g : Participant -> Participant) (st : RoomManager) :
  mutate r g (update_room roomId f st) = update_room roomId f (mutate r g st).
Proof. reflexivity. Qed.

Lemma Wf_mutate_moderator (ref : Ref) (st : RoomManager) :
  Wf st -> Wf (mutate ref (set_isModerator true) st).
Proof.
  intros Hwf. unfold mutate. apply Wf_heap; [done|]. by apply heap_le_insert.
Qed.

Lemma Wf_addParticipant (roomId : string) (participant : Ref) (isHost : bool) (now : Z)
    (st : RoomManager) :
  Wf st ->
  (participant < length (heap st))%nat ->
  (forall room, getRoom roomId st = Some room ->
                JsMap.get (p_id (deref (heap st) participant)) (participants room) = None) ->
  Wf (addParticipant roomId participant isHost now st).2.
Proof.
  intros Hwf Hlt Hfresh. unfold addParticipant.
  pose proof (Wf_getOrCreateRoom roomId None now st Hwf) as Hwf1.
  destruct (getOrCreateRoom_cases roomId None now st) as (Hroom & Hheap & Hcases).
  destruct (getOrCreateRoom roomId None now st) as [room st1].
  simpl in Hwf1, Hroom, Hheap, Hcases. rewrite <- Hheap in Hlt, Hfresh.
  set (pid := p_id (deref (heap st1) participant)) in *.
  assert (JsMap.get pid (participants room) = None) as Hfresh1.
  { destruct Hcases as [[Hold _]|[_ Hnew]]; [by apply Hfresh|].
    injection Hnew as -> _. done. }
  destruct (Z.of_nat (JsMap.size (participants room)) >=? maxParticipants room);
    cbv beta iota zeta; cbn [snd]; [done|].
  apply Wf_if_peak. fold pid.
  destruct ((JsMap.size (participants room) =? 0)%nat || isHost) eqn:Hfirst.
  - rewrite update_room_mutate, update_room_twice.
    apply Wf_update_room; [by apply Wf_mutate_moderator|].
    intros r _ [Hkeyed _]. unfold mutate. simpl. split.
    + unfold keyed_by_id. simpl. apply Forall_set; [done|]. simpl.
      rewrite length_insert. split; [done|]. by rewrite deref_insert_eq.
    + intros _. exists pid, participant. simpl.
      split; [done|]. split; [apply get_set_eq|]. by rewrite deref_insert_eq.
  - apply Wf_update_room; [done|].
    intros r Hr [Hkeyed Hhost]. rewrite Hroom in Hr. injection Hr as <-. split.
    + unfold keyed_by_id. simpl. by apply Forall_set.
    + intros _. apply orb_false_iff in Hfirst as [Hsize _].
      apply Nat.eqb_neq in Hsize.
      destruct Hhost as (hid & href & Hh & Hg & Hm).
      { intros Hnil. by rewrite Hnil in Hsize. }
      exists hid, href. simpl. split; [done|]. split; [|done].
      rewrite get_set_ne; [done|]. intros ->. by rewrite Hfresh1 in Hg.
Qed.

Lemma Wf_removeParticipant (roomId participantId : string) (st : RoomManager) :
  Wf st -> Wf (removeParticipant roomId participantId st).
Proof.
  intros Hwf. unfold removeParticipant.
  destruct (JsMap.get roomId (rooms st)) as [room|] eqn:Hroom; [|done].
  cbv zeta.
  pose proof (Forall_get _ _ _ _ Hwf Hroom) as [Hkeyed Hhost]. simpl in Hkeyed, Hhost.
  set (ps := JsMap.delete participantId (participants room)).
  assert (Forall (fun kv : string * Ref =>
                    (kv.2 < length (heap st))%nat /\ p_id (deref (heap st) kv.2) = kv.1) ps)
    as Hkeyed_ps by (by apply Forall_delete).
  match goal with
  | |- Wf (if _ then set_rooms (JsMap.delete _ (rooms ?s)) ?s else ?s) =>
      assert (Wf s) as Hwf2
  end.
  { destruct (bool_decide (hostId room = Some participantId) && (0 <? JsMap.size ps)%nat)
      eqn:Hcond.
    - destruct (JsMap.first_value ps) as [newHost|] eqn:Hfirst.
      + rewrite !update_room_mutate, update_room_twice.
        apply Wf_update_room; [by apply Wf_mutate_moderator|].
        intros r Hr _. rewrite getRoom_mutate in Hr. unfold getRoom in Hr.
        rewrite Hroom in Hr. injection Hr as <-.
        destruct (get_first_value _ _ Hfirst) as (k0 & Hin & Hget).
        pose proof (proj1 (Forall_forall _ _) Hkeyed_ps _ Hin) as [Hlt Hid].
        simpl in Hlt, Hid.
        assert (heap_le (heap st)
                  (heap (mutate newHost (set_isModerator true) st))) as Hle
          by (by apply heap_le_insert).
        split.
        * unfold keyed_by_id. simpl.
          eapply Forall_impl; [exact Hkeyed_ps|]. intros [k ref] [Hl Hi]. simpl in *.
          destruct Hle as [Hlen Hle]. split; [lia|].
          by destruct (Hle ref Hl) as [-> _].
        * intros _. exists k0, newHost. simpl. split; [by rewrite Hid|].
          split; [done|]. by rewrite deref_insert_eq.
      + apply Wf_update_room; [done|]. intros r _ _. apply room_wf_empty. simpl.
        by destruct ps as [|[? ?] ?].
    - apply Wf_update_room; [done|]. intros r Hr _. unfold getRoom in Hr.
      rewrite Hroom in Hr. injection Hr as <-. split; [done|].
      intros Hne. simpl in Hne.
      destruct Hhost as (hid & href & Hh & Hg & Hm).
      { intros Hnil. apply Hne. subst ps. by rewrite Hnil. }
      exists hid, href. simpl. split; [done|]. split; [|done].
      subst ps. rewrite get_delete_ne; [done|]. intros <-.
      apply andb_false_iff in Hcond as [Hcond|Hcond].
      + apply bool_decide_eq_false in Hcond. done.
      + apply Nat.ltb_ge in Hcond. unfold JsMap.size in Hcond.
        destruct (JsMap.delete participantId (participants room)); [done|].
        simpl in Hcond. lia. }
  apply Wf_if; [|done]. unfold Wf. simpl. by apply Forall_delete.
Qed.

Lemma deref_app_new (h : list Participant) (p : Participant) :
  deref (h ++ [p]) (length h) = p.
Proof. unfold deref. by rewrite list_lookup_middle. Qed.

Lemma Wf_updateParticipant (roomId participantId : string) (updates : PartialParticipant)
    (st : RoomManager) :
  Wf st -> keeps_host updates = true ->
  Wf (updateParticipant roomId participantId updates st).
Proof.
  intros Hwf Hkeeps. unfold updateParticipant.
  destruct (JsMap.get roomId (rooms st)) as [room|]; [|done].
  destruct (JsMap.get participantId (participants room)) as [ref|]; [|done].
  unfold mutate. apply Wf_heap; [done|].
  apply andb_true_iff in Hkeeps as [Hid Hmod].
  apply bool_decide_eq_true in Hid. apply bool_decide_eq_true in Hmod.
  apply heap_le_insert; simpl.
  - by rewrite Hid.
  - intros ->. by destruct (u_isModerator updates) as [[|]|].
Qed.

Lemma Wf_step (rs : Socket -> Z) (now : Z) (op : Op) (st : RoomManager) :
  Wf st -> host_safe op st = true -> Wf (step rs now op st).
Proof.
  intros Hwf Hok. destruct op; simpl in Hok; unfold step.
  - by apply Wf_createRoom.
  - unfold preCreateRoom.
    destruct (getLatentRoomCount st >=? maxLatentRooms st); [done|].
    destruct (JsMap.has _ _); [done|]. cbn [snd].
    unfold Wf. simpl. apply Forall_set; [done|]. by apply room_wf_empty.
  - by apply Wf_getOrCreateRoom.
  - unfold addToWaitingRoom.
    pose proof (Wf_getOrCreateRoom roomId None now st Hwf) as Hwf1.
    destruct (getOrCreateRoom roomId None now st) as [room st1]. simpl in Hwf1.
    destruct (_ >=? _); cbn [snd]; [done|]. by apply Wf_update_room.
  - unfold admitFromWaitingRoom.
    destruct (JsMap.get roomId (rooms st)) as [room|]; [|done].
    destruct (JsMap.get participantId (waitingRoom room)); [|done].
    cbn [snd]. by apply Wf_update_room.
  - unfold rejectFromWaitingRoom.
    destruct (JsMap.get roomId (rooms st)) as [room|]; [|done].
    destruct (JsMap.get participantId (waitingRoom room)); [|done].
    cbn [snd]. by apply Wf_update_room.
  - unfold alloc. apply Wf_addParticipant.
    + apply Wf_heap; [done|]. apply heap_le_app.
    + simpl. rewrite length_app. simpl. lia.
    + intros room Hroom. simpl. rewrite deref_app_new.
      unfold fresh_in_room in Hok. change (getRoom roomId st = Some room) in Hroom.
      rewrite Hroom in Hok. unfold JsMap.has in Hok.
      by destruct (JsMap.get (p_id participant) (participants room)).
  - by apply Wf_removeParticipant.
  - by apply Wf_updateParticipant.
  - by apply Wf_update_room.
  - by apply Wf_update_room.
  - unfold kickParticipant.
    destruct (JsMap.get roomId (rooms st)) as [room|]; [|done].
    destruct (JsMap.get participantId (participants room)); [|done].
    cbn [fst snd]. by apply Wf_removeParticipant.
  - unfold cleanupAbandonedRooms. cbv zeta. cbn [snd].
    apply Wf_if; unfold Wf; simpl; by apply Forall_List_filter.
Qed.

Lemma room_wf_has_host (h : list Participant) (room : Room) :
  room_wf h room -> has_host h room.
Proof.
  intros [Hkeyed Hhost] Hne.
  destruct (Hhost Hne) as (hid & ref & Hh & Hg & Hm).
  pose proof (Forall_get _ _ _ _ Hkeyed Hg) as [_ Hid]. simpl in Hid.
  exists ref. split; [by eapply get_values|]. split; [by rewrite Hid | done].
Qed.

(** C3, as the code has it: starting from a registry whose rooms file
    every participant under its own id and have a moderator host whenever
    they have participants (the new registry is one), each room with
    participants still has, after every call, a [hostId] that is the id of
    one of its participants, who is a moderator; provided no
    [addParticipant] brings an id the room already has, and no patch of an
    [updateParticipant] carries an [id] or [isModerator = false].  That
    covers [addParticipant] (first joiner or [isHost]) and
    [removeParticipant] (promotion of the first remaining participant). *)
Theorem host_exists_preserved (rs : Socket -> Z) (calls : list (Z * Op))
    (st : RoomManager) :
  Wf st ->
  all_host_safe rs calls st = true ->
  HostExists (run rs calls st)
  /\ forall roomId room,
       getRoom roomId (run rs calls st) = Some room ->
       participants room <> [] ->
       exists ref, ref ∈ JsMap.values (participants room)
                   /\ hostId room = Some (p_id (deref (heap (run rs calls st)) ref))
                   /\ isModerator (deref (heap (run rs calls st)) ref) = true.
Proof.
  intros Hwf Hok.
  assert (Wf (run rs calls st)) as Hfinal.
  { revert st Hwf Hok. induction calls as [|[now op] rest IH]; intros st Hwf Hok.
    - done.
    - simpl in Hok. apply andb_true_iff in Hok as [Hop Hrest].
      simpl. apply IH; [|done]. by apply Wf_step. }
  assert (HostExists (run rs calls st)) as Hhost.
  { unfold HostExists. eapply Forall_impl; [exact Hfinal|].
    intros [k room] Hroom. by apply room_wf_has_host. }
  split; [done|]. intros roomId room Hroom.
  by apply (Forall_get _ _ _ _ Hhost Hroom).
Qed.

Lemma host_exists_preserved_witness :
  HostExists (run all_open small_room_session (newRoomManager None None)).
Proof.
  apply (host_exists_preserved all_open small_room_session (newRoomManager None None)).
  - constructor.
  - vm_compute; reflexivity.
Defined.

(** C3 as stated fails, in three ways.  In the room Alice hosts, a patch
    that clears [isModerator] leaves a host who is no moderator; a patch
    that carries an [id] leaves a [hostId] that is the id of no
    participant; and an [addParticipant] of a second object with Alice's
    id files a non-moderator under the host's id. *)
Lemma host_lost_by_patch_or_duplicate_id :
  HostExists one_room
  /\ ~ HostExists (step all_open 200 (OpUpdateParticipant "room" "p1" demote_patch) one_room)
  /\ ~ HostExists (step all_open 200 (OpUpdateParticipant "room" "p1" rename_patch) one_room)
  /\ ~ HostExists (step all_open 300 (OpAddParticipant "room" alice_again false) one_room).
Proof.
  split.
  { constructor; [|constructor]. intros _. exists 0%nat.
    split; [apply list_elem_of_here|]. split; vm_compute; reflexivity. }
  split; [|split].
  - intros Hinv. apply Forall_inv in Hinv.
    destruct Hinv as (ref & Hin & _ & Hmod); [discriminate|].
    apply list_elem_of_singleton in Hin. subst ref.
    vm_compute in Hmod. discriminate Hmod.
  - intros Hinv. apply Forall_inv in Hinv.
    destruct Hinv as (ref & Hin & Hhost & _); [discriminate|].
    apply list_elem_of_singleton in Hin. subst ref.
    vm_compute in Hhost. discriminate Hhost.
  - intros Hinv. apply Forall_inv in Hinv.
    destruct Hinv as (ref & Hin & _ & Hmod); [discriminate|].
    apply list_elem_of_singleton in Hin. subst ref.
    vm_compute in Hmod. discriminate Hmod.
Qed.

(** ** Admission from the waiting room *)

Example full_room_is_full :
  (getParticipants "ROOM" (roomManager full_room),
   w_id <$> getWaitingParticipants "ROOM" (roomManager full_room))
  = ([0; 1; 2; 3; 4; 5; 6; 7]%nat, ["W8"]).
Proof. vm_compute. reflexivity. Qed.

(** When the moderator's room still has a free place, the admitted entry
    leaves the waiting map and its id is in the participants map. *)
Lemma admit_moves_when_room_has_space (rs : Socket -> Z) (socket : Socket) (message : Msg)
    (now : Z) (ss : SignalingServer) (e : Participant) (targetId : string) (room : Room)
    (w : WaitingParticipant) :
  boundModerator socket ss = Some e ->
  m_targetId message = Some targetId ->
  getRoom (p_roomId e) (roomManager ss) = Some room ->
  JsMap.get targetId (waitingRoom room) = Some w ->
  Z.of_nat (JsMap.size (participants room)) < maxParticipants room ->
  let ss' := (handleAdmitUser rs socket message now ss).1 in
  in_waitingRoom (p_roomId e) targetId (roomManager ss') = false
  /\ in_participants (p_roomId e) (w_id w) (roomManager ss') = true.
Proof.
  intros Hmod Htarget Hroom Hwait Hspace ss'. subst ss'.
  unfold handleAdmitUser. rewrite Hmod, Htarget.
  unfold admitFromWaitingRoom. unfold getRoom in Hroom. rewrite Hroom, Hwait.
  unfold alloc. cbv beta iota zeta.
  set (st1 := update_room (p_roomId e) _ (roomManager ss)).
  set (st2 := set_heap _ st1).
  assert (getRoom (p_roomId e) st2
          = Some (set_waitingRoom (JsMap.delete targetId (waitingRoom room)) room)) as Hroom2.
  { unfold st2, st1, getRoom, update_room. simpl. by rewrite get_alter_eq, Hroom. }
  unfold addParticipant, getOrCreateRoom. rewrite Hroom2. cbv beta iota zeta.
  cbn [participants maxParticipants set_waitingRoom].
  destruct (Z.of_nat (JsMap.size (participants room)) >=? maxParticipants room) eqn:Hfull;
    [lia|].
  cbn [fst snd roomManager].
  unfold in_waitingRoom, in_participants.
  match goal with
  | |- context [getRoom _ (if ?c then set_peakParticipants ?n ?s else ?s)] =>
      replace (getRoom (p_roomId e) (if c then set_peakParticipants n s else s))
        with (getRoom (p_roomId e) s) by (by destruct c)
  end.
  rewrite getRoom_update_room_eq.
  match goal with
  | |- context [getRoom _ (if ?c then mutate ?r ?g (update_room ?k ?f ?s) else ?s)] =>
      assert (exists h, getRoom (p_roomId e)
                (if c then mutate r g (update_room k f s) else s)
              = Some (set_hostId h
                        (set_waitingRoom (JsMap.delete targetId (waitingRoom room)) room)))
        as [h ->]
  end.
  { case_match.
    - rewrite getRoom_mutate, getRoom_update_room_eq, Hroom2. by eexists.
    - rewrite Hroom2. by exists (hostId room). }
  simpl. unfold JsMap.has. rewrite get_delete_eq. split; [done|].
  unfold st2, deref. simpl. rewrite list_lookup_middle by done. simpl.
  by rewrite get_set_eq.
Qed.

(** C1 fails on the code: Mia admits the eighth waiting joiner into the
    room the first seven have filled.  The entry leaves the waiting map,
    [addParticipant] refuses it and its answer is dropped; the joiner is in
    neither map, yet is told it has joined and its socket is bound as a
    participant. *)
Lemma admit_into_full_room_drops_participant :
  let res := handleMessage all_open 1%nat (Json (admitMsg "ROOM" "W8")) "" 28 full_room in
  is_Some (boundModerator 1%nat full_room)
  /\ in_waitingRoom "ROOM" "W8" (roomManager full_room) = true
  /\ in_waitingRoom "ROOM" "W8" (roomManager res.1) = false
  /\ in_participants "ROOM" "W8" (roomManager res.1) = false
  /\ is_Some (s_participants res.1 !! 18%nat)
  /\ head res.2
     = Some (Send 18%nat (participantJoined "ROOM" "W8" (Some "Hal") false false false 28)).
Proof.
  cbv zeta. repeat split; try (vm_compute; reflexivity); vm_compute; by eexists.
Qed.

(** * Further properties of the registry *)

(** ** Broadcast *)

(** X1: [broadcast] sends the one envelope to the open sockets of those
    participants of the room whose [id] is not [excludeId] (not the empty
    string, when no [excludeId] is given), and causes nothing else: no
    [close], and nothing at all for an id the registry does not have. *)
Theorem broadcast_recipients (rs : Socket -> Z) (roomId : string) (message : Msg)
    (excludeId : option string) (st : RoomManager) (e : Effect) :
  e ∈ broadcast rs roomId message excludeId st <->
  exists room p,
    getRoom roomId st = Some room
    /\ p ∈ JsMap.values (participants room)
    /\ p_id (deref (heap st) p) <> default "" excludeId
    /\ rs (p_socket (deref (heap st) p)) = 1
    /\ e = Send (p_socket (deref (heap st) p)) message.
Proof.
  unfold broadcast, getOtherParticipants, getParticipants, getRoom.
  rewrite list_elem_of_omap. split.
  - intros (p & Hin & Hp).
    apply list_elem_of_In, filter_In in Hin as [Hin Hne].
    destruct (JsMap.get roomId (rooms st)) as [room|]; [|done].
    destruct (rs (p_socket (deref (heap st) p)) =? 1) eqn:Hopen; [|done].
    injection Hp as <-. exists room, p. split; [done|].
    split; [by apply list_elem_of_In|].
    split; [|split; [by apply Z.eqb_eq | done]].
    apply negb_true_iff in Hne. by apply String.eqb_neq in Hne.
  - intros (room & p & Hroom & Hin & Hne & Hopen & ->).
    exists p. rewrite Hroom. split.
    + apply list_elem_of_In, filter_In. split; [by apply list_elem_of_In|].
      apply negb_true_iff. by apply String.eqb_neq.
    + by rewrite Hopen.
Qed.

(** ** Eviction of abandoned rooms *)

Lemma filter_length_split {A : Type} (f : A -> bool) (l : list A) :
  (length (List.filter f l) + length (List.filter (fun x => negb (f x)) l) = length l)%nat.
Proof.
  induction l as [|x l IH]; simpl; [done|]. destruct (f x); simpl; lia.
Qed.

(** X2: [cleanupAbandonedRooms] keeps every room that has a participant
    and every empty room that is not older than its limit (the latent age
    for a pre-created room, [maxAgeMs] for an ad-hoc one), evicts every
    other room, and returns the number of rooms it evicted; the participant
    objects are not touched. *)
Theorem cleanupAbandonedRooms_evicts_exactly (maxAgeMs now : Z) (st : RoomManager) :
  let count := (cleanupAbandonedRooms maxAgeMs now st).1 in
  let st' := (cleanupAbandonedRooms maxAgeMs now st).2 in
  (forall kv : string * Room,
     kv ∈ rooms st' <->
     kv ∈ rooms st
     /\ (participants kv.2 <> []
         \/ now - createdAt kv.2
            <= (if isPreCreated kv.2 then latentRoomMaxAgeMs st else maxAgeMs)))
  /\ (count + length (rooms st') = length (rooms st))%nat
  /\ heap st' = heap st.
Proof.
  unfold cleanupAbandonedRooms. cbv zeta. cbn [fst snd].
  set (abandoned := fun room : Room =>
         (JsMap.size (participants room) =? 0)%nat
         && (now - createdAt room >?
             (if isPreCreated room then latentRoomMaxAgeMs st else maxAgeMs))).
  assert (forall s, rooms s = List.filter (fun kv => negb (abandoned kv.2)) (rooms st) ->
                    heap s = heap st ->
                    (forall kv : string * Room,
                       kv ∈ rooms s <->
                       kv ∈ rooms st
                       /\ (participants kv.2 <> []
                           \/ now - createdAt kv.2
                              <= (if isPreCreated kv.2 then latentRoomMaxAgeMs st
                                  else maxAgeMs)))
                    /\ (length (List.filter (fun kv => abandoned kv.2) (rooms st))
                        + length (rooms s) = length (rooms st))%nat
                    /\ heap s = heap st) as Hgen.
  { intros s Hrooms Hheap. rewrite Hrooms. split; [|split; [|done]].
    - intros kv. rewrite list_elem_of_In, filter_In, <- list_elem_of_In.
      assert (negb (abandoned kv.2) = true <->
              participants kv.2 <> []
              \/ now - createdAt kv.2
                 <= (if isPreCreated kv.2 then latentRoomMaxAgeMs st else maxAgeMs)) as ->.
      { unfold abandoned, JsMap.size. rewrite negb_true_iff, andb_false_iff.
        rewrite Nat.eqb_neq. rewrite Z.gtb_ltb, Z.ltb_ge.
        destruct (participants kv.2); simpl; split; intros [?|?]; auto; try lia. }
      done.
    - apply (filter_length_split (fun kv : string * Room => abandoned kv.2)). }
  destruct (existsb _ _); by apply Hgen.
Qed.

(** ** Pre-created rooms and creator tokens *)

Lemma set_absent {K V : Type} `{EqDecision K} (k : K) (v : V) (m : list (K * V)) :
  JsMap.get k m = None -> JsMap.set k v m = m ++ [(k, v)].
Proof.
  induction m as [|[k' v'] m IH]; simpl; [done|].
  destruct (decide (k = k')); [done|]. intros Hg. by rewrite IH.
Qed.

(** X3: [preCreateRoom] refuses, returning nothing and changing nothing,
    exactly when the number of latent rooms (pre-created, without
    participants) has reached [maxLatentRooms] or the id, given or
    generated, is taken. *)
Theorem preCreateRoom_refuses_iff (options : option PreCreateOptions)
    (generated token : string) (now : Z) (st : RoomManager) :
  let roomId := default generated (options ≫= o_roomId) in
  let res := preCreateRoom options generated token now st in
  (res.1 = None <->
   maxLatentRooms st <= getLatentRoomCount st \/ is_Some (getRoom roomId st))
  /\ (res.1 = None -> res.2 = st).
Proof.
  cbv zeta. unfold preCreateRoom, getRoom, JsMap.has.
  destruct (getLatentRoomCount st >=? maxLatentRooms st) eqn:Hcount.
  - split; [|done]. split; [|done]. intros _. left. lia.
  - destruct (JsMap.get _ (rooms st)) as [room|] eqn:Hroom.
    + split; [|done]. split; [|done]. intros _. right. by eexists.
    + split; [|done]. split; [done|]. intros [Hc|[? ?]]; [lia | done].
Qed.

(** X4: when [preCreateRoom] answers, it answers with the id and the token
    it was given, and the registry has under that id an empty, unlocked
    room without host, marked pre-created, with the configured password and
    capacity.  The token then validates for that room, provided it is not
    the empty string, and no other token does; there is one latent room
    more, and every other id is as before. *)
Theorem preCreateRoom_installs_latent_room (options : option PreCreateOptions)
    (generated token : string) (now : Z) (st : RoomManager) (answer : string * string) :
  (preCreateRoom options generated token now st).1 = Some answer ->
  let roomId := default generated (options ≫= o_roomId) in
  let st' := (preCreateRoom options generated token now st).2 in
  answer = (roomId, token)
  /\ getRoom roomId st'
     = Some (mkRoom roomId [] [] (options ≫= o_password) false None now
               (default defaultMaxParticipants (options ≫= o_maxParticipants))
               (Some token) true)
  /\ (token <> "" -> validateCreatorToken roomId token st' = true)
  /\ (forall other, other <> token -> validateCreatorToken roomId other st' = false)
  /\ getLatentRoomCount st' = getLatentRoomCount st + 1
  /\ (forall other, other <> roomId -> getRoom other st' = getRoom other st).
Proof.
  cbv zeta. unfold preCreateRoom, JsMap.has.
  destruct (getLatentRoomCount st >=? maxLatentRooms st); [done|].
  destruct (JsMap.get _ (rooms st)) as [room|] eqn:Hroom; [done|].
  cbn [fst snd]. intros [= <-]. split; [done|].
  unfold validateCreatorToken, getRoom, persistPreCreatedRooms. simpl.
  rewrite get_set_eq. simpl. repeat split.
  - intros Hne. apply String.eqb_neq in Hne. rewrite Hne. simpl.
    by apply bool_decide_eq_true.
  - intros other Hne. destruct (negb (negb (token =? ""))%string); [done|].
    apply bool_decide_eq_false. congruence.
  - unfold getLatentRoomCount. simpl. rewrite (set_absent _ _ _ Hroom).
    unfold JsMap.values. rewrite map_app, List.filter_app, length_app. simpl. lia.
  - intros other Hne. apply get_set_ne. congruence.
Qed.

Lemma preCreateRoom_installs_latent_room_witness :
  validateCreatorToken "PRE777" "tk-abc"
    (preCreateRoom (Some (mkPreCreateOptions (Some "PRE777") (Some "pw") None))
                   "gen" "tk-abc" 10 (newRoomManager None None)).2 = true.
Proof.
  destruct (preCreateRoom_installs_latent_room
              (Some (mkPreCreateOptions (Some "PRE777") (Some "pw") None))
              "gen" "tk-abc" 10 (newRoomManager None None) ("PRE777", "tk-abc") eq_refl)
    as (_ & _ & Hvalid & _).
  apply Hvalid. discriminate.
Defined.

(** ** The waiting room *)

(** X5: [addToWaitingRoom] refuses exactly when the registry has the room
    and its participants have reached [maxParticipants], and a refusal
    changes nothing.  Otherwise it accepts: for an id the registry does not
    have it first creates the room, empty, unlocked, without password and
    with the default capacity; the entry is then filed in the waiting map
    of the room under its own id (in the place of an entry that waits
    under that id, else after the entries that wait already), and nothing
    else changes: not the rest of the room, no other room and no
    participant object. *)
Theorem addToWaitingRoom_refuses_iff (roomId : string) (w : WaitingParticipant) (now : Z)
    (st : RoomManager) :
  let res := addToWaitingRoom roomId w now st in
  let before :=
    match getRoom roomId st with
    | Some room => room
    | None => mkRoom roomId [] [] None false None now defaultMaxParticipants None false
    end in
  (res.1 = false <->
   exists room, getRoom roomId st = Some room
                /\ maxParticipants room <= Z.of_nat (JsMap.size (participants room)))
  /\ (res.1 = false -> res.2 = st)
  /\ (res.1 = true ->
      getRoom roomId res.2
      = Some (set_waitingRoom (JsMap.set (w_id w) w (waitingRoom before)) before)
      /\ in_waitingRoom roomId (w_id w) res.2 = true
      /\ (forall other, other <> roomId -> getRoom other res.2 = getRoom other st)
      /\ heap res.2 = heap st).
Proof.
  cbv zeta. unfold addToWaitingRoom, getOrCreateRoom.
  destruct (getRoom roomId st) as [room|] eqn:Hroom.
  - destruct (Z.of_nat (JsMap.size (participants room)) >=? maxParticipants room) eqn:Hfull;
      cbn [fst snd].
    + split; [|done]. split; [|done]. intros _. exists room. split; [done | lia].
    + split; [split; [done | intros (room' & [= <-] & Hle); lia]|]. split; [done|].
      intros _. split; [by rewrite getRoom_update_room_eq, Hroom|].
      split; [|split; [|done]].
      * unfold in_waitingRoom. rewrite getRoom_update_room_eq, Hroom. simpl.
        unfold JsMap.has. by rewrite get_set_eq.
      * intros other Hne. unfold getRoom, update_room. simpl. by rewrite get_alter_ne.
  - simpl. split; [split; [done | by intros (room & ? & _)]|]. split; [done|].
    intros _. unfold getRoom. simpl. rewrite alter_set. simpl.
    split; [by rewrite get_set_eq|]. split; [|split; [|done]].
    + unfold in_waitingRoom. rewrite getRoom_update_room_eq. unfold getRoom. simpl.
      rewrite get_set_eq. simpl. unfold JsMap.has. simpl.
      by destruct (decide (w_id w = w_id w)).
    + intros other Hne. by rewrite get_set_ne.
Qed.

(** X6: an entry that [addToWaitingRoom] accepted is in the waiting map
    under its own id; [admitFromWaitingRoom] returns that very entry and
    takes it out, after which neither [admitFromWaitingRoom] nor
    [rejectFromWaitingRoom] finds it again.  The admission moves nobody into
    a participants map. *)
Theorem waiting_room_round_trip (roomId : string) (w : WaitingParticipant) (now : Z)
    (st : RoomManager) :
  (addToWaitingRoom roomId w now st).1 = true ->
  let st1 := (addToWaitingRoom roomId w now st).2 in
  let res := admitFromWaitingRoom roomId (w_id w) st1 in
  in_waitingRoom roomId (w_id w) st1 = true
  /\ res.1 = Some w
  /\ in_waitingRoom roomId (w_id w) res.2 = false
  /\ (admitFromWaitingRoom roomId (w_id w) res.2).1 = None
  /\ (rejectFromWaitingRoom roomId (w_id w) res.2).1 = None
  /\ (forall other, participants <$> getRoom other res.2 = participants <$> getRoom other st1).
Proof.
  unfold addToWaitingRoom.
  destruct (getOrCreateRoom_cases roomId None now st) as (Hroom & _ & _).
  destruct (getOrCreateRoom roomId None now st) as [room st0]. simpl in Hroom.
  destruct (Z.of_nat (JsMap.size (participants room)) >=? maxParticipants room);
    cbn [fst snd]; [done|]. intros _. cbv zeta.
  set (st1 := update_room roomId _ st0).
  assert (getRoom roomId st1
          = Some (set_waitingRoom (JsMap.set (w_id w) w (waitingRoom room)) room)) as Hroom1.
  { unfold st1. by rewrite getRoom_update_room_eq, Hroom. }
  unfold in_waitingRoom, admitFromWaitingRoom, rejectFromWaitingRoom.
  unfold getRoom in Hroom1 |- *. rewrite Hroom1. simpl.
  unfold JsMap.has. rewrite get_set_eq. simpl.
  unfold getRoom in Hroom. rewrite !get_alter_eq, Hroom. simpl. rewrite get_delete_eq.
  repeat split; try done.
  intros other. destruct (decide (roomId = other)) as [<-|Hne].
  - by rewrite !get_alter_eq, Hroom.
  - by rewrite get_alter_ne.
Qed.

Lemma waiting_room_round_trip_witness :
  (admitFromWaitingRoom "room" "p3"
     (addToWaitingRoom "room" carol_waiting 170 one_room).2).1 = Some carol_waiting.
Proof.
  by destruct (waiting_room_round_trip "room" carol_waiting 170 one_room eq_refl)
    as (_ & Hadmit & _).
Defined.

(** ** Leaving a room *)

Lemma removeParticipant_room (roomId participantId : string) (st : RoomManager)
    (room : Room) :
  getRoom roomId st = Some room ->
  let remaining := JsMap.delete participantId (participants room) in
  let promoted :=
    bool_decide (hostId room = Some participantId) && (0 <? JsMap.size remaining)%nat in
  let st2 :=
    if promoted then
      match JsMap.first_value remaining with
      | Some newHost =>
          mutate newHost (set_isModerator true)
            (update_room roomId
               (fun r => set_hostId (Some (p_id (deref (heap st) newHost)))
                           (set_participants remaining r)) st)
      | None => update_room roomId (set_participants remaining) st
      end
    else update_room roomId (set_participants remaining) st in
  removeParticipant roomId participantId st
  = if (JsMap.size remaining =? 0)%nat && negb (isPreCreated room)
    then set_rooms (JsMap.delete roomId (rooms st2)) st2 else st2.
Proof.
  intros Hroom. unfold removeParticipant. unfold getRoom in Hroom. rewrite Hroom.
  cbv zeta. destruct (bool_decide _ && _); [|done].
  destruct (JsMap.first_value _); [|done].
  by rewrite update_room_twice.
Qed.

(** X7: after [removeParticipant] the id is not in the participants of
    the room.  An ad-hoc room whose last participant this was is gone from
    the registry, its waiting entries with it; any other room stays, with
    the remaining participants in their order and its waiting map, lock and
    password as they were.  Rooms under other ids are not touched. *)
Theorem removeParticipant_effect (roomId participantId : string) (st : RoomManager)
    (room : Room) :
  getRoom roomId st = Some room ->
  let st' := removeParticipant roomId participantId st in
  let remaining := JsMap.delete participantId (participants room) in
  in_participants roomId participantId st' = false
  /\ (remaining = [] -> isPreCreated room = false -> getRoom roomId st' = None)
  /\ (remaining <> [] \/ isPreCreated room = true ->
      exists room', getRoom roomId st' = Some room'
                    /\ participants room' = remaining
                    /\ waitingRoom room' = waitingRoom room
                    /\ isLocked room' = isLocked room
                    /\ password room' = password room
                    /\ maxParticipants room' = maxParticipants room)
  /\ (forall other, other <> roomId -> getRoom other st' = getRoom other st).
Proof.
  intros Hroom. cbv zeta. rewrite (removeParticipant_room _ _ _ _ Hroom). cbv zeta.
  set (remaining := JsMap.delete participantId (participants room)).
  match goal with
  | |- context [if _ then set_rooms (JsMap.delete _ (rooms ?s)) ?s else ?s] =>
      set (st2 := s)
  end.
  assert (exists h, getRoom roomId st2 = Some (set_hostId h (set_participants remaining room)))
    as [h Hroom2].
  { unfold st2. destruct (bool_decide _ && _).
    - destruct (JsMap.first_value remaining).
      + rewrite getRoom_mutate, getRoom_update_room_eq, Hroom. by eexists.
      + rewrite getRoom_update_room_eq, Hroom. by exists (hostId room).
    - rewrite getRoom_update_room_eq, Hroom. by exists (hostId room). }
  assert (forall other, other <> roomId -> getRoom other st2 = getRoom other st) as Hother.
  { intros other Hne. unfold st2.
    destruct (bool_decide _ && _); [destruct (JsMap.first_value remaining)|];
      rewrite ?getRoom_mutate; unfold getRoom, update_room; simpl;
      by rewrite get_alter_ne. }
  unfold in_participants.
  destruct ((JsMap.size remaining =? 0)%nat && negb (isPreCreated room)) eqn:Hdel.
  - apply andb_true_iff in Hdel as [Hsize Hadhoc].
    apply Nat.eqb_eq in Hsize. apply negb_true_iff in Hadhoc.
    unfold getRoom. simpl. rewrite get_delete_eq.
    split; [done|]. split; [done|]. split.
    + intros [Hne|Hpre]; [|congruence]. destruct remaining; [done | discriminate Hsize].
    + intros other Hne. rewrite get_delete_ne by done. by apply Hother.
  - rewrite Hroom2. simpl. unfold JsMap.has. subst remaining. rewrite get_delete_eq.
    split; [done|]. split.
    + intros Hnil Hadhoc. rewrite Hnil, Hadhoc in Hdel. discriminate Hdel.
    + split; [|done]. intros _. by eexists.
Qed.

Lemma removeParticipant_effect_witness :
  getRoom "room" (removeParticipant "room" "p1" one_room) = None.
Proof.
  edestruct (removeParticipant_effect "room" "p1" one_room) as (_ & Hgone & _);
    [vm_compute; reflexivity|].
  apply Hgone; reflexivity.
Defined.

(** X8: when the host leaves and participants remain, the one who joined
    first among them becomes host: [hostId] is its id, it is made a
    moderator, and no other participant object changes.  When somebody
    other than the host leaves, the host and all participant objects stay
    as they are. *)
Theorem removeParticipant_host_transfer (roomId participantId : string)
    (st : RoomManager) (room : Room) :
  getRoom roomId st = Some room ->
  let st' := removeParticipant roomId participantId st in
  (hostId room = Some participantId ->
   forall k newHost rest,
     JsMap.delete participantId (participants room) = (k, newHost) :: rest ->
     (newHost < length (heap st))%nat ->
     hostId <$> getRoom roomId st' = Some (Some (p_id (deref (heap st) newHost)))
     /\ deref (heap st') newHost = set_isModerator true (deref (heap st) newHost)
     /\ forall r, r <> newHost -> deref (heap st') r = deref (heap st) r)
  /\ (hostId room <> Some participantId ->
      heap st' = heap st
      /\ forall room', getRoom roomId st' = Some room' -> hostId room' = hostId room).
Proof.
  intros Hroom. cbv zeta. rewrite (removeParticipant_room _ _ _ _ Hroom). cbv zeta.
  split.
  - intros Hhost k newHost rest Hrem Hlt. rewrite Hrem.
    rewrite bool_decide_eq_true_2 by done. simpl.
    unfold getRoom. simpl. rewrite get_alter_eq.
    unfold getRoom in Hroom. rewrite Hroom. simpl.
    split; [done|]. split; [by rewrite deref_insert_eq|].
    intros r Hne. by rewrite deref_insert_ne.
  - intros Hhost. rewrite bool_decide_eq_false_2 by done. simpl.
    split; [by destruct (_ && _)|].
    intros room'. destruct (_ && _).
    + unfold getRoom. simpl. by rewrite get_delete_eq.
    + rewrite getRoom_update_room_eq, Hroom. simpl. by intros [= <-].
Qed.

Lemma removeParticipant_host_transfer_witness :
  let st := run all_open [(200, OpAddParticipant "room" bob false)] one_room in
  hostId <$> getRoom "room" (removeParticipant "room" "p1" st) = Some (Some "p2")
  /\ isModerator (deref (heap (removeParticipant "room" "p1" st)) 1%nat) = true.
Proof.
  cbv zeta.
  edestruct (removeParticipant_host_transfer "room" "p1"
               (run all_open [(200, OpAddParticipant "room" bob false)] one_room))
    as [Hpromote _]; [vm_compute; reflexivity|].
  destruct (Hpromote eq_refl "p2" 1%nat [] eq_refl) as (Hhost & Hmod & _);
    [vm_compute; lia|].
  split; [exact Hhost|]. rewrite Hmod. reflexivity.
Defined.

(** ** Participant statistics *)

Lemma fold_left_sizes (l : list Room) (a : nat) :
  fold_left (fun count (room : Room) => (count + JsMap.size (participants room))%nat) l a
  = (a + sum_list_with (fun room : Room => JsMap.size (participants room)) l)%nat.
Proof.
  revert a. induction l as [|r l IH]; intros a; simpl; [lia|]. rewrite IH. lia.
Qed.

Lemma getTotalParticipants_sum (st : RoomManager) :
  getTotalParticipants st
  = sum_list_with (fun kv : string * Room => JsMap.size (participants kv.2)) (rooms st).
Proof.
  unfold getTotalParticipants, JsMap.values. rewrite fold_left_sizes. simpl.
  induction (rooms st) as [|kv l IH]; simpl; [done|]. by rewrite IH.
Qed.

Lemma sum_sizes_set (k : string) (v : Room) (m : list (string * Room)) :
  (sum_list_with (fun kv : string * Room => JsMap.size (participants kv.2)) (JsMap.set k v m)
   <= sum_list_with (fun kv : string * Room => JsMap.size (participants kv.2)) m
      + JsMap.size (participants v))%nat.
Proof.
  induction m as [|[k' v'] m IH]; simpl; [lia|].
  destruct (decide (k = k')); simpl; lia.
Qed.

Lemma sum_sizes_alter (f : Room -> Room) (k : string) (m : list (string * Room)) :
  (forall r, (JsMap.size (participants (f r)) <= JsMap.size (participants r))%nat) ->
  (sum_list_with (fun kv : string * Room => JsMap.size (participants kv.2)) (JsMap.alter f k m)
   <= sum_list_with (fun kv : string * Room => JsMap.size (participants kv.2)) m)%nat.
Proof.
  intros Hf. unfold JsMap.alter. destruct (JsMap.get k m) as [v|] eqn:Hg; [|done].
  specialize (Hf v). revert Hg.
  induction m as [|[k' v'] m IH]; simpl; [done|].
  destruct (decide (k = k')) as [->|Hne]; simpl.
  - intros [= ->]. lia.
  - intros Hg. specialize (IH Hg). lia.
Qed.

Lemma sum_sizes_delete (k : string) (m : list (string * Room)) :
  (sum_list_with (fun kv : string * Room => JsMap.size (participants kv.2)) (JsMap.delete k m)
   <= sum_list_with (fun kv : string * Room => JsMap.size (participants kv.2)) m)%nat.
Proof.
  induction m as [|[k' v'] m IH]; simpl; [lia|].
  destruct (decide (k = k')); simpl; lia.
Qed.

Lemma sum_sizes_filter (f : string * Room -> bool) (m : list (string * Room)) :
  (sum_list_with (fun kv : string * Room => JsMap.size (participants kv.2)) (List.filter f m)
   <= sum_list_with (fun kv : string * Room => JsMap.size (participants kv.2)) m)%nat.
Proof.
  induction m as [|kv m IH]; simpl; [lia|]. destruct (f kv); simpl; lia.
Qed.

(** The state [st'] has no more participants than [st] and the same
    recorded peak. *)
Lemma PeakCovers_shrink (st st' : RoomManager) :
  (getTotalParticipants st' <= getTotalParticipants st)%nat ->
  peakParticipants st' = peakParticipants st ->
  PeakCovers st -> PeakCovers st' /\ (peakParticipants st <= peakParticipants st')%nat.
Proof. unfold PeakCovers. intros Htotal ->. lia. Qed.

Lemma total_update_room (roomId : string) (f : Room -> Room) (st : RoomManager) :
  (forall r, (JsMap.size (participants (f r)) <= JsMap.size (participants r))%nat) ->
  (getTotalParticipants (update_room roomId f st) <= getTotalParticipants st)%nat.
Proof. intros Hf. rewrite !getTotalParticipants_sum. simpl. by apply sum_sizes_alter. Qed.

Lemma total_getOrCreateRoom (roomId : string) (config : option RoomConfig) (now : Z)
    (st : RoomManager) :
  (getTotalParticipants (getOrCreateRoom roomId config now st).2
   <= getTotalParticipants st)%nat
  /\ peakParticipants (getOrCreateRoom roomId config now st).2 = peakParticipants st.
Proof.
  unfold getOrCreateRoom. destruct (getRoom roomId st); [done|].
  split; [|done]. rewrite !getTotalParticipants_sum. simpl.
  etrans; [apply sum_sizes_set|]. simpl. lia.
Qed.

Lemma total_removeParticipant (roomId participantId : string) (st : RoomManager) :
  (getTotalParticipants (removeParticipant roomId participantId st)
   <= getTotalParticipants st)%nat
  /\ peakParticipants (removeParticipant roomId participantId st) = peakParticipants st.
Proof.
  destruct (getRoom roomId st) as [room|] eqn:Hroom.
  - rewrite (removeParticipant_room _ _ _ _ Hroom). cbv zeta.
    set (remaining := JsMap.delete participantId (participants room)).
    assert (forall g : Room -> Room,
              (forall r, participants (g r) = remaining) ->
              (getTotalParticipants (update_room roomId g st)
               <= getTotalParticipants st)%nat) as Hupd.
    { intros g Hg. rewrite !getTotalParticipants_sum. simpl.
      unfold JsMap.alter. unfold getRoom in Hroom. rewrite Hroom.
      clear -Hroom Hg. revert Hroom.
      induction (rooms st) as [|[k' v'] m IH]; simpl; [done|].
      destruct (decide (roomId = k')) as [->|Hne]; simpl.
      - intros [= ->]. rewrite Hg. unfold JsMap.size.
        pose proof (length_delete_le participantId (participants room)) as Hle.
        fold remaining in Hle. lia.
      - intros Hget. specialize (IH Hget). lia. }
    match goal with
    | |- context [if _ then set_rooms (JsMap.delete _ (rooms ?s)) ?s else ?s] =>
        set (st2 := s)
    end.
    assert ((getTotalParticipants st2 <= getTotalParticipants st)%nat
            /\ peakParticipants st2 = peakParticipants st) as [Htotal Hpeak].
    { unfold st2. destruct (bool_decide _ && _); [destruct (JsMap.first_value remaining)|].
      - split; [|done]. by apply (Hupd (fun r => set_hostId _ (set_participants remaining r))).
      - split; [|done]. by apply Hupd.
      - split; [|done]. by apply Hupd. }
    destruct ((JsMap.size remaining =? 0)%nat && negb (isPreCreated room)); [|done].
    split; [|done].
    etrans; [|exact Htotal]. rewrite !getTotalParticipants_sum. simpl.
    apply sum_sizes_delete.
  - unfold removeParticipant. unfold getRoom in Hroom. by rewrite Hroom.
Qed.

Lemma Peak_addParticipant (roomId : string) (participant : Ref) (isHost : bool) (now : Z)
    (st : RoomManager) :
  PeakCovers st ->
  PeakCovers (addParticipant roomId participant isHost now st).2
  /\ (peakParticipants st <= peakParticipants (addParticipant roomId participant isHost now st).2)%nat.
Proof.
  intros Hpeak. unfold addParticipant.
  destruct (total_getOrCreateRoom roomId None now st) as [Htotal Hsame].
  destruct (getOrCreateRoom roomId None now st) as [room st1]. simpl in Htotal, Hsame.
  destruct (Z.of_nat (JsMap.size (participants room)) >=? maxParticipants room);
    cbv beta iota zeta; cbn [snd].
  - by apply PeakCovers_shrink.
  - match goal with
    | |- context [if _ then set_peakParticipants _ ?s else ?s] => set (st3 := s)
    end.
    assert (peakParticipants st3 = peakParticipants st) as Hpeak3.
    { unfold st3. by destruct (_ || _). }
    destruct (peakParticipants st3 <? getTotalParticipants st3)%nat eqn:Hlt.
    + apply Nat.ltb_lt in Hlt. unfold PeakCovers. simpl.
      change (getTotalParticipants (set_peakParticipants (getTotalParticipants st3) st3))
        with (getTotalParticipants st3). lia.
    + apply Nat.ltb_ge in Hlt. unfold PeakCovers. lia.
Qed.

Lemma Peak_same (st : RoomManager) :
  PeakCovers st -> PeakCovers st /\ (peakParticipants st <= peakParticipants st)%nat.
Proof. intros Hpeak. split; [done | lia]. Qed.

Lemma Peak_step (rs : Socket -> Z) (now : Z) (op : Op) (st : RoomManager) :
  PeakCovers st ->
  PeakCovers (step rs now op st)
  /\ (peakParticipants st <= peakParticipants (step rs now op st))%nat.
Proof.
  intros Hpeak. destruct op; unfold step.
  - apply PeakCovers_shrink; [|done|done].
    rewrite !getTotalParticipants_sum. simpl. etrans; [apply sum_sizes_set|]. simpl. lia.
  - unfold preCreateRoom.
    destruct (getLatentRoomCount st >=? maxLatentRooms st); [cbn [fst snd]; by apply Peak_same|].
    destruct (JsMap.has _ _); [cbn [fst snd]; by apply Peak_same|]. cbn [snd].
    apply PeakCovers_shrink; [|done|done].
    rewrite !getTotalParticipants_sum. simpl. etrans; [apply sum_sizes_set|]. simpl. lia.
  - destruct (total_getOrCreateRoom roomId config now st). by apply PeakCovers_shrink.
  - unfold addToWaitingRoom.
    destruct (total_getOrCreateRoom roomId None now st) as [Htotal Hsame].
    destruct (getOrCreateRoom roomId None now st) as [room st1]. simpl in Htotal, Hsame.
    destruct (_ >=? _); cbn [snd]; [by apply PeakCovers_shrink|].
    apply PeakCovers_shrink; [|done|done].
    etrans; [|exact Htotal]. by apply total_update_room.
  - unfold admitFromWaitingRoom.
    destruct (JsMap.get roomId (rooms st)) as [room|]; [|cbn [fst snd]; by apply Peak_same].
    destruct (JsMap.get participantId (waitingRoom room)); [|cbn [fst snd]; by apply Peak_same].
    cbn [snd]. apply PeakCovers_shrink; [|done|done]. by apply total_update_room.
  - unfold rejectFromWaitingRoom.
    destruct (JsMap.get roomId (rooms st)) as [room|]; [|cbn [fst snd]; by apply Peak_same].
    destruct (JsMap.get participantId (waitingRoom room)); [|cbn [fst snd]; by apply Peak_same].
    cbn [snd]. apply PeakCovers_shrink; [|done|done]. by apply total_update_room.
  - unfold alloc.
    apply (Peak_addParticipant roomId (length (heap st)) isHost now
             (set_heap (heap st ++ [participant]) st)).
    exact Hpeak.
  - destruct (total_removeParticipant roomId participantId st). by apply PeakCovers_shrink.
  - unfold updateParticipant.
    destruct (JsMap.get roomId (rooms st)) as [room|]; [|cbn [fst snd]; by apply Peak_same].
    destruct (JsMap.get participantId (participants room)) as [ref|]; [|by apply Peak_same].
    exact (Peak_same (mutate ref (fun p => assign p updates) st) Hpeak).
  - apply PeakCovers_shrink; [|done|done]. by apply total_update_room.
  - apply PeakCovers_shrink; [|done|done]. by apply total_update_room.
  - unfold kickParticipant.
    destruct (JsMap.get roomId (rooms st)) as [room|]; [|cbn [fst snd]; by apply Peak_same].
    destruct (JsMap.get participantId (participants room));
      [|cbn [fst snd]; by apply Peak_same].
    cbn [fst snd]. destruct (total_removeParticipant roomId participantId st).
    by apply PeakCovers_shrink.
  - unfold cleanupAbandonedRooms. cbv zeta. cbn [snd].
    apply PeakCovers_shrink; [| by destruct (existsb _ _) | done].
    destruct (existsb _ _); rewrite !getTotalParticipants_sum; simpl; apply sum_sizes_filter.
Qed.

(** X9: the peak that [getStats] reports never falls and, from a state in
    which it covers the participants present (the new registry is one),
    covers them after every registry call: [peakParticipants] is at least
    [totalParticipants]. *)
Theorem peak_covers_total (rs : Socket -> Z) (calls : list (Z * Op)) (st : RoomManager) :
  PeakCovers st ->
  (getTotalParticipants (run rs calls st) <= peakParticipants (run rs calls st))%nat
  /\ (peakParticipants st <= peakParticipants (run rs calls st))%nat.
Proof.
  revert st. induction calls as [|[now op] rest IH]; intros st Hpeak; simpl.
  - unfold PeakCovers in Hpeak. lia.
  - destruct (Peak_step rs now op st Hpeak) as [Hpeak1 Hmono].
    destruct (IH _ Hpeak1). lia.
Qed.

Lemma peak_covers_total_witness :
  (getTotalParticipants (run all_open small_room_session (newRoomManager None None))
   <= peakParticipants (run all_open small_room_session (newRoomManager None None)))%nat.
Proof.
  apply (peak_covers_total all_open small_room_session (newRoomManager None None)).
  unfold PeakCovers. vm_compute. lia.
Defined.

(** * Further properties of the dispatcher *)

(** ** Authorization *)

(** X10: a participant who is not a moderator cannot lock or unlock the
    room, admit or reject a waiting joiner, or act on another participant:
    on an open socket each of these frames is answered with the
    moderators-only error of its handler and changes no state. *)
Theorem moderator_frames_need_moderator (rs : Socket -> Z) (socket : Socket)
    (message : Msg) (uuid : string) (now : Z) (ss : SignalingServer) (participant : Ref) :
  s_participants ss !! socket = Some participant ->
  isModerator (deref (heap (roomManager ss)) participant) = false ->
  rs socket = 1 ->
  let res := handleMessage rs socket (Json message) uuid now ss in
  let refused text := res = (ss, [Send socket (errorMessage text None now)]) in
  match m_type message with
  | T_room_locked => refused "Only moderators can lock the room"
  | T_room_unlocked => refused "Only moderators can unlock the room"
  | T_admit_user => refused "Only moderators can admit users"
  | T_reject_user => refused "Only moderators can reject users"
  | T_moderator_action => refused "Only moderators can perform this action"
  | _ => True
  end.
Proof.
  intros Hbound Hmod Hopen. cbv zeta.
  unfold handleMessage, handleModeratorAction, handleRoomLock, handleRoomUnlock,
    handleAdmitUser, handleRejectUser, boundModerator, sendError.
  destruct (m_type message); try done; by rewrite Hbound, Hmod, Hopen.
Qed.

Lemma moderator_frames_need_moderator_witness :
  handleMessage all_open 2%nat (Json (baseMsg T_room_locked "ABC123" "" 0)) "" 9 two_peers
  = (two_peers, [Send 2%nat (errorMessage "Only moderators can lock the room" None 9)]).
Proof.
  assert (s_participants two_peers !! 2%nat = Some 1%nat) as Hbound
    by (vm_compute; reflexivity).
  assert (isModerator (deref (heap (roomManager two_peers)) 1%nat) = false) as Hmod
    by (vm_compute; reflexivity).
  exact (moderator_frames_need_moderator all_open 2%nat
           (baseMsg T_room_locked "ABC123" "" 0) "" 9 two_peers 1%nat Hbound Hmod eq_refl).
Defined.

(** ** Disconnect *)

(** X11: after the disconnect path has run for a socket, the socket is not
    bound to a participant, and running the path again (a [leave] followed
    by the [close] of the socket) sends nothing; when the socket was not
    bound to a waiting participant either, the second run changes
    nothing. *)
Theorem disconnect_twice_is_silent (rs rs' : Socket -> Z) (socket : Socket) (now now' : Z)
    (ss : SignalingServer) :
  let ss1 := (handleDisconnect rs socket now ss).1 in
  s_participants ss1 !! socket = None
  /\ (handleDisconnect rs' socket now' ss1).2 = []
  /\ (s_waitingParticipants ss !! socket = None ->
      handleDisconnect rs' socket now' ss1 = (ss1, [])).
Proof.
  cbv zeta.
  assert (s_participants (handleDisconnect rs socket now ss).1 !! socket = None) as Hgone.
  { unfold handleDisconnect. cbv zeta.
    destruct (s_participants ss !! socket) eqn:Hp; cbn [fst s_participants].
    - apply lookup_delete_eq.
    - by destruct (s_waitingParticipants ss !! socket). }
  split; [done|]. split.
  - unfold handleDisconnect at 1. cbv zeta. rewrite Hgone.
    by destruct (s_waitingParticipants _ !! socket).
  - intros Hw. unfold handleDisconnect at 1. cbv zeta. rewrite Hgone.
    assert (s_waitingParticipants (handleDisconnect rs socket now ss).1 !! socket = None)
      as ->; [|done].
    unfold handleDisconnect. cbv zeta.
    destruct (s_participants ss !! socket); cbn [fst s_waitingParticipants]; [done|].
    by rewrite Hw.
Qed.

(** ** Join: the password gate *)

Lemma validatePassword_false_iff (roomId : string) (candidate : option string)
    (st : RoomManager) :
  validatePassword roomId candidate st = false <->
  exists room, getRoom roomId st = Some room
               /\ truthy (password room) = true /\ password room <> candidate.
Proof.
  unfold validatePassword, getRoom.
  destruct (JsMap.get roomId (rooms st)) as [room|].
  - destruct (truthy (password room)) eqn:Hpw; simpl.
    + rewrite bool_decide_eq_false. split.
      * intros Hne. by exists room.
      * by intros (room' & [= <-] & _ & Hne).
    + split; [done|]. intros (room' & [= <-] & Hpw' & _). congruence.
  - split; [done|]. by intros (room & ? & _).
Qed.

(** X12: on an open socket, a join is answered with the [INVALID_PASSWORD]
    error exactly when the registry has the room, the room stores a
    password, and the password of the message is not that password (or is
    missing); the error is then the only effect, and nothing changes: the
    joiner is neither bound nor put in any map. *)
Theorem join_invalid_password_iff (rs : Socket -> Z) (socket : Socket) (message : Msg)
    (participantId : string) (now : Z) (ss : SignalingServer) :
  rs socket = 1 ->
  let res := handleJoin rs socket message participantId now ss in
  (rejects_with "INVALID_PASSWORD" res.2 = true <->
   exists room, getRoom (m_roomId message) (roomManager ss) = Some room
                /\ truthy (password room) = true
                /\ password room <> m_password message)
  /\ (validatePassword (m_roomId message) (m_password message) (roomManager ss) = false ->
      res = (ss, [Send socket
                    (errorMessage "Invalid room password" (Some "INVALID_PASSWORD") now)])).
Proof.
  intros Hopen res. subst res. rewrite <- validatePassword_false_iff.
  unfold handleJoin. cbv zeta.
  destruct (validatePassword (m_roomId message) (m_password message) (roomManager ss))
    eqn:Hvalid.
  - split; [|done].
    destruct (getRoom (m_roomId message) (roomManager ss)) as [room|] eqn:Hroom;
      destruct (default false (m_isHost message)) eqn:Hhost.
    all: cbn [negb andb orb].
    all: repeat case_match.
    all: cbn [fst snd].
    all: rewrite ?rejects_with_cons, ?rejects_with_app, ?rejects_with_sendError,
           ?rejects_with_broadcast by done.
    all: rewrite ?rejects_with_map by (intros; reflexivity).
    all: rewrite ?rejects_with_omap
           by (intros x e; case_match; [by intros [= <-] | done]).
    all: done.
  - assert (is_Some (getRoom (m_roomId message) (roomManager ss))) as [room Hroom].
    { apply validatePassword_false_iff in Hvalid as (room & Hroom & _). by eexists. }
    rewrite Hroom. rewrite andb_false_r. cbn [negb andb].
    rewrite bool_decide_eq_true_2 by (by eexists). cbn [andb].
    unfold sendError. rewrite Hopen. simpl. done.
Qed.

Lemma join_invalid_password_iff_witness :
  let ss := (handleMessage all_open 1%nat
               (Json (mkMsg T_join "SEC999" "" 0 (Some "Ann") (Some "hunter2") (Some true)
                            None None None None None None None None None None None None ""))
               "P1" 1 empty_server).1 in
  let eve := mkMsg T_join "SEC999" "" 0 (Some "Eve") (Some "wrong") None
                   None None None None None None None None None None None None "" in
  handleJoin all_open 3%nat eve "P3" 5 ss
  = (ss, [Send 3%nat (errorMessage "Invalid room password" (Some "INVALID_PASSWORD") 5)]).
Proof.
  cbv zeta.
  apply (join_invalid_password_iff all_open 3%nat _ "P3" 5 _ eq_refl).
  vm_compute. reflexivity.
Defined.

(** ** Join: the lock gate *)

(** X13: a join into a locked room, with the right password but without a
    creator token that validates, binds no participant: the socket table of
    participants, every participants map and every participant object stay
    as they are.  If the room is full the joiner is told so; otherwise it
    is bound as a waiting participant and filed in the waiting map under
    the minted id, it is sent the [waiting-room] envelope first, and every
    further envelope is that same notice, sent to a moderator of the
    room. *)
Theorem join_locked_room_waits (rs : Socket -> Z) (socket : Socket) (message : Msg)
    (participantId : string) (now : Z) (ss : SignalingServer) (room : Room) :
  let rm := roomManager ss in
  let roomId := m_roomId message in
  getRoom roomId rm = Some room ->
  isLocked room = true ->
  validatePassword roomId (m_password message) rm = true ->
  truthy (m_creatorToken message)
  && validateCreatorToken roomId (default "" (m_creatorToken message)) rm = false ->
  let res := handleJoin rs socket message participantId now ss in
  let notice := waitingRoomMsg roomId participantId (m_name message) now in
  s_participants res.1 = s_participants ss
  /\ heap (roomManager res.1) = heap rm
  /\ (forall other, participants <$> getRoom other (roomManager res.1)
                    = participants <$> getRoom other rm)
  /\ if Z.of_nat (JsMap.size (participants room)) >=? maxParticipants room
     then res.2 = sendError rs socket "Room is full" None now
          /\ s_waitingParticipants res.1 = s_waitingParticipants ss
     else s_waitingParticipants res.1 !! socket
          = Some (mkWaitingParticipant participantId (default "" (m_name message)) socket now)
          /\ in_waitingRoom roomId participantId (roomManager res.1) = true
          /\ head res.2 = Some (Send socket notice)
          /\ forall e, e ∈ tail res.2 ->
               exists p, p ∈ JsMap.values (participants room)
                         /\ isModerator (deref (heap rm) p) = true
                         /\ e = Send (p_socket (deref (heap rm) p)) notice.
Proof.
  intros rm roomId Hroom Hlocked Hvalid Hcreator res notice. subst res.
  unfold handleJoin. cbv zeta. fold rm roomId.
  rewrite Hroom, Hvalid, Hcreator.
  rewrite (bool_decide_eq_true_2 (is_Some (Some room))) by (by eexists).
  rewrite andb_false_r. cbn [negb andb].
  assert (isRoomLocked roomId rm = true) as ->.
  { unfold isRoomLocked. unfold getRoom in Hroom. by rewrite Hroom. }
  cbn [andb]. unfold addToWaitingRoom, getOrCreateRoom. rewrite Hroom.
  destruct (Z.of_nat (JsMap.size (participants room)) >=? maxParticipants room).
  - cbn [fst snd roomManager s_participants s_waitingParticipants set_roomManager].
    done.
  - cbn [fst snd roomManager s_participants s_waitingParticipants].
    split; [done|]. split; [done|]. split.
    { intros other. destruct (decide (roomId = other)) as [<-|Hne].
      - by rewrite getRoom_update_room_eq, Hroom.
      - unfold getRoom, update_room. simpl. by rewrite get_alter_ne. }
    split; [apply lookup_insert_eq|]. split.
    { unfold in_waitingRoom. rewrite getRoom_update_room_eq, Hroom. simpl.
      unfold JsMap.has. by rewrite get_set_eq. }
    split; [done|]. simpl. intros e He.
    apply list_elem_of_omap in He as (p & Hin & Hp).
    unfold getParticipants in Hin. fold (getRoom roomId (update_room roomId
      (fun r => set_waitingRoom
                  (JsMap.set participantId
                     (mkWaitingParticipant participantId (default "" (m_name message))
                        socket now) (waitingRoom r)) r) rm)) in Hin.
    rewrite getRoom_update_room_eq, Hroom in Hin. simpl in Hin.
    destruct (isModerator (deref (heap rm) p)) eqn:Hmod; [|done].
    destruct (rs (p_socket (deref (heap rm) p)) =? 1); [|done].
    injection Hp as <-. by exists p.
Qed.

Lemma join_locked_room_waits_witness :
  let ss := (serve all_open
               [(1%nat, Json (joinMsg "ROOM" "Mia" (Some true)), "M", 1);
                (1%nat, Json (baseMsg T_room_locked "ROOM" "" 0), "", 2)]
               empty_server).1 in
  let res := handleJoin all_open 11%nat (joinMsg "ROOM" "Ann" None) "W1" 11 ss in
  s_participants res.1 = s_participants ss
  /\ in_participants "ROOM" "W1" (roomManager res.1) = false
  /\ in_waitingRoom "ROOM" "W1" (roomManager res.1) = true.
Proof.
  cbv zeta.
  edestruct (join_locked_room_waits all_open 11%nat (joinMsg "ROOM" "Ann" None) "W1" 11
               (serve all_open
                  [(1%nat, Json (joinMsg "ROOM" "Mia" (Some true)), "M", 1);
                   (1%nat, Json (baseMsg T_room_locked "ROOM" "" 0), "", 2)]
                  empty_server).1)
    as (Hbound & _ & Hrooms & Hrest);
    [vm_compute; reflexivity | reflexivity | vm_compute; reflexivity
     | vm_compute; reflexivity |].
  split; [exact Hbound|]. split; [vm_compute; reflexivity|].
  vm_compute in Hrest. vm_compute. reflexivity.
Defined.

(** ** Frames a participant sends about itself *)

Lemma mutate_same_standing (r : Ref) (f : Participant -> Participant) (st : RoomManager) :
  (forall p, same_standing p (f p)) ->
  length (heap (mutate r f st)) = length (heap st)
  /\ forall r', same_standing (deref (heap st) r') (deref (heap (mutate r f st)) r')
                /\ (r' <> r -> deref (heap (mutate r f st)) r' = deref (heap st) r').
Proof.
  intros Hf. unfold mutate. simpl. split; [apply length_insert|].
  intros r'. destruct (decide (r = r')) as [<-|Hne].
  - split; [|done]. destruct (decide (r < length (heap st))%nat) as [Hlt|Hge].
    + rewrite deref_insert_eq by done. apply Hf.
    + rewrite list_insert_ge by lia. done.
  - rewrite deref_insert_ne by done. split; [done|]. done.
Qed.

(** X14: a [participant-updated], [raise-hand] or [lower-hand] frame changes
    neither the rooms nor the socket tables, and allocates nothing.  Of
    every participant object it leaves the id, the name, the socket, the
    room id, the moderator bit and the join time as they were, and it
    leaves every object but the one bound to the sending socket entirely
    unchanged: with these frames nobody renames itself, moves to another
    room or becomes a moderator. *)
Theorem self_update_keeps_standing (rs : Socket -> Z) (socket : Socket) (message : Msg)
    (uuid : string) (now : Z) (ss : SignalingServer) :
  m_type message = T_participant_updated \/ m_type message = T_raise_hand
  \/ m_type message = T_lower_hand ->
  let res := handleMessage rs socket (Json message) uuid now ss in
  rooms (roomManager res.1) = rooms (roomManager ss)
  /\ s_participants res.1 = s_participants ss
  /\ s_waitingParticipants res.1 = s_waitingParticipants ss
  /\ length (heap (roomManager res.1)) = length (heap (roomManager ss))
  /\ forall r,
       same_standing (deref (heap (roomManager ss)) r) (deref (heap (roomManager res.1)) r)
       /\ (s_participants ss !! socket <> Some r ->
           deref (heap (roomManager res.1)) r = deref (heap (roomManager ss)) r).
Proof.
  intros Hty res. subst res. unfold handleMessage.
  destruct Hty as [-> | [-> | ->]];
    unfold handleParticipantUpdate, handleRaiseHand, handleLowerHand;
    (destruct (s_participants ss !! socket) as [participant|] eqn:Hbound;
     cbn [fst snd]; [|by repeat split]);
    match goal with
    | |- context [mutate ?r ?f ?st] =>
        destruct (mutate_same_standing r f st) as [Hlen Hobj]; [by intros p|]
    end;
    cbn [roomManager set_roomManager s_participants s_waitingParticipants];
    (repeat split; try done; try apply Hobj; intros Hne; apply Hobj; congruence).
Qed.

Lemma self_update_keeps_standing_witness :
  let forged :=
    mkMsg T_participant_updated "ABC123" "P1" 0 (Some "Alice") None (Some true) None None
          None (Some true) (Some true) None None None None None None None "" in
  let res := handleMessage all_open 2%nat (Json forged) "" 9 two_peers in
  same_standing (deref (heap (roomManager two_peers)) 1%nat)
                (deref (heap (roomManager res.1)) 1%nat)
  /\ isMuted (deref (heap (roomManager res.1)) 1%nat) = true.
Proof.
  cbv zeta. split; [|vm_compute; reflexivity].
  eapply (self_update_keeps_standing all_open 2%nat _ "" 9 two_peers).
  left. reflexivity.
Defined.

(** ** Moderator actions: kick *)

Lemma removeParticipant_absent (roomId participantId : string) (st : RoomManager) :
  in_participants roomId participantId (removeParticipant roomId participantId st) = false.
Proof.
  unfold in_participants. destruct (getRoom roomId st) as [room|] eqn:Hroom.
  - rewrite (removeParticipant_room roomId participantId st room Hroom). cbv zeta.
    assert (forall st2 : RoomManager,
              (exists f, getRoom roomId st2 = Some (f room)
                         /\ participants (f room)
                            = JsMap.delete participantId (participants room)) ->
              match getRoom roomId
                      (if (JsMap.size (JsMap.delete participantId (participants room)) =? 0)%nat
                          && negb (isPreCreated room)
                       then set_rooms (JsMap.delete roomId (rooms st2)) st2 else st2) with
              | Some room' => JsMap.has participantId (participants room')
              | None => false
              end = false) as Hshape.
    { intros st2 (f & Hst2 & Hps). destruct (_ && _).
      - unfold getRoom. simpl. by rewrite get_delete_eq.
      - rewrite Hst2, Hps. unfold JsMap.has. by rewrite get_delete_eq. }
    apply Hshape. destruct (bool_decide _ && _).
    + destruct (JsMap.first_value _) as [newHost|].
      * eexists. rewrite getRoom_mutate, getRoom_update_room_eq, Hroom. split; done.
      * eexists. rewrite getRoom_update_room_eq, Hroom. split; done.
    + eexists. rewrite getRoom_update_room_eq, Hroom. split; done.
  - unfold removeParticipant. unfold getRoom in Hroom. rewrite Hroom.
    unfold getRoom. by rewrite Hroom.
Qed.

Lemma broadcast_open_only (rs : Socket -> Z) (roomId : string) (message : Msg)
    (excludeId : option string) (st : RoomManager) (e : Effect) :
  e ∈ broadcast rs roomId message excludeId st ->
  exists s, e = Send s message /\ rs s = 1.
Proof.
  unfold broadcast. intros He. apply list_elem_of_omap in He as (p & _ & Hp).
  destruct (rs (p_socket (deref (heap st) p)) =? 1) eqn:Hopen; [|done].
  injection Hp as <-. eexists. split; [done|]. by apply Z.eqb_eq.
Qed.

Lemma sendTo_open_only (rs : Socket -> Z) (participantId : option string) (roomId : string)
    (message : Msg) (st : RoomManager) (e : Effect) :
  e ∈ sendTo rs participantId roomId message st ->
  exists s, e = Send s message /\ rs s = 1.
Proof.
  unfold sendTo. destruct (JsMap.get roomId (rooms st)) as [room|]; [|by intros ?%elem_of_nil].
  destruct (participantId ≫= _) as [participant|]; [|by intros ?%elem_of_nil].
  destruct (rs (p_socket (deref (heap st) participant)) =? 1) eqn:Hopen;
    [|by intros ?%elem_of_nil].
  intros ->%list_elem_of_singleton. eexists. split; [done|]. by apply Z.eqb_eq.
Qed.

(** X15: when a moderator kicks a participant of its room whose socket is
    open, the participant is sent the kick notice and its socket is closed
    right after; nothing that follows is addressed to that socket.
    Afterwards the participant is not in the room, while the dispatcher
    still has its socket bound (the binding goes when the socket's close
    event runs the disconnect path). *)
Theorem moderator_kick (rs : Socket -> Z) (socket : Socket) (message : Msg) (now : Z)
    (ss : SignalingServer) (moderator target : Ref) (room : Room) (targetId : string) :
  let rm := roomManager ss in
  let me := deref (heap rm) moderator in
  let kicked := p_socket (deref (heap rm) target) in
  s_participants ss !! socket = Some moderator ->
  isModerator me = true ->
  m_targetId message = Some targetId ->
  m_action message = Some A_kick ->
  getRoom (p_roomId me) rm = Some room ->
  JsMap.get targetId (participants room) = Some target ->
  p_id (deref (heap rm) target) = targetId ->
  rs kicked = 1 ->
  let res := handleModeratorAction rs socket message now ss in
  in_participants (p_roomId me) targetId (roomManager res.1) = false
  /\ s_participants res.1 = s_participants ss
  /\ exists rest,
       res.2 = Send kicked (moderatorActionMsg (p_roomId me) (p_id me) (Some targetId)
                                               A_kick now)
               :: Close kicked :: rest
       /\ forall e, e ∈ rest -> exists s m, e = Send s m /\ s <> kicked.
Proof.
  intros rm me kicked Hbound Hmod Htarget Haction Hroom Hget Hid Hopen res. subst res.
  unfold handleModeratorAction. fold rm. rewrite Hbound. cbv zeta. fold me.
  rewrite Hmod. cbn [negb].
  destruct (List.find _ (getParticipants (p_roomId me) rm)) as [found|] eqn:Hfind.
  2:{ exfalso. apply List.find_none with (x := target) in Hfind.
      - rewrite Htarget, Hid in Hfind. by rewrite bool_decide_eq_true_2 in Hfind.
      - apply list_elem_of_In. unfold getParticipants. unfold getRoom in Hroom.
        rewrite Hroom. by eapply get_values. }
  rewrite Haction, Htarget. change (default "" (Some targetId)) with targetId.
  unfold getRoom in Hroom.
  assert (forall m, sendTo rs (Some targetId) (p_roomId me) m rm = [Send kicked m])
    as Hnotice.
  { intros m. unfold sendTo. rewrite Hroom. cbn [mbind option_bind]. rewrite Hget.
    fold kicked. by rewrite Hopen. }
  rewrite Hnotice. unfold kickParticipant. rewrite Hroom, Hget. fold kicked.
  rewrite Hopen. cbv beta iota zeta. cbn [Z.eqb Pos.eqb].
  cbn [fst snd roomManager set_roomManager s_participants app].
  split; [apply removeParticipant_absent|]. split; [done|].
  eexists. split; [done|]. intros e He.
  assert (apply_effects
            [Send kicked (moderatorActionMsg (p_roomId me) (p_id me) (Some targetId)
                                             A_kick now); Close kicked] rs kicked <> 1)
    as Hclosed.
  { unfold apply_effects. simpl. unfold close_socket. rewrite decide_True by done.
    rewrite Hopen. simpl. unfold CLOSING. lia. }
  apply elem_of_app in He as [He|He].
  - apply broadcast_open_only in He as (s & -> & Hs). exists s. eexists.
    split; [done|]. intros ->. done.
  - apply sendTo_open_only in He as (s & -> & Hs). exists s. eexists.
    split; [done|]. intros ->. done.
Qed.

Lemma moderator_kick_witness :
  let kick :=
    mkMsg T_moderator_action "ABC123" "" 0 None None None None (Some "P2") (Some A_kick)
          None None None None None None None None None "" in
  let res := handleModeratorAction all_open 1%nat kick 9 two_peers in
  in_participants "ABC123" "P2" (roomManager res.1) = false
  /\ s_participants res.1 !! 2%nat = Some 1%nat
  /\ take 2 res.2 = [Send 2%nat (moderatorActionMsg "ABC123" "P1" (Some "P2") A_kick 9);
                     Close 2%nat].
Proof.
  cbv zeta.
  edestruct (moderator_kick all_open 1%nat
               (mkMsg T_moderator_action "ABC123" "" 0 None None None None (Some "P2")
                      (Some A_kick) None None None None None None None None None "")
               9 two_peers 0%nat 1%nat)
    as (Hgone & Hbound & rest & Heffects & _);
    [vm_compute; reflexivity | vm_compute; reflexivity | reflexivity | reflexivity
     | vm_compute; reflexivity | vm_compute; reflexivity | vm_compute; reflexivity
     | reflexivity |].
  split; [|split].
  - etransitivity; [|exact Hgone]. vm_compute. reflexivity.
  - rewrite Hbound. vm_compute. reflexivity.
  - rewrite Heffects. vm_compute. reflexivity.
Defined.

(** ** Rejecting a waiting participant *)

(** X16: a [reject-user] frame from a moderator acts on the moderator's own
    room, whatever room id the frame carries: every other room, every
    participants map, every participant object and the participants'
    socket table stay as they are, and the moderator is sent nothing.  If
    the target waits in that room, it leaves the waiting map, its socket is
    unbound, sent the [reject-user] envelope with the moderator's reason
    (whatever the state of the socket) and then closed.  If it does not,
    nothing changes and nothing is sent. *)
Theorem reject_user (rs : Socket -> Z) (socket : Socket) (message : Msg) (now : Z)
    (ss : SignalingServer) (moderator : Ref) :
  let rm := roomManager ss in
  let me := deref (heap rm) moderator in
  s_participants ss !! socket = Some moderator ->
  isModerator me = true ->
  let res := handleRejectUser rs socket message now ss in
  s_participants res.1 = s_participants ss
  /\ heap (roomManager res.1) = heap rm
  /\ (forall other, participants <$> getRoom other (roomManager res.1)
                    = participants <$> getRoom other rm)
  /\ (forall other, other <> p_roomId me ->
                    getRoom other (roomManager res.1) = getRoom other rm)
  /\ match m_targetId message
           ≫= (fun targetId => getRoom (p_roomId me) rm
                               ≫= (fun room => JsMap.get targetId (waitingRoom room))) with
     | Some w =>
         res.2 = [Send (w_socket w)
                    (mkMsg T_reject_user (p_roomId me) (w_id w) now None None
                           None None None None None None None None None None
                           (m_reason message) None None "");
                  Close (w_socket w)]
         /\ s_waitingParticipants res.1 = delete (w_socket w) (s_waitingParticipants ss)
         /\ in_waitingRoom (p_roomId me) (default "" (m_targetId message))
                           (roomManager res.1) = false
     | None =>
         res.2 = [] /\ roomManager res.1 = rm
         /\ s_waitingParticipants res.1 = s_waitingParticipants ss
     end.
Proof.
  intros rm me Hbound Hmod res. subst res.
  unfold handleRejectUser, boundModerator. rewrite Hbound. fold rm me. rewrite Hmod.
  destruct (m_targetId message) as [targetId|]; cbn [mbind option_bind default];
    [|by repeat split].
  unfold rejectFromWaitingRoom, getRoom.
  destruct (JsMap.get (p_roomId me) (rooms rm)) as [room|] eqn:Hroom;
    cbn [mbind option_bind]; [|by repeat split].
  destruct (JsMap.get targetId (waitingRoom room)) as [w|] eqn:Hw; [|by repeat split].
  cbn [fst snd roomManager s_participants s_waitingParticipants].
  split; [done|]. split; [done|]. split.
  { intros other. unfold update_room. simpl.
    destruct (decide (p_roomId me = other)) as [<-|Hne].
    - by rewrite get_alter_eq, Hroom.
    - by rewrite get_alter_ne. }
  split.
  { intros other Hne. unfold update_room. simpl. by rewrite get_alter_ne. }
  split; [done|]. split; [done|].
  unfold in_waitingRoom, getRoom, update_room. simpl.
  rewrite get_alter_eq, Hroom. simpl. unfold JsMap.has. by rewrite get_delete_eq.
Qed.

Lemma reject_user_witness :
  let ss := (serve all_open (take 3 full_room_frames) empty_server).1 in
  let reject :=
    mkMsg T_reject_user "ELSEWHERE" "" 0 None None None None (Some "W1") None
          None None None None None None (Some "not today") None None "" in
  let res := handleRejectUser (all_open_but 11%nat) 1%nat reject 30 ss in
  res.2 = [Send 11%nat
             (mkMsg T_reject_user "ROOM" "W1" 30 None None None None None None None None
                    None None None None (Some "not today") None None "");
           Close 11%nat]
  /\ s_waitingParticipants res.1 !! 11%nat = None.
Proof.
  cbv zeta.
  pose proof (reject_user (all_open_but 11%nat) 1%nat
                (mkMsg T_reject_user "ELSEWHERE" "" 0 None None None None (Some "W1") None
                       None None None None None None (Some "not today") None None "")
                30 (serve all_open (take 3 full_room_frames) empty_server).1 0%nat)
    as Hreject.
  cbv zeta in Hreject.
  destruct Hreject as (_ & _ & _ & _ & Htarget);
    [vm_compute; reflexivity | vm_compute; reflexivity |].
  match type of Htarget with
  | match ?scrutinee with _ => _ end =>
      assert (scrutinee = Some (mkWaitingParticipant "W1" "Ann" 11%nat 11)) as Hw
        by (vm_compute; reflexivity);
      rewrite Hw in Htarget
  end.
  destruct Htarget as (Heffects & Hunbound & _).
  split; [exact Heffects|]. rewrite Hunbound. apply lookup_delete_eq.
Defined.

(** ** The rate limiter *)

Lemma filter_length_mono {A : Type} (f g : A -> bool) (l : list A) :
  (forall x, f x = true -> g x = true) ->
  (length (List.filter f l) <= length (List.filter g l))%nat.
Proof.
  intros Hfg. induction l as [|x l IH]; simpl; [lia|].
  destruct (f x) eqn:Hf.
  - rewrite (Hfg x Hf). simpl. lia.
  - destruct (g x); simpl; lia.
Qed.

Lemma validAttempts_twice (now now' : Z) (attempts : list Z) :
  now <= now' ->
  validAttempts now' (validAttempts now attempts) = validAttempts now' attempts.
Proof.
  intros Hle. unfold validAttempts. induction attempts as [|a l IH]; simpl; [done|].
  destruct (now - a <? RATE_LIMIT_WINDOW) eqn:Hnow; simpl.
  - by rewrite IH.
  - rewrite IH. destruct (now' - a <? RATE_LIMIT_WINDOW) eqn:Hnow'; [|done].
    apply Z.ltb_lt in Hnow'. apply Z.ltb_ge in Hnow. lia.
Qed.

Lemma validAttempts_app (now : Z) (l l' : list Z) :
  validAttempts now (l ++ l') = validAttempts now l ++ validAttempts now l'.
Proof. apply List.filter_app. Qed.

Lemma accepted_times_app (ip : string) (log log' : list (string * Z)) :
  accepted_times ip (log ++ log') = accepted_times ip log ++ accepted_times ip log'.
Proof. unfold accepted_times. by rewrite List.filter_app, map_app. Qed.

Lemma accepted_times_singleton (ip ip0 : string) (now0 : Z) :
  accepted_times ip [(ip0, now0)] = if decide (ip0 = ip) then [now0] else [].
Proof.
  unfold accepted_times. simpl. destruct (decide (ip0 = ip)).
  - by rewrite bool_decide_eq_true_2.
  - by rewrite bool_decide_eq_false_2.
Qed.

Lemma accepted_times_elem (ip : string) (log : list (string * Z)) (a : Z) :
  a ∈ accepted_times ip log -> (ip, a) ∈ log.
Proof.
  unfold accepted_times. intros Ha. apply list_elem_of_fmap in Ha as ([ip' a'] & -> & Hin).
  apply list_elem_of_In, List.filter_In in Hin as [Hin Hip].
  apply bool_decide_eq_true in Hip. simpl in Hip. subst ip'. by apply list_elem_of_In.
Qed.

Lemma limiter_tracks_run (events : list LimiterEvent) :
  StronglySorted Z.le (map event_time events) ->
  limiter_tracks events (limiter_run events).
Proof.
  induction events as [|e events IH] using rev_ind; intros Hsorted.
  - intros now _. split; [constructor|]. intros ip. simpl. by rewrite lookup_empty.
  - rewrite map_app in Hsorted.
    assert (Forall (fun e' => event_time e' <= event_time e) events) as Hbefore.
    { apply Forall_forall. intros e' He'.
      apply (StronglySorted_app_1_elem_of Z.le (map event_time events) [event_time e]);
        [done | by apply list_elem_of_fmap_2 | apply list_elem_of_here]. }
    apply StronglySorted_app_1_l in Hsorted. specialize (IH Hsorted).
    unfold limiter_run in *. rewrite fold_left_app. simpl.
    destruct (fold_left limiter_step events ([], ∅)) as [log m].
    intros now Hnow. apply Forall_app in Hnow as [Hnow Hlast].
    rewrite Forall_singleton in Hlast.
    destruct (IH now Hnow) as [Hlog Hvalid]. simpl in Hlog, Hvalid.
    destruct e as [ip0 now0|now0]; simpl in *.
    + unfold checkRateLimit.
      destruct (MAX_CONNECTIONS_PER_WINDOW <=? _)%nat; simpl; [done|].
      split; [apply Forall_app; split; [done | by constructor]|].
      intros ip. rewrite accepted_times_app, validAttempts_app, accepted_times_singleton.
      destruct (decide (ip0 = ip)) as [<-|Hne].
      * rewrite lookup_insert_eq. simpl. rewrite validAttempts_app.
        rewrite validAttempts_twice by done. by rewrite Hvalid.
      * rewrite lookup_insert_ne by done. rewrite Hvalid. by rewrite app_nil_r.
    + split; [done|]. intros ip. unfold sweepConnectionAttempts.
      rewrite lookup_omap. rewrite <- Hvalid.
      destruct (m !! ip) as [attempts|]; simpl; [|done].
      rewrite <- (validAttempts_twice now0 now attempts) by done.
      by destruct (validAttempts now0 attempts) as [|a valid].
Qed.

(** X17: however attempts from any addresses and ticks of the sweeping
    timer follow one another, as long as the clock does not run backwards,
    the attempts of one address that [checkRateLimit] lets through number
    at most ten in any window of one minute. *)
Theorem rate_limit_per_window (events : list LimiterEvent) (ip : string) (t : Z) :
  StronglySorted Z.le (map event_time events) ->
  (length (in_window t (accepted_times ip (limiter_run events).1))
   <= MAX_CONNECTIONS_PER_WINDOW)%nat.
Proof.
  induction events as [|e events IH] using rev_ind; intros Hsorted.
  - simpl. unfold MAX_CONNECTIONS_PER_WINDOW. lia.
  - pose proof Hsorted as Hall. rewrite map_app in Hsorted.
    assert (Forall (fun e' => event_time e' <= event_time e) events) as Hbefore.
    { apply Forall_forall. intros e' He'.
      apply (StronglySorted_app_1_elem_of Z.le (map event_time events) [event_time e]);
        [done | by apply list_elem_of_fmap_2 | apply list_elem_of_here]. }
    apply StronglySorted_app_1_l in Hsorted.
    pose proof (limiter_tracks_run events Hsorted (event_time e) Hbefore) as [_ Hvalid].
    specialize (IH Hsorted).
    unfold limiter_run in *. rewrite fold_left_app. simpl.
    destruct (fold_left limiter_step events ([], ∅)) as [log m]. simpl in *.
    destruct e as [ip0 now0|now0]; simpl in *; [|done].
    unfold checkRateLimit.
    destruct (MAX_CONNECTIONS_PER_WINDOW <=? _)%nat eqn:Hfull; simpl; [done|].
    apply Nat.leb_gt in Hfull. rewrite Hvalid in Hfull.
    rewrite accepted_times_app, accepted_times_singleton.
    unfold in_window. rewrite List.filter_app, length_app.
    destruct (decide (ip0 = ip)) as [<-|Hne].
    + simpl.
      destruct ((t - RATE_LIMIT_WINDOW <? now0) && (now0 <=? t)) eqn:Hin; simpl.
      * apply andb_true_iff in Hin as [Hlo Hhi].
        apply Z.ltb_lt in Hlo. apply Z.leb_le in Hhi.
        pose proof (filter_length_mono
                      (fun a => (t - RATE_LIMIT_WINDOW <? a) && (a <=? t))
                      (fun time => now0 - time <? RATE_LIMIT_WINDOW)
                      (accepted_times ip0 log)) as Hmono.
        unfold validAttempts in Hfull.
        assert (forall x, (t - RATE_LIMIT_WINDOW <? x) && (x <=? t) = true ->
                          (now0 - x <? RATE_LIMIT_WINDOW) = true) as Hsub.
        { intros x [Hx _]%andb_true_iff. apply Z.ltb_lt in Hx. apply Z.ltb_lt. lia. }
        specialize (Hmono Hsub). lia.
      * unfold in_window in IH. lia.
    + simpl. unfold in_window in IH. lia.
Qed.

Lemma rate_limit_per_window_witness :
  let events :=
    map (Attempt "10.0.0.1") [0; 100; 200; 300; 400; 500; 600; 700; 800; 900; 1000; 1100]
    ++ [Sweep 60000; Attempt "10.0.0.1" 60050; Attempt "10.0.0.7" 60060] in
  StronglySorted Z.le (map event_time events)
  /\ (length (in_window 60050 (accepted_times "10.0.0.1" (limiter_run events).1))
      <= MAX_CONNECTIONS_PER_WINDOW)%nat.
Proof.
  cbv zeta.
  assert (StronglySorted Z.le
            (map event_time
               (map (Attempt "10.0.0.1")
                    [0; 100; 200; 300; 400; 500; 600; 700; 800; 900; 1000; 1100]
                ++ [Sweep 60000; Attempt "10.0.0.1" 60050; Attempt "10.0.0.7" 60060])))
    as Hsorted.
  { simpl. repeat (apply SSorted_cons; [|repeat (constructor; [lia|]); constructor]).
    apply SSorted_nil. }
  split; [exact Hsorted|].
  exact (rate_limit_per_window _ "10.0.0.1" 60050 Hsorted).
Defined.

Lemma validAttempts_sweep (t now : Z) (ip : string) (m : gmap string (list Z)) :
  t <= now ->
  validAttempts now (default [] (sweepConnectionAttempts t m !! ip))
  = validAttempts now (default [] (m !! ip)).
Proof.
  intros Hle. unfold sweepConnectionAttempts. rewrite lookup_omap.
  destruct (m !! ip) as [attempts|]; simpl; [|done].
  rewrite <- (validAttempts_twice t now attempts) by done.
  by destruct (validAttempts t attempts).
Qed.

(** X18: the sweeping timer does not change what the limiter answers: at
    any clock value that is not before the sweep, [checkRateLimit] gives an
    address the same verdict, and stores the same attempts for it, as it
    would have without the sweep.  After a sweep no address is stored with
    an empty list or with an attempt older than the window. *)
Theorem sweep_is_transparent (t now : Z) (ip : string) (m : gmap string (list Z)) :
  t <= now ->
  let swept := sweepConnectionAttempts t m in
  (checkRateLimit ip now swept).1 = (checkRateLimit ip now m).1
  /\ ((checkRateLimit ip now m).1 = true ->
      (checkRateLimit ip now swept).2 !! ip = (checkRateLimit ip now m).2 !! ip)
  /\ forall ip' attempts, swept !! ip' = Some attempts ->
       attempts <> [] /\ Forall (fun time => t - time < RATE_LIMIT_WINDOW) attempts.
Proof.
  intros Hle swept. unfold checkRateLimit. subst swept.
  rewrite (validAttempts_sweep t now ip m Hle).
  destruct (MAX_CONNECTIONS_PER_WINDOW <=? _)%nat; simpl.
  - split; [done|]. split; [done|]. intros ip' attempts Hswept.
    unfold sweepConnectionAttempts in Hswept. rewrite lookup_omap in Hswept.
    destruct (m !! ip') as [stored|]; simpl in Hswept; [|done].
    destruct (validAttempts t stored) as [|a valid] eqn:Hvalid; simpl in Hswept; [done|].
    injection Hswept as <-. split; [done|]. rewrite <- Hvalid.
    apply Forall_forall. intros time Htime.
    apply list_elem_of_In, List.filter_In in Htime as [_ Htime]. by apply Z.ltb_lt.
  - split; [done|]. split; [by rewrite !lookup_insert_eq|]. intros ip' attempts Hswept.
    unfold sweepConnectionAttempts in Hswept. rewrite lookup_omap in Hswept.
    destruct (m !! ip') as [stored|]; simpl in Hswept; [|done].
    destruct (validAttempts t stored) as [|a valid] eqn:Hvalid; simpl in Hswept; [done|].
    injection Hswept as <-. split; [done|]. rewrite <- Hvalid.
    apply Forall_forall. intros time Htime.
    apply list_elem_of_In, List.filter_In in Htime as [_ Htime]. by apply Z.ltb_lt.
Qed.

Lemma sweep_is_transparent_witness :
  let m : gmap string (list Z) := {[ "10.0.0.1" := [0; 100; 59000]; "10.0.0.7" := [5] ]} in
  (checkRateLimit "10.0.0.1" 60050 (sweepConnectionAttempts 60010 m)).1
  = (checkRateLimit "10.0.0.1" 60050 m).1.
Proof.
  cbv zeta.
  apply (sweep_is_transparent 60010 60050 "10.0.0.1"
           {[ "10.0.0.1" := [0; 100; 59000]; "10.0.0.7" := [5] ]}).
  lia.
Defined.

(** ** WebSocket frames *)

Lemma length_writeBE (n : nat) (v : Z) : length (writeBE n v) = n.
Proof. induction n as [|n IH]; simpl; [done | by rewrite IH]. Qed.

Lemma writeBE_bytes (n : nat) (v : Z) : Forall is_byte (writeBE n v).
Proof.
  induction n as [|n IH]; simpl; constructor; [|done].
  unfold is_byte. change 255 with (Z.ones 8). rewrite Z.land_ones by lia.
  apply Z.mod_pos_bound. lia.
Qed.

Lemma fold_readBE_writeBE (n : nat) (v acc : Z) :
  0 <= v ->
  fold_left (fun acc b => acc * 256 + b) (writeBE n v) acc
  = acc * 256 ^ Z.of_nat n + v mod 256 ^ Z.of_nat n.
Proof.
  intros Hv. revert acc. induction n as [|n IH]; intros acc.
  - simpl. rewrite Z.mod_1_r. lia.
  - cbn [writeBE fold_left]. rewrite IH.
    change 255 with (Z.ones 8). rewrite Z.land_ones by lia.
    rewrite Z.shiftr_div_pow2 by lia.
    replace (2 ^ (8 * Z.of_nat n)) with (256 ^ Z.of_nat n)
      by (change 256 with (2 ^ 8); rewrite <- Z.pow_mul_r by lia; done).
    replace (Z.of_nat (S n)) with (Z.of_nat n + 1) by lia.
    rewrite Z.pow_add_r by lia. change (256 ^ 1) with 256. change (2 ^ 8) with 256.
    assert (0 < 256 ^ Z.of_nat n) as Hpos by (apply Z.pow_pos_nonneg; lia).
    rewrite (Z.rem_mul_r v (256 ^ Z.of_nat n) 256) by lia. lia.
Qed.

Lemma readBE_writeBE (n : nat) (v : Z) :
  0 <= v < 256 ^ Z.of_nat n -> readBE (writeBE n v) = v.
Proof.
  intros Hv. unfold readBE. rewrite fold_readBE_writeBE by lia.
  rewrite Z.mod_small by lia. lia.
Qed.

Lemma readBE_nonneg (bytes : list Z) : Forall is_byte bytes -> 0 <= readBE bytes.
Proof.
  intros Hbytes. unfold readBE.
  assert (forall acc, 0 <= acc ->
            0 <= fold_left (fun acc b => acc * 256 + b) bytes acc) as Hfold.
  { induction Hbytes as [|b bytes Hb Hbytes IH]; intros acc Hacc; simpl; [done|].
    apply IH. unfold is_byte in Hb. lia. }
  apply Hfold. lia.
Qed.

Lemma applyMask_length (mask payload : list Z) :
  length (applyMask mask payload) = length payload.
Proof. apply length_imap. Qed.

Lemma applyMask_twice (mask payload : list Z) :
  applyMask mask (applyMask mask payload) = payload.
Proof.
  unfold applyMask. apply list_eq. intros i. rewrite !list_lookup_imap.
  destruct (payload !! i) as [b|]; simpl; [|done].
  by rewrite Z.lxor_assoc, Z.lxor_nilpotent, Z.lxor_0_r.
Qed.

Lemma subarray_app (n k : nat) (header payload rest : list Z) :
  length header = n -> length payload = k ->
  subarray n (n + k) (header ++ payload ++ rest) = payload.
Proof.
  intros Hn Hk. unfold subarray. rewrite drop_app_length' by done.
  replace (n + k - n)%nat with k by lia. by rewrite take_app_length' by done.
Qed.

Lemma land_short_length (len : Z) :
  0 <= len < 128 -> Z.land len 128 = 0 /\ Z.land len 127 = len.
Proof.
  intros Hlen.
  assert (Z.land len 127 = len) as Hlow.
  { change 127 with (Z.ones 7). rewrite Z.land_ones by lia. apply Z.mod_small.
    change (2 ^ 7) with 128. lia. }
  split; [|done]. rewrite <- Hlow, <- Z.land_assoc. change (Z.land 127 128) with 0.
  apply Z.land_0_r.
Qed.

Lemma parseFrame_of_send (payload rest : list Z) :
  Z.of_nat (length payload) < 2 ^ 53 ->
  exists frame,
    send OPEN payload = Some frame
    /\ parseFrame (frame ++ rest)
       = Some (mkParsedFrame (Some payload) (length frame) false).
Proof.
  intros Hlen. unfold send. change (negb (OPEN =? OPEN)) with false. cbv iota zeta.
  eexists. split; [done|]. rewrite <- !app_assoc.
  destruct (Z.of_nat (length payload) <? 126) eqn:Hshort;
    [|destruct (Z.of_nat (length payload) <? 65536) eqn:Hmedium].
  - apply Z.ltb_lt in Hshort.
    destruct (land_short_length (Z.of_nat (length payload))) as [Hbit Hlow]; [lia|].
    unfold parseFrame, frameBody.
    match goal with
    | |- context [Nat.ltb (length ?l) ?n] =>
        replace (Nat.ltb (length l) n) with false
          by (symmetry; apply Nat.ltb_ge; simpl;
              rewrite ?length_app, ?length_writeBE; simpl; lia)
    end.
    cbn [byte_at nth app]. rewrite Hbit, Hlow. change (Z.land 129 15) with 1.
    replace (Z.of_nat (length payload) =? 126) with false by (symmetry; apply Z.eqb_neq; lia).
    replace (Z.of_nat (length payload) =? 127) with false by (symmetry; apply Z.eqb_neq; lia).
    cbn [Z.eqb negb Pos.eqb].
    replace (Z.to_nat (Z.of_nat 2 + Z.of_nat (length payload)))
      with (2 + length payload)%nat by lia.
    match goal with
    | |- context [Nat.ltb (length ?l) ?n] =>
        replace (Nat.ltb (length l) n) with false
          by (symmetry; apply Nat.ltb_ge; simpl;
              rewrite ?length_app, ?length_writeBE; simpl; lia)
    end.
    match goal with
    | |- context [subarray ?a ?b ?l] =>
        replace (subarray a b l) with payload
          by (symmetry; apply (subarray_app 2 (length payload) [129; Z.of_nat (length payload)]);
              [simpl; rewrite ?length_app, ?length_writeBE; done | done])
    end.
    simpl. by rewrite ?length_app, ?length_writeBE.
  - apply Z.ltb_ge in Hshort. apply Z.ltb_lt in Hmedium.
    unfold parseFrame, frameBody.
    match goal with
    | |- context [Nat.ltb (length ?l) ?n] =>
        replace (Nat.ltb (length l) n) with false
          by (symmetry; apply Nat.ltb_ge; simpl;
              rewrite ?length_app, ?length_writeBE; simpl; lia)
    end.
    cbn [byte_at nth app].
    change (Z.land 129 15) with 1. change (Z.land 126 128) with 0.
    change (Z.land 126 127) with 126. cbn [Z.eqb negb Pos.eqb].
    match goal with
    | |- context [Nat.ltb (length ?l) ?n] =>
        replace (Nat.ltb (length l) n) with false
          by (symmetry; apply Nat.ltb_ge; simpl;
              rewrite ?length_app, ?length_writeBE; simpl; lia)
    end.
    match goal with
    | |- context [subarray 2 ?b ?l] =>
        replace (subarray 2 b l) with (writeBE 2 (Z.of_nat (length payload)))
          by (symmetry;
              apply (subarray_app 2 2 [129; 126] (writeBE 2 (Z.of_nat (length payload)))
                                  (payload ++ rest));
              [done | apply length_writeBE])
    end.
    rewrite readBE_writeBE by (change (256 ^ Z.of_nat 2) with 65536; lia).
    replace (Z.to_nat (Z.of_nat 4 + Z.of_nat (length payload)))
      with (4 + length payload)%nat by lia.
    match goal with
    | |- context [Nat.ltb (length ?l) ?n] =>
        replace (Nat.ltb (length l) n) with false
          by (symmetry; apply Nat.ltb_ge; simpl;
              rewrite ?length_app, ?length_writeBE; simpl; lia)
    end.
    match goal with
    | |- context [subarray ?a ?b ?l] =>
        replace (subarray a b l) with payload
          by (symmetry; apply (subarray_app 4 (length payload) ([129; 126] ++ writeBE 2 (Z.of_nat (length payload))));
              [simpl; rewrite ?length_app, ?length_writeBE; done | done])
    end.
    simpl. by rewrite ?length_app, ?length_writeBE.
  - apply Z.ltb_ge in Hshort, Hmedium.
    unfold parseFrame, frameBody.
    match goal with
    | |- context [Nat.ltb (length ?l) ?n] =>
        replace (Nat.ltb (length l) n) with false
          by (symmetry; apply Nat.ltb_ge; simpl;
              rewrite ?length_app, ?length_writeBE; simpl; lia)
    end.
    cbn [byte_at nth app].
    change (Z.land 129 15) with 1. change (Z.land 127 128) with 0.
    change (Z.land 127 127) with 127. cbn [Z.eqb negb Pos.eqb].
    match goal with
    | |- context [Nat.ltb (length ?l) ?n] =>
        replace (Nat.ltb (length l) n) with false
          by (symmetry; apply Nat.ltb_ge; simpl;
              rewrite ?length_app, ?length_writeBE; simpl; lia)
    end.
    match goal with
    | |- context [subarray 2 ?b ?l] =>
        replace (subarray 2 b l) with (writeBE 8 (Z.of_nat (length payload)))
          by (symmetry;
              apply (subarray_app 2 8 [129; 127] (writeBE 8 (Z.of_nat (length payload)))
                                  (payload ++ rest));
              [done | apply length_writeBE])
    end.
    rewrite readBE_writeBE
      by (change (256 ^ Z.of_nat 8) with (2 ^ 64);
          assert (2 ^ 53 < 2 ^ 64) by (apply Z.pow_lt_mono_r; lia); lia).
    replace (Z.to_nat (Z.of_nat 10 + Z.of_nat (length payload)))
      with (10 + length payload)%nat by lia.
    match goal with
    | |- context [Nat.ltb (length ?l) ?n] =>
        replace (Nat.ltb (length l) n) with false
          by (symmetry; apply Nat.ltb_ge; simpl;
              rewrite ?length_app, ?length_writeBE; simpl; lia)
    end.
    match goal with
    | |- context [subarray ?a ?b ?l] =>
        replace (subarray a b l) with payload
          by (symmetry; apply (subarray_app 10 (length payload) ([129; 127] ++ writeBE 8 (Z.of_nat (length payload))));
              [simpl; rewrite ?length_app, ?length_writeBE; done | done])
    end.
    simpl. by rewrite ?length_app, ?length_writeBE.
Qed.

(** X19: what [send] writes for a payload, [parseFrame] reads back: for a
    payload shorter than [2^53] bytes, whichever of the three length
    encodings [send] chooses, [parseFrame] finds at the head of a buffer
    that starts with the written frame a text frame with exactly that
    payload, takes exactly the bytes of the frame and does not close the
    connection, whatever follows in the buffer.  A connection that is not
    open writes nothing. *)
Theorem frame_round_trip (payload rest : list Z) :
  Z.of_nat (length payload) < 2 ^ 53 ->
  (forall state, state <> OPEN -> send state payload = None)
  /\ exists frame,
       send OPEN payload = Some frame
       /\ parseFrame (frame ++ rest)
          = Some (mkParsedFrame (Some payload) (length frame) false).
Proof.
  intros Hlen. split; [|by apply parseFrame_of_send].
  intros state Hstate. unfold send.
  by replace (state =? OPEN) with false by (symmetry; by apply Z.eqb_neq).
Qed.

Lemma frame_round_trip_witness :
  send OPEN (replicate 130 97) = Some ([129; 126; 0; 130] ++ replicate 130 97)
  /\ parseFrame (([129; 126; 0; 130] ++ replicate 130 97) ++ [129; 0])
     = Some (mkParsedFrame (Some (replicate 130 97)) 134 false).
Proof.
  destruct (frame_round_trip (replicate 130 97) [129; 0])
    as (_ & frame & Hsend & Hparse); [vm_compute; reflexivity|].
  assert (frame = [129; 126; 0; 130] ++ replicate 130 97) as ->
    by (vm_compute in Hsend; injection Hsend as <-; vm_compute; reflexivity).
  split; [vm_compute; reflexivity|]. exact Hparse.
Defined.

Lemma byte_at_app (data more : list Z) (i : nat) :
  (i < length data)%nat -> byte_at (data ++ more) i = byte_at data i.
Proof. intros Hi. unfold byte_at. by apply app_nth1. Qed.

Lemma subarray_app_l (start stop : nat) (data more : list Z) :
  (stop <= length data)%nat -> subarray start stop (data ++ more) = subarray start stop data.
Proof.
  intros Hstop. unfold subarray.
  destruct (decide (start <= length data)%nat) as [Hle|Hgt].
  - rewrite drop_app_le by done. apply take_app_le. rewrite length_drop. lia.
  - replace (stop - start)%nat with 0%nat by lia. done.
Qed.

Lemma subarray_bytes (start stop : nat) (data : list Z) :
  Forall is_byte data -> Forall is_byte (subarray start stop data).
Proof. intros Hbytes. unfold subarray. by apply Forall_take, Forall_drop. Qed.

Lemma frameBody_stable (data more : list Z) (opcode : Z) (masked : bool)
    (payloadLength : Z) (offset0 : nat) (result : ParsedFrame) :
  0 <= payloadLength -> (2 <= offset0)%nat ->
  frameBody data opcode masked payloadLength offset0 = Some result ->
  (2 <= f_consumed result <= length data)%nat
  /\ frameBody (data ++ more) opcode masked payloadLength offset0 = Some result.
Proof.
  intros Hlen Hoffset. unfold frameBody. cbv zeta.
  set (offset := if masked then (offset0 + 4)%nat else offset0).
  assert (offset0 <= offset)%nat as Hle by (subst offset; destruct masked; lia).
  destruct (length data <? Z.to_nat (Z.of_nat offset + payloadLength))%nat eqn:Hshort;
    [done|].
  apply Nat.ltb_ge in Hshort.
  replace (length (data ++ more) <? Z.to_nat (Z.of_nat offset + payloadLength))%nat
    with false by (symmetry; apply Nat.ltb_ge; rewrite length_app; lia).
  rewrite !subarray_app_l by lia.
  intros Hresult. split; [|done].
  destruct (opcode =? 8); [|destruct (negb (opcode =? 1))];
    injection Hresult as <-; simpl; lia.
Qed.

(** A frame that [parseFrame] finds at the head of a buffer of bytes takes
    at least two bytes and no more than the buffer holds, and it is found
    unchanged when more bytes follow in the buffer. *)
Lemma parseFrame_prefix (data more : list Z) (result : ParsedFrame) :
  Forall is_byte data ->
  parseFrame data = Some result ->
  (2 <= f_consumed result <= length data)%nat
  /\ parseFrame (data ++ more) = Some result.
Proof.
  intros Hbytes. unfold parseFrame.
  destruct (length data <? 2)%nat eqn:Htwo; [done|]. apply Nat.ltb_ge in Htwo.
  replace (length (data ++ more) <? 2)%nat
    with false by (symmetry; apply Nat.ltb_ge; rewrite length_app; lia).
  cbv zeta. rewrite !byte_at_app by lia.
  assert (0 <= Z.land (byte_at data 1) 127) as Hshort by (apply Z.land_nonneg; lia).
  destruct (Z.land (byte_at data 1) 127 =? 126);
    [|destruct (Z.land (byte_at data 1) 127 =? 127)].
  - destruct (length data <? 4)%nat eqn:Hfour; [done|]. apply Nat.ltb_ge in Hfour.
    replace (length (data ++ more) <? 4)%nat
      with false by (symmetry; apply Nat.ltb_ge; rewrite length_app; lia).
    rewrite subarray_app_l by lia.
    apply frameBody_stable; [|lia]. by apply readBE_nonneg, subarray_bytes.
  - destruct (length data <? 10)%nat eqn:Hten; [done|]. apply Nat.ltb_ge in Hten.
    replace (length (data ++ more) <? 10)%nat
      with false by (symmetry; apply Nat.ltb_ge; rewrite length_app; lia).
    rewrite subarray_app_l by lia.
    apply frameBody_stable; [|lia]. by apply readBE_nonneg, subarray_bytes.
  - apply frameBody_stable; [done | lia].
Qed.

(** ** The receive buffer *)

Lemma processBuffer_loop_short (fuel : nat) (c : WebSocketConnection) :
  (length (buffer c) < 2)%nat -> processBuffer_loop fuel c = (c, []).
Proof.
  intros Hshort. destruct fuel as [|fuel]; simpl; [done|].
  by replace (length (buffer c) <? 2)%nat with true by (symmetry; apply Nat.ltb_lt; lia).
Qed.

(** The buffer the loop leaves is what remains of the buffer it found. *)
Lemma processBuffer_loop_rest (fuel : nat) (c : WebSocketConnection) :
  exists n, buffer (processBuffer_loop fuel c).1 = drop n (buffer c).
Proof.
  revert c. induction fuel as [|fuel IH]; intros c; simpl; [by exists 0%nat|].
  destruct (length (buffer c) <? 2)%nat; [by exists 0%nat|].
  destruct (parseFrame (buffer c)) as [result|]; [|by exists 0%nat].
  match goal with
  | |- context [processBuffer_loop fuel ?c2] =>
      destruct (IH c2) as [n Hn]; destruct (processBuffer_loop fuel c2) as [c3 messages]
  end.
  simpl in *. rewrite Hn, drop_drop. by eexists.
Qed.

(** With a buffer of bytes, the loop has fuel enough as soon as it has one
    unit for every byte: more fuel changes nothing. *)
Lemma processBuffer_loop_fuel (fuel fuel' : nat) (c : WebSocketConnection) :
  Forall is_byte (buffer c) ->
  (length (buffer c) <= fuel)%nat -> (length (buffer c) <= fuel')%nat ->
  processBuffer_loop fuel c = processBuffer_loop fuel' c.
Proof.
  revert fuel' c. induction fuel as [|fuel IH]; intros fuel' c Hbytes Hfuel Hfuel'.
  - rewrite (processBuffer_loop_short fuel') by lia. done.
  - destruct fuel' as [|fuel']; [by rewrite (processBuffer_loop_short (S fuel)) by lia|].
    simpl. destruct (length (buffer c) <? 2)%nat; [done|].
    destruct (parseFrame (buffer c)) as [result|] eqn:Hparse; [|done].
    destruct (parseFrame_prefix (buffer c) [] result Hbytes Hparse) as [Hconsumed _].
    rewrite (IH fuel'); [done | by apply Forall_drop | |];
      simpl; rewrite length_drop; lia.
Qed.

(** Bytes that arrive after the loop has run are handled as if they had
    been in the buffer from the start. *)
Lemma processBuffer_loop_app (fuel : nat) (c : WebSocketConnection) (more : list Z) :
  Forall is_byte (buffer c) -> Forall is_byte more ->
  (length (buffer c) <= fuel)%nat ->
  let first := processBuffer_loop fuel c in
  let second :=
    processBuffer (mkWebSocketConnection (readyState first.1) (buffer first.1 ++ more)) in
  processBuffer (mkWebSocketConnection (readyState c) (buffer c ++ more))
  = (second.1, first.2 ++ second.2).
Proof.
  revert c. induction fuel as [|fuel IH]; intros c Hbytes Hmore Hfuel.
  - simpl. by destruct (processBuffer _).
  - cbv zeta. simpl processBuffer_loop.
    destruct (length (buffer c) <? 2)%nat eqn:Htwo; [simpl; by destruct (processBuffer _)|].
    destruct (parseFrame (buffer c)) as [result|] eqn:Hparse;
      [|simpl; by destruct (processBuffer _)].
    destruct (parseFrame_prefix (buffer c) more result Hbytes Hparse)
      as [Hconsumed Hparse'].
    set (c1 := if f_close result then close c else c).
    set (c2 := mkWebSocketConnection (readyState c1) (drop (f_consumed result) (buffer c))).
    specialize (IH c2). cbv zeta in IH.
    assert (processBuffer (mkWebSocketConnection (readyState c) (buffer c ++ more))
            = let '(c4, messages') :=
                processBuffer (mkWebSocketConnection (readyState c2) (buffer c2 ++ more)) in
              (c4, match f_message result with
                   | Some message => message :: messages'
                   | None => messages'
                   end)) as ->.
    { unfold processBuffer at 1. cbn [buffer readyState].
      destruct (length (buffer c ++ more)) as [|n] eqn:Hlength;
        [rewrite length_app in Hlength; lia|].
      simpl processBuffer_loop. cbn [buffer readyState].
      replace (length (buffer c ++ more) <? 2)%nat
        with false by (symmetry; apply Nat.ltb_ge; rewrite length_app; lia).
      rewrite Hparse'.
      assert ((if f_close result
               then close (mkWebSocketConnection (readyState c) (buffer c ++ more))
               else mkWebSocketConnection (readyState c) (buffer c ++ more))
              = mkWebSocketConnection (readyState c1) (buffer c ++ more)) as ->.
      { subst c1. destruct (f_close result); [|done]. unfold close. simpl.
        by destruct (readyState c =? CLOSED). }
      cbn [buffer readyState]. rewrite drop_app_le by lia.
      unfold processBuffer. subst c2. cbn [buffer readyState].
      rewrite (processBuffer_loop_fuel n
                 (length (drop (f_consumed result) (buffer c) ++ more)));
        [done
        | simpl; apply Forall_app; split; [by apply Forall_drop | done]
        | simpl; rewrite length_app, length_drop; rewrite length_app in Hlength; lia
        | done]. }
    rewrite IH; [|by apply Forall_drop | done | simpl; rewrite length_drop; lia].
    destruct (processBuffer_loop fuel c2) as [c3 messages]. cbn [fst snd].
    by destruct (f_message result).
Qed.

Lemma processBuffer_rest_length (c : WebSocketConnection) :
  (length (buffer (processBuffer c).1) <= length (buffer c))%nat.
Proof.
  unfold processBuffer.
  destruct (processBuffer_loop_rest (length (buffer c)) c) as [n ->].
  rewrite length_drop. lia.
Qed.

(** X20: how the bytes of a stream are cut into [data] events does not
    matter: as long as the buffer stays within its limit, two chunks that
    arrive one after the other dispatch the same messages, in the same
    order, and leave the connection in the same state as the two chunks
    arriving as one. *)
Theorem data_chunks_join (d1 d2 : list Z) (c : WebSocketConnection) :
  Forall is_byte (buffer c) -> Forall is_byte d1 -> Forall is_byte d2 ->
  Z.of_nat (length (buffer c)) + Z.of_nat (length d1) + Z.of_nat (length d2)
  <= MAX_WEBSOCKET_BUFFER_SIZE ->
  let first := onData d1 c in
  let second := onData d2 first.1 in
  onData (d1 ++ d2) c = (second.1, first.2 ++ second.2).
Proof.
  intros Hbuffer Hd1 Hd2 Hlimit first second. subst first second. unfold onData.
  replace (MAX_WEBSOCKET_BUFFER_SIZE
           <? Z.of_nat (length (buffer c)) + Z.of_nat (length d1))
    with false by (symmetry; apply Z.ltb_ge; lia).
  replace (MAX_WEBSOCKET_BUFFER_SIZE
           <? Z.of_nat (length (buffer c)) + Z.of_nat (length (d1 ++ d2)))
    with false by (symmetry; apply Z.ltb_ge; rewrite length_app; lia).
  pose proof (processBuffer_rest_length
                (mkWebSocketConnection (readyState c) (buffer c ++ d1))) as Hrest.
  simpl in Hrest. rewrite length_app in Hrest.
  replace (MAX_WEBSOCKET_BUFFER_SIZE
           <? Z.of_nat (length (buffer (processBuffer
                                          (mkWebSocketConnection (readyState c)
                                                                 (buffer c ++ d1))).1))
              + Z.of_nat (length d2))
    with false by (symmetry; apply Z.ltb_ge; lia).
  rewrite app_assoc.
  apply (processBuffer_loop_app (length (buffer c ++ d1))
           (mkWebSocketConnection (readyState c) (buffer c ++ d1)) d2);
    [by apply Forall_app | done | done].
Qed.

Lemma data_chunks_join_witness :
  let hello := [129; 5; 104; 101; 108; 108; 111] in
  let c := newWebSocketConnection in
  onData (take 3 hello ++ drop 3 hello) c
  = ((onData (drop 3 hello) (onData (take 3 hello) c).1).1,
     (onData (take 3 hello) c).2 ++ (onData (drop 3 hello) (onData (take 3 hello) c).1).2).
Proof.
  cbv zeta.
  apply (data_chunks_join (take 3 [129; 5; 104; 101; 108; 108; 111])
                          (drop 3 [129; 5; 104; 101; 108; 108; 111])
                          newWebSocketConnection).
  - constructor.
  - simpl. repeat (constructor; [unfold is_byte; lia|]). constructor.
  - simpl. repeat (constructor; [unfold is_byte; lia|]). constructor.
  - vm_compute. discriminate.
Defined.

Lemma processBuffer_loop_exit (fuel : nat) (c : WebSocketConnection) :
  Forall is_byte (buffer c) -> (length (buffer c) <= fuel)%nat ->
  let c' := (processBuffer_loop fuel c).1 in
  Forall is_byte (buffer c')
  /\ ((length (buffer c') < 2)%nat \/ parseFrame (buffer c') = None).
Proof.
  revert c. induction fuel as [|fuel IH]; intros c Hbytes Hfuel; simpl.
  - split; [done|]. left. lia.
  - destruct (length (buffer c) <? 2)%nat eqn:Htwo.
    { split; [done|]. left. by apply Nat.ltb_lt. }
    destruct (parseFrame (buffer c)) as [result|] eqn:Hparse; [|by split; [|right]].
    destruct (parseFrame_prefix (buffer c) [] result Hbytes Hparse) as [Hconsumed _].
    match goal with
    | |- context [processBuffer_loop fuel ?c2] =>
        specialize (IH c2); destruct (processBuffer_loop fuel c2) as [c3 messages]
    end.
    simpl in *. apply IH; [by apply Forall_drop | rewrite length_drop; lia].
Qed.

Lemma onData_invariant (data : list Z) (c : WebSocketConnection) :
  Forall is_byte data ->
  Forall is_byte (buffer c)
  /\ Z.of_nat (length (buffer c)) <= MAX_WEBSOCKET_BUFFER_SIZE
  /\ ((length (buffer c) < 2)%nat \/ parseFrame (buffer c) = None) ->
  let c' := (onData data c).1 in
  Forall is_byte (buffer c')
  /\ Z.of_nat (length (buffer c')) <= MAX_WEBSOCKET_BUFFER_SIZE
  /\ ((length (buffer c') < 2)%nat \/ parseFrame (buffer c') = None).
Proof.
  intros Hdata (Hbytes & Hlimit & Hexit). unfold onData.
  destruct (MAX_WEBSOCKET_BUFFER_SIZE <? _) eqn:Hover; simpl.
  - unfold close. by destruct (readyState c =? CLOSED).
  - apply Z.ltb_ge in Hover.
    pose proof (processBuffer_rest_length
                  (mkWebSocketConnection (readyState c) (buffer c ++ data))) as Hrest.
    simpl in Hrest. rewrite length_app in Hrest.
    destruct (processBuffer_loop_exit (length (buffer c ++ data))
                (mkWebSocketConnection (readyState c) (buffer c ++ data)))
      as [Hbytes' Hexit']; [by apply Forall_app | done |].
    split; [done|]. split; [lia | done].
Qed.

(** X21: whatever chunks of bytes arrive on a new connection, the receive
    buffer never holds more than a mebibyte, and after every [data] event
    it holds no complete frame: it is shorter than two bytes or
    [parseFrame] finds nothing in it.  The loop of [processBuffer] thus
    always comes to its own end. *)
Theorem receive_buffer_invariant (chunks : list (list Z)) :
  Forall (Forall is_byte) chunks ->
  let c := (receive chunks newWebSocketConnection).1 in
  Z.of_nat (length (buffer c)) <= MAX_WEBSOCKET_BUFFER_SIZE
  /\ ((length (buffer c) < 2)%nat \/ parseFrame (buffer c) = None).
Proof.
  intros Hchunks. cbv zeta. unfold receive.
  assert (forall st : WebSocketConnection * list (list Z),
            Forall is_byte (buffer st.1)
            /\ Z.of_nat (length (buffer st.1)) <= MAX_WEBSOCKET_BUFFER_SIZE
            /\ ((length (buffer st.1) < 2)%nat \/ parseFrame (buffer st.1) = None) ->
            let c := (fold_left
                        (fun st data =>
                           let '(c', messages) := onData data st.1 in
                           (c', st.2 ++ messages)) chunks st).1 in
            Z.of_nat (length (buffer c)) <= MAX_WEBSOCKET_BUFFER_SIZE
            /\ ((length (buffer c) < 2)%nat \/ parseFrame (buffer c) = None)) as Hfold.
  { induction Hchunks as [|data chunks Hdata Hchunks IH]; intros st Hinv; simpl.
    - by destruct Hinv as (_ & Hlimit & Hexit).
    - apply IH. pose proof (onData_invariant data st.1 Hdata Hinv) as Hinv'.
      by destruct (onData data st.1). }
  apply Hfold. simpl. split; [constructor|].
  split; [unfold MAX_WEBSOCKET_BUFFER_SIZE; lia|]. left. lia.
Qed.

Lemma receive_buffer_invariant_witness :
  let c := (receive [[129; 5; 104]; [101; 108]] newWebSocketConnection).1 in
  Z.of_nat (length (buffer c)) <= MAX_WEBSOCKET_BUFFER_SIZE
  /\ ((length (buffer c) < 2)%nat \/ parseFrame (buffer c) = None).
Proof.
  apply (receive_buffer_invariant [[129; 5; 104]; [101; 108]]).
  repeat (constructor; [repeat (constructor; [unfold is_byte; lia|]); constructor|]).
  constructor.
Defined.

(** ** Frames from [send] to [processBuffer] *)

Lemma send_frame_length (payload frame : list Z) :
  send OPEN payload = Some frame -> (2 <= length frame)%nat.
Proof.
  unfold send. change (negb (OPEN =? OPEN)) with false. cbv iota zeta.
  intros [= <-]. rewrite length_app.
  destruct (_ <? 126); [simpl; lia|]. destruct (_ <? 65536); simpl; lia.
Qed.

(** X22: the payloads that [send] frames on one side are the messages that
    [processBuffer] dispatches on the other: when a new connection is
    handed, in one [data] event within the buffer limit, the frames that
    [send] wrote for a list of payloads, it dispatches exactly these
    payloads, in order, and is left open with an empty buffer. *)
Theorem sent_frames_are_received (payloads frames : list (list Z)) :
  Forall2 (fun payload frame => send OPEN payload = Some frame) payloads frames ->
  Forall (fun payload => Z.of_nat (length payload) < 2 ^ 53) payloads ->
  Z.of_nat (length (concat frames)) <= MAX_WEBSOCKET_BUFFER_SIZE ->
  onData (concat frames) newWebSocketConnection = (newWebSocketConnection, payloads).
Proof.
  intros Hframes Hshort Hlimit. unfold onData. simpl buffer. simpl readyState.
  replace (MAX_WEBSOCKET_BUFFER_SIZE
           <? Z.of_nat (length (@nil Z)) + Z.of_nat (length (concat frames)))
    with false by (symmetry; apply Z.ltb_ge; simpl; lia).
  unfold processBuffer. simpl buffer. clear Hlimit.
  assert (forall fuel, (length (concat frames) <= fuel)%nat ->
            processBuffer_loop fuel (mkWebSocketConnection OPEN (concat frames))
            = (newWebSocketConnection, payloads)) as Hloop; [|by apply Hloop].
  induction Hframes as [|payload frame payloads frames Hsend Hframes IH];
    intros fuel Hfuel.
  - by destruct fuel.
  - apply Forall_cons in Hshort as [Hpayload Hshort].
    pose proof (send_frame_length payload frame Hsend) as Hlength.
    destruct (parseFrame_of_send payload (concat frames) Hpayload)
      as (frame' & Hsend' & Hparse).
    rewrite Hsend in Hsend'. injection Hsend' as <-.
    simpl concat in *. rewrite length_app in Hfuel.
    destruct fuel as [|fuel]; [lia|]. simpl processBuffer_loop. simpl buffer.
    replace (length (frame ++ concat frames) <? 2)%nat
      with false by (symmetry; apply Nat.ltb_ge; rewrite length_app; lia).
    rewrite Hparse. simpl. rewrite drop_app_length.
    rewrite (IH Hshort fuel) by lia. done.
Qed.

Lemma sent_frames_are_received_witness :
  onData (concat [[129; 2; 104; 105]; [129; 0]]) newWebSocketConnection
  = (newWebSocketConnection, [[104; 105]; []]).
Proof.
  apply (sent_frames_are_received [[104; 105]; []] [[129; 2; 104; 105]; [129; 0]]).
  - repeat (constructor; [vm_compute; reflexivity|]). constructor.
  - repeat (constructor; [vm_compute; reflexivity|]). constructor.
  - vm_compute. discriminate.
Defined.

(** ** Frames from a browser *)

(** X23: a text frame as a browser sends it, with the mask bit set, a
    masking key of four bytes and as payload the UTF-8 bytes of a text
    xor-ed with the key, is read by [parseFrame] as these UTF-8 bytes, the
    bytes that decode to the text: for a payload shorter than 126 bytes
    the frame takes the two header bytes, the key and the payload. *)
Theorem masked_frame_decodes (mask text rest : list Z) :
  length mask = 4%nat ->
  Forall is_scalar text ->
  let payload := Buffer_from_utf8 text in
  (length payload < 126)%nat ->
  parseFrame ([129; 128 + Z.of_nat (length payload)] ++ mask
              ++ applyMask mask payload ++ rest)
  = Some (mkParsedFrame (Some payload) (6 + length payload) false).
Proof.
  intros Hmask _ payload Hshort. generalize dependent payload. intros payload Hshort.
  destruct (land_short_length (Z.of_nat (length payload))) as [Hbit Hlow]; [lia|].
  assert (Z.land (128 + Z.of_nat (length payload)) 128 = 128
          /\ Z.land (128 + Z.of_nat (length payload)) 127 = Z.of_nat (length payload))
    as [Hmasked Hlength].
  { assert (Z.land 128 (Z.of_nat (length payload)) = 0) as Hbit'
      by (by rewrite Z.land_comm).
    assert (128 + Z.of_nat (length payload) = Z.lor 128 (Z.of_nat (length payload)))
      as -> by (rewrite <- Z.lxor_lor by done; by apply Z.add_nocarry_lxor).
    rewrite !Z.land_lor_distr_l, Hbit, Hlow. change (Z.land 128 128) with 128.
    change (Z.land 128 127) with 0. by rewrite Z.lor_0_r, Z.lor_0_l. }
  unfold parseFrame, frameBody.
  match goal with
  | |- context [Nat.ltb (length ?l) ?n] =>
      replace (Nat.ltb (length l) n) with false
        by (symmetry; apply Nat.ltb_ge; simpl; lia)
  end.
  cbn [byte_at nth app]. rewrite Hmasked, Hlength. change (Z.land 129 15) with 1.
  replace (Z.of_nat (length payload) =? 126) with false by (symmetry; apply Z.eqb_neq; lia).
  replace (Z.of_nat (length payload) =? 127) with false by (symmetry; apply Z.eqb_neq; lia).
  cbn [Z.eqb negb Pos.eqb].
  replace (Z.to_nat (Z.of_nat (2 + 4) + Z.of_nat (length payload)))
    with (6 + length payload)%nat by lia.
  match goal with
  | |- context [Nat.ltb (length ?l) ?n] =>
      replace (Nat.ltb (length l) n) with false
        by (symmetry; apply Nat.ltb_ge; simpl;
            rewrite !length_app, applyMask_length; lia)
  end.
  replace (subarray (2 + 4) (6 + length payload) _) with (applyMask mask payload)
    by (symmetry;
        apply (subarray_app 6 (length payload)
                 ([129; 128 + Z.of_nat (length payload)] ++ mask)
                 (applyMask mask payload) rest);
        [simpl; lia | apply applyMask_length]).
  replace (subarray (2 + 4 - 4) (2 + 4) _) with mask
    by (symmetry;
        apply (subarray_app 2 4 [129; 128 + Z.of_nat (length payload)] mask
                 (applyMask mask payload ++ rest)); done).
  by rewrite applyMask_twice.
Qed.

Lemma masked_frame_decodes_witness :
  parseFrame [129; 134; 1; 2; 3; 4; 105; 193; 170; 230; 131; 174; 0]
  = Some (mkParsedFrame (Some (Buffer_from_utf8 [104; 233; 8364])) 12 false).
Proof.
  assert (Forall is_scalar [104; 233; 8364]) as Hscalar
    by (repeat (constructor; [unfold is_scalar; lia|]); constructor).
  exact (masked_frame_decodes [1; 2; 3; 4] [104; 233; 8364] [0]
           eq_refl Hscalar ltac:(vm_compute; lia)).
Defined.

(** ** Restart *)

Lemma keys_set_elem {V : Type} (k k' : string) (v : V) (m : JsMap.t string V) :
  k' ∈ map fst (JsMap.set k v m) -> k' = k \/ k' ∈ map fst m.
Proof.
  induction m as [|[k0 v0] m IH]; simpl.
  - intros ->%list_elem_of_singleton. by left.
  - destruct (decide (k = k0)) as [->|Hne]; simpl.
    + intros [->|Hin]%elem_of_cons; [by left | right; by apply list_elem_of_further].
    + intros [->|Hin]%elem_of_cons; [right; apply list_elem_of_here|].
      destruct (IH Hin) as [->|Hin']; [by left | right; by apply list_elem_of_further].
Qed.

Lemma keys_set_NoDup {V : Type} (k : string) (v : V) (m : JsMap.t string V) :
  NoDup (map fst m) -> NoDup (map fst (JsMap.set k v m)).
Proof.
  induction m as [|[k0 v0] m IH]; simpl; intros Hm.
  - apply NoDup_singleton.
  - apply NoDup_cons in Hm as [Hk0 Hm].
    destruct (decide (k = k0)) as [->|Hne]; simpl; apply NoDup_cons.
    + done.
    + split; [|by apply IH]. by intros [->|Hin]%keys_set_elem.
Qed.

Lemma keys_delete_elem {V : Type} (k k' : string) (m : JsMap.t string V) :
  k' ∈ map fst (JsMap.delete k m) -> k' ∈ map fst m.
Proof.
  induction m as [|[k0 v0] m IH]; simpl; [done|].
  destruct (decide (k = k0)); simpl.
  - intros Hin. by apply list_elem_of_further, IH.
  - intros [->|Hin]%elem_of_cons; [apply list_elem_of_here|].
    by apply list_elem_of_further, IH.
Qed.

Lemma keys_delete_NoDup {V : Type} (k : string) (m : JsMap.t string V) :
  NoDup (map fst m) -> NoDup (map fst (JsMap.delete k m)).
Proof.
  induction m as [|[k0 v0] m IH]; simpl; intros Hm; [done|].
  apply NoDup_cons in Hm as [Hk0 Hm].
  destruct (decide (k = k0)); simpl; [by apply IH|].
  apply NoDup_cons. split; [|by apply IH]. by intros Hin%keys_delete_elem.
Qed.

Lemma keys_filter_NoDup {V : Type} (f : string * V -> bool) (m : JsMap.t string V) :
  NoDup (map fst m) -> NoDup (map fst (List.filter f m)).
Proof.
  induction m as [|[k0 v0] m IH]; simpl; intros Hm; [done|].
  apply NoDup_cons in Hm as [Hk0 Hm].
  destruct (f (k0, v0)); simpl; [|by apply IH].
  apply NoDup_cons. split; [|by apply IH]. intros Hin. apply Hk0.
  apply list_elem_of_fmap in Hin as (kv & -> & Hin).
  apply list_elem_of_In, List.filter_In in Hin as [Hin _].
  apply list_elem_of_fmap. exists kv. split; [done | by apply list_elem_of_In].
Qed.


Lemma keyed_set (k : string) (room : Room) (m : JsMap.t string Room) :
  keyed_map m -> r_id room = k -> keyed_map (JsMap.set k room m).
Proof.
  intros [Hnodup Hids] Hid. split; [by apply keys_set_NoDup | by apply Forall_set].
Qed.

Lemma keyed_delete (k : string) (m : JsMap.t string Room) :
  keyed_map m -> keyed_map (JsMap.delete k m).
Proof.
  intros [Hnodup Hids]. split; [by apply keys_delete_NoDup | by apply Forall_delete].
Qed.

Lemma keyed_alter (f : Room -> Room) (k : string) (m : JsMap.t string Room) :
  keyed_map m -> (forall r, r_id (f r) = r_id r) -> keyed_map (JsMap.alter f k m).
Proof.
  intros Hm Hf. unfold JsMap.alter. destruct (JsMap.get k m) as [room|] eqn:Hget; [|done].
  apply keyed_set; [done|]. rewrite Hf.
  destruct Hm as [_ Hids]. by apply (Forall_get _ _ _ _ Hids Hget).
Qed.

Lemma keyed_filter (f : string * Room -> bool) (m : JsMap.t string Room) :
  keyed_map m -> keyed_map (List.filter f m).
Proof.
  intros [Hnodup Hids]. split; [by apply keys_filter_NoDup | by apply Forall_List_filter].
Qed.

Lemma rooms_keyed_update_room (roomId : string) (f : Room -> Room) (st : RoomManager) :
  rooms_keyed st -> (forall r, r_id (f r) = r_id r) ->
  rooms_keyed (update_room roomId f st).
Proof. intros Hst Hf. unfold rooms_keyed, update_room. simpl. by apply keyed_alter. Qed.

Lemma rooms_keyed_if (c : bool) (st st' : RoomManager) :
  rooms_keyed st -> rooms_keyed st' -> rooms_keyed (if c then st else st').
Proof. by destruct c. Qed.

Lemma rooms_keyed_getOrCreateRoom (roomId : string) (config : option RoomConfig) (now : Z)
    (st : RoomManager) :
  rooms_keyed st -> rooms_keyed (getOrCreateRoom roomId config now st).2.
Proof.
  intros Hst. unfold getOrCreateRoom. destruct (getRoom roomId st); [done|].
  unfold rooms_keyed. simpl. by apply keyed_set.
Qed.

Lemma rooms_keyed_addParticipant (roomId : string) (participant : Ref) (isHost : bool)
    (now : Z) (st : RoomManager) :
  rooms_keyed st -> rooms_keyed (addParticipant roomId participant isHost now st).2.
Proof.
  intros Hst. unfold addParticipant.
  pose proof (rooms_keyed_getOrCreateRoom roomId None now st Hst) as Hst1.
  destruct (getOrCreateRoom roomId None now st) as [room st1]. simpl in Hst1.
  destruct (Z.of_nat (JsMap.size (participants room)) >=? maxParticipants room);
    cbv beta iota zeta; cbn [snd]; [done|].
  apply rooms_keyed_if; [|]; (apply rooms_keyed_update_room; [|done]);
    (apply rooms_keyed_if; [|done]); by apply (rooms_keyed_update_room roomId _ st1).
Qed.

Lemma rooms_keyed_removeParticipant (roomId participantId : string) (st : RoomManager) :
  rooms_keyed st -> rooms_keyed (removeParticipant roomId participantId st).
Proof.
  intros Hst. unfold removeParticipant.
  destruct (JsMap.get roomId (rooms st)) as [room|]; [|done]. cbv zeta.
  match goal with
  | |- rooms_keyed (if _ then set_rooms (JsMap.delete _ (rooms ?s)) ?s else ?s) =>
      assert (rooms_keyed s) as Hst2
  end.
  { apply rooms_keyed_if; [|by apply rooms_keyed_update_room].
    destruct (JsMap.first_value _); [|by apply rooms_keyed_update_room].
    apply (rooms_keyed_update_room roomId _ (update_room roomId _ st)); [|done].
    by apply rooms_keyed_update_room. }
  apply rooms_keyed_if; [|done]. unfold rooms_keyed. simpl. by apply keyed_delete.
Qed.

Lemma rooms_keyed_step (rs : Socket -> Z) (now : Z) (op : Op) (st : RoomManager) :
  rooms_keyed st -> rooms_keyed (step rs now op st).
Proof.
  intros Hst. destruct op; unfold step.
  - unfold rooms_keyed. simpl. by apply keyed_set.
  - unfold preCreateRoom. repeat case_match; cbn [snd]; try done.
    unfold rooms_keyed. simpl. by apply keyed_set.
  - by apply rooms_keyed_getOrCreateRoom.
  - unfold addToWaitingRoom.
    pose proof (rooms_keyed_getOrCreateRoom roomId None now st Hst) as Hst1.
    destruct (getOrCreateRoom roomId None now st) as [room st1]. simpl in Hst1.
    case_match; simpl; [done|]. by apply rooms_keyed_update_room.
  - unfold admitFromWaitingRoom. repeat case_match; simpl; try done.
    by apply rooms_keyed_update_room.
  - unfold rejectFromWaitingRoom. repeat case_match; simpl; try done.
    by apply rooms_keyed_update_room.
  - unfold alloc. by apply rooms_keyed_addParticipant.
  - by apply rooms_keyed_removeParticipant.
  - unfold updateParticipant. by repeat case_match.
  - by apply rooms_keyed_update_room.
  - by apply rooms_keyed_update_room.
  - unfold kickParticipant.
    destruct (JsMap.get roomId (rooms st)) as [room|]; [|done].
    destruct (JsMap.get participantId (participants room)); [|done].
    cbn [fst snd]. by apply rooms_keyed_removeParticipant.
  - unfold cleanupAbandonedRooms. cbv zeta. cbn [snd].
    case_match; unfold rooms_keyed; simpl; by apply keyed_filter.
Qed.




(** ** Join: admission into the room *)

Lemma getOrCreateRoom_get (roomId : string) (config : option RoomConfig) (now : Z)
    (st : RoomManager) :
  getRoom roomId (getOrCreateRoom roomId config now st).2
  = Some (getOrCreateRoom roomId config now st).1
  /\ heap (getOrCreateRoom roomId config now st).2 = heap st.
Proof.
  unfold getOrCreateRoom. destruct (getRoom roomId st) as [room|] eqn:Hroom; [done|].
  split; [|done]. unfold getRoom. simpl. apply get_set_eq.
Qed.

Lemma getRoom_if_peak (b : bool) (n : nat) (roomId : string) (st : RoomManager) :
  getRoom roomId (if b then set_peakParticipants n st else st) = getRoom roomId st.
Proof. by destruct b. Qed.

Lemma heap_if_peak (b : bool) (n : nat) (st : RoomManager) :
  heap (if b then set_peakParticipants n st else st) = heap st.
Proof. by destruct b. Qed.

(** What [addParticipant] does when the room has a free place. *)
Lemma addParticipant_spec (roomId : string) (participant : Ref) (isHost : bool) (now : Z)
    (st : RoomManager) :
  let room := (getOrCreateRoom roomId None now st).1 in
  let pid := p_id (deref (heap st) participant) in
  let promoted := (JsMap.size (participants room) =? 0)%nat || isHost in
  Z.of_nat (JsMap.size (participants room)) < maxParticipants room ->
  let res := addParticipant roomId participant isHost now st in
  res.1 = true
  /\ heap res.2
     = (if promoted
        then <[participant := set_isModerator true (deref (heap st) participant)]> (heap st)
        else heap st)
  /\ getRoom roomId res.2
     = Some (set_participants (JsMap.set pid participant (participants room))
               (if promoted then set_hostId (Some pid) room else room)).
Proof.
  intros room pid promoted Hspace res. subst res. unfold addParticipant.
  destruct (getOrCreateRoom_get roomId None now st) as [Hget Hheap]. fold room in Hget.
  subst room. destruct (getOrCreateRoom roomId None now st) as [room st1].
  cbn [fst snd] in *.
  replace (Z.of_nat (JsMap.size (participants room)) >=? maxParticipants room)
    with false by (symmetry; rewrite Z.geb_leb; apply Z.leb_gt; lia).
  cbn [fst snd]. rewrite heap_if_peak, getRoom_if_peak, Hheap. fold pid.
  split; [done|]. subst promoted.
  destruct ((JsMap.size (participants room) =? 0)%nat || isHost).
  - rewrite update_room_mutate, update_room_twice. split.
    + unfold update_room, mutate. simpl. by rewrite Hheap.
    + by rewrite getRoom_update_room_eq, getRoom_mutate, Hget.
  - split; [done|]. by rewrite getRoom_update_room_eq, Hget.
Qed.

Lemma length_set_fresh {V : Type} (k : string) (v : V) (m : JsMap.t string V) :
  JsMap.get k m = None -> length (JsMap.set k v m) = S (length m).
Proof.
  induction m as [|[k' v'] m IH]; simpl; [done|].
  destruct (decide (k = k')); [done|]. intros Hget. simpl. by rewrite IH.
Qed.

(** X25: a join that passes the three gates (the room exists or the joiner
    brings the host flag; the password is right; the room is unlocked or
    the joiner brings a valid creator token) into a room with a free place
    binds the socket to a new participant object with the minted id, the
    given name and all flags down, filed in the room under that id; no
    other participant object changes.  The joiner is a moderator exactly
    when it brought the host flag or a valid creator token or is the first
    in the room, and it is then the room's host; it is told so by its own
    [participant-joined] envelope. *)
Theorem join_admits (rs : Socket -> Z) (socket : Socket) (message : Msg)
    (participantId : string) (now : Z) (ss : SignalingServer) :
  let rm := roomManager ss in
  let roomId := m_roomId message in
  let isHost := default false (m_isHost message) in
  let isCreator :=
    truthy (m_creatorToken message)
    && validateCreatorToken roomId (default "" (m_creatorToken message)) rm in
  let joiner := length (heap rm) in
  let alone :=
    match getRoom roomId rm with
    | Some room => (JsMap.size (participants room) =? 0)%nat
    | None => true
    end in
  let moderator := isHost || isCreator || alone in
  isHost = true \/ is_Some (getRoom roomId rm) ->
  validatePassword roomId (m_password message) rm = true ->
  isRoomLocked roomId rm = false \/ isCreator = true ->
  (forall room, getRoom roomId rm = Some room ->
     Z.of_nat (JsMap.size (participants room)) < maxParticipants room
     /\ JsMap.get participantId (participants room) = None) ->
  let res := handleJoin rs socket message participantId now ss in
  let rm' := roomManager res.1 in
  s_participants res.1 = <[socket := joiner]> (s_participants ss)
  /\ s_waitingParticipants res.1 = s_waitingParticipants ss
  /\ deref (heap rm') joiner
     = mkParticipant participantId (default "" (m_name message)) socket roomId
                     moderator false false false now
  /\ (forall r, (r < joiner)%nat -> deref (heap rm') r = deref (heap rm) r)
  /\ (exists room', getRoom roomId rm' = Some room'
                    /\ JsMap.get participantId (participants room') = Some joiner
                    /\ (moderator = true -> hostId room' = Some participantId))
  /\ Send socket (participantJoined roomId participantId (m_name message)
                                    moderator false false now) ∈ res.2.
Proof.
  intros rm roomId isHost isCreator joiner alone moderator Hfound Hpassword Hlock Hspace
         res rm'.
  subst res rm'. unfold handleJoin. cbv zeta. fold rm roomId isHost isCreator.
  replace (negb isHost && negb (bool_decide (is_Some (getRoom roomId rm)))) with false
    by (destruct Hfound as [-> | Hsome];
        [done | by rewrite (bool_decide_eq_true_2 _ Hsome), andb_false_r]).
  rewrite Hpassword, andb_false_r.
  replace (isRoomLocked roomId rm && negb isCreator) with false
    by (destruct Hlock as [-> | ->]; [done | by rewrite andb_false_r]).
  set (rm1 := if truthy (m_password message)
                 && negb (bool_decide (is_Some (getRoom roomId rm)))
              then (createRoom roomId
                      (Some {| c_password := m_password message;
                               c_maxParticipants := None |}) now rm).2
              else rm).
  set (object := mkParticipant participantId (default "" (m_name message)) socket roomId
                               false false false false now).
  set (rm2 := set_heap (heap rm1 ++ [object]) rm1).
  assert (heap rm1 = heap rm) as Hheap1.
  { unfold rm1.
    by destruct (truthy (m_password message)
                 && negb (bool_decide (is_Some (getRoom roomId rm)))). }
  assert (let room0 := (getOrCreateRoom roomId None now rm2).1 in
          Z.of_nat (JsMap.size (participants room0)) < maxParticipants room0
          /\ JsMap.get participantId (participants room0) = None
          /\ (JsMap.size (participants room0) =? 0)%nat = alone) as Hroom0.
  { subst alone. cbv zeta. unfold getOrCreateRoom.
    change (getRoom roomId rm2) with (getRoom roomId rm1). subst rm1.
    destruct (getRoom roomId rm) as [room|] eqn:Hroom.
    - rewrite (bool_decide_eq_true_2 (is_Some (Some room))) by (by eexists).
      rewrite andb_false_r, Hroom. simpl. by destruct (Hspace room eq_refl).
    - rewrite (bool_decide_eq_false_2 (is_Some None)) by (by intros [? ?]).
      rewrite andb_true_r. destruct (truthy (m_password message)).
      + unfold getRoom. simpl. rewrite get_set_eq. simpl.
        unfold defaultMaxParticipants. by repeat split.
      + rewrite Hroom. simpl. unfold defaultMaxParticipants. by repeat split. }
  clearbody rm1. unfold alloc. fold object. fold rm2.
  replace (length (heap rm1)) with joiner by (subst joiner; by rewrite Hheap1).
  assert (deref (heap rm2) joiner = object) as Hobject.
  { subst rm2 joiner. simpl. rewrite <- Hheap1. apply deref_app_new. }
  assert (forall r, (r < joiner)%nat -> deref (heap rm2) r = deref (heap rm) r) as Hold.
  { intros r Hr. subst rm2 joiner. simpl. unfold deref.
    rewrite lookup_app_l by (rewrite Hheap1; lia). by rewrite Hheap1. }
  destruct Hroom0 as (Hfree & Hfresh & Halone).
  pose proof (addParticipant_spec roomId joiner (isHost || isCreator) now rm2 Hfree)
    as (Hadded & Hheap3 & Hroom3).
  rewrite Hobject in Hheap3, Hroom3. cbn [p_id object] in Hroom3.
  set (room0 := (getOrCreateRoom roomId None now rm2).1) in *.
  rewrite Halone in Hheap3, Hroom3.
  destruct (addParticipant roomId joiner (isHost || isCreator) now rm2) as [added rm3].
  cbn [fst snd] in Hadded, Hheap3, Hroom3. subst added. cbn [negb].
  rewrite Hroom3. cbn [participants set_participants].
  repeat match goal with
  | |- context [Nat.eqb (JsMap.size ?m) 1] =>
      replace (Nat.eqb (JsMap.size m) 1) with alone
        by (unfold JsMap.size; rewrite length_set_fresh by done;
            rewrite <- Halone; unfold JsMap.size;
            by destruct (length (participants room0)))
  end.
  assert (moderator = alone || (isHost || isCreator)) as Hmoderator
    by (subst moderator; by destruct isHost, isCreator, alone).
  assert ((joiner < length (heap rm2))%nat) as Hin
    by (subst rm2 joiner; simpl; rewrite length_app, Hheap1; simpl; lia).
  assert (deref (heap rm3) joiner
          = mkParticipant participantId (default "" (m_name message)) socket roomId
                          moderator false false false now
          /\ (forall r, (r < joiner)%nat -> deref (heap rm3) r = deref (heap rm) r)
          /\ (length (heap rm3) = length (heap rm2))) as (Hjoiner3 & Hold3 & Hlength3).
  { rewrite Hheap3, Hmoderator. destruct (alone || (isHost || isCreator)).
    - rewrite deref_insert_eq by done. split; [done|]. split; [|apply length_insert].
      intros r Hr. rewrite deref_insert_ne by lia. by apply Hold.
    - by rewrite Hobject. }
  set (rm4 := if isCreator || alone
              then mutate joiner (set_isModerator true)
                     (update_room roomId
                        (set_hostId (Some (p_id (deref (heap rm3) joiner)))) rm3)
              else rm3).
  assert (deref (heap rm4) joiner
          = mkParticipant participantId (default "" (m_name message)) socket roomId
                          moderator false false false now
          /\ (forall r, (r < joiner)%nat -> deref (heap rm4) r = deref (heap rm) r)
          /\ exists room', getRoom roomId rm4 = Some room'
                           /\ JsMap.get participantId (participants room') = Some joiner
                           /\ (moderator = true -> hostId room' = Some participantId))
    as (Hjoiner4 & Hold4 & Hroom4).
  { subst rm4. destruct (isCreator || alone) eqn:Hsecond.
    - assert (moderator = true) as Htrue
        by (rewrite Hmoderator; destruct isCreator, alone, isHost; done).
      split; [|split].
      + unfold mutate, update_room. simpl.
        rewrite deref_insert_eq by (rewrite Hlength3; done).
        rewrite Hjoiner3, Htrue. done.
      + intros r Hr. unfold mutate, update_room. simpl.
        rewrite deref_insert_ne by lia. by apply Hold3.
      + rewrite getRoom_mutate, getRoom_update_room_eq, Hroom3. simpl. eexists.
        split; [done|]. simpl. split; [apply get_set_eq|]. intros _.
        by rewrite Hjoiner3.
    - split; [done|]. split; [done|]. exists
        (set_participants (JsMap.set participantId joiner (participants room0))
           (if alone || (isHost || isCreator)
            then set_hostId (Some participantId) room0 else room0)).
      split; [done|]. simpl. split; [apply get_set_eq|].
      rewrite Hmoderator. by intros ->. }
  clearbody rm4. cbn [fst snd roomManager s_participants s_waitingParticipants].
  split; [done|]. split; [done|]. split; [done|]. split; [done|]. split; [done|].
  rewrite Hjoiner4. cbn [isModerator isMuted isVideoOff].
  apply elem_of_app. right. apply elem_of_app. left. apply list_elem_of_singleton. done.
Qed.

Lemma join_admits_witness :
  let res := handleJoin all_open 3%nat (joinMsg "ABC123" "Carol" None) "P3" 7 two_peers in
  s_participants res.1 !! 3%nat = Some 2%nat
  /\ deref (heap (roomManager res.1)) 2%nat
     = mkParticipant "P3" "Carol" 3%nat "ABC123" false false false false 7.
Proof.
  cbv zeta.
  destruct (join_admits all_open 3%nat (joinMsg "ABC123" "Carol" None) "P3" 7 two_peers)
    as (Hbound & _ & Hobject & _).
  - right. vm_compute. by eexists.
  - vm_compute. reflexivity.
  - left. vm_compute. reflexivity.
  - intros room Hroom. vm_compute in Hroom. injection Hroom as <-.
    split; vm_compute; reflexivity.
  - split.
    + rewrite Hbound. assert (length (heap (roomManager two_peers)) = 2%nat) as ->
        by (vm_compute; reflexivity).
      apply lookup_insert_eq.
    + etransitivity; [|etransitivity; [exact Hobject|]]; vm_compute; reflexivity.
Defined.

(** ** Chat *)

Lemma broadcast_to_room (rs : Socket -> Z) (roomId : string) (message : Msg)
    (excludeId : string) (st : RoomManager) (e : Effect) :
  e ∈ broadcast rs roomId message (Some excludeId) st <->
  exists room p,
    getRoom roomId st = Some room
    /\ p ∈ JsMap.values (participants room)
    /\ p_id (deref (heap st) p) <> excludeId
    /\ rs (p_socket (deref (heap st) p)) = 1
    /\ e = Send (p_socket (deref (heap st) p)) message.
Proof.
  unfold broadcast, getOtherParticipants, getParticipants, getRoom.
  rewrite list_elem_of_omap. split.
  - intros (p & Hin & Hp).
    apply list_elem_of_In, filter_In in Hin as [Hin Hne].
    destruct (JsMap.get roomId (rooms st)) as [room|]; [|done].
    destruct (rs (p_socket (deref (heap st) p)) =? 1) eqn:Hopen; [|done].
    injection Hp as <-. exists room, p. split; [done|].
    split; [by apply list_elem_of_In|].
    split; [|split; [by apply Z.eqb_eq | done]].
    apply negb_true_iff in Hne. by apply String.eqb_neq in Hne.
  - intros (room & p & Hroom & Hin & Hne & Hopen & ->).
    exists p. rewrite Hroom. split.
    + apply list_elem_of_In, filter_In. split; [by apply list_elem_of_In|].
      apply negb_true_iff. by apply String.eqb_neq.
    + by rewrite Hopen.
Qed.

(** X26: a chat frame from a participant changes no state and never leaves
    the sender's room, whatever room id the frame carries: the one
    envelope that is sent is the inbound one with [participantId] replaced
    by the sender's id and [timestamp] by the clock, its other fields
    untouched.  It is sent to exactly the participants of the room the
    sender is bound to whose id is not the sender's and whose socket is
    open, every one of them, in the order in which they joined, and last
    of all, whatever the state of its socket, back to the sender. *)
Theorem chat_stays_in_room (rs : Socket -> Z) (socket : Socket) (message : Msg) (now : Z)
    (ss : SignalingServer) (sender : Ref) :
  s_participants ss !! socket = Some sender ->
  let rm := roomManager ss in
  let me := deref (heap rm) sender in
  let chat := with_participantId_timestamp (p_id me) now message in
  let res := handleChat rs socket message now ss in
  res.1 = ss
  /\ m_participantId chat = p_id me /\ m_timestamp chat = now
  /\ with_participantId_timestamp (m_participantId message) (m_timestamp message) chat
     = message
  /\ exists others,
       res.2 = others ++ [Send socket chat]
       /\ others
          = omap (fun p =>
                    let e := deref (heap rm) p in
                    if negb (String.eqb (p_id e) (p_id me)) && (rs (p_socket e) =? 1)
                    then Some (Send (p_socket e) chat) else None)
                 (match getRoom (p_roomId me) rm with
                  | Some room => JsMap.values (participants room)
                  | None => []
                  end)
       /\ forall e, e ∈ others <->
            exists room p,
              getRoom (p_roomId me) rm = Some room
              /\ p ∈ JsMap.values (participants room)
              /\ p_id (deref (heap rm) p) <> p_id me
              /\ rs (p_socket (deref (heap rm) p)) = 1
              /\ e = Send (p_socket (deref (heap rm) p)) chat.
Proof.
  intros Hbound rm me chat res. subst res. unfold handleChat. rewrite Hbound.
  cbv zeta. fold rm me chat. cbn [fst snd].
  split; [done|]. split; [done|]. split; [done|]. split; [by destruct message|].
  eexists. split; [done|]. split; [|intros e; apply broadcast_to_room].
  unfold broadcast, getOtherParticipants, getParticipants, getRoom.
  change (default "" (Some (p_id me))) with (p_id me).
  generalize (match JsMap.get (p_roomId me) (rooms rm) with
              | Some room => JsMap.values (participants room)
              | None => []
              end).
  intros members. induction members as [|p members IH]; [done|].
  simpl. destruct (negb (p_id (deref (heap rm) p) =? p_id me)%string); simpl.
  - destruct (rs (p_socket (deref (heap rm) p)) =? 1); [f_equal|]; exact IH.
  - exact IH.
Qed.

(** Alice's and Bob's room with Carol, who joined third. *)
Lemma chat_stays_in_room_witness :
  let three :=
    (handleJoin all_open 3%nat (joinMsg "ABC123" "Carol" None) "P3" 7 two_peers).1 in
  let forged :=
    mkMsg T_chat "OTHER" "P1" 0 None None None None None None
          None None None None None None None None None "hello" in
  let chat :=
    mkMsg T_chat "OTHER" "P2" 9 None None None None None None
          None None None None None None None None None "hello" in
  handleChat all_open 2%nat forged 9 three
  = (three, [Send 1%nat chat; Send 3%nat chat; Send 2%nat chat]).
Proof.
  cbv zeta.
  destruct (chat_stays_in_room all_open 2%nat
              (mkMsg T_chat "OTHER" "P1" 0 None None None None None None
                     None None None None None None None None None "hello")
              9 (handleJoin all_open 3%nat (joinMsg "ABC123" "Carol" None) "P3" 7
                            two_peers).1 1%nat)
    as (Hstate & _ & _ & _ & others & Heffects & Hothers & _);
    [vm_compute; reflexivity|].
  rewrite Hothers in Heffects. clear Hothers.
  destruct (handleChat _ _ _ _ _) as [state effects]. cbn [fst snd] in Hstate, Heffects.
  rewrite Hstate, Heffects. f_equal.
Defined.

(** ** Rooms and their keys *)

Lemma rooms_keyed_restart (maxLatent latentHours : option Z) (now : Z)
    (file : list PreCreatedRoomData) :
  rooms_keyed (restartRoomManager maxLatent latentHours now file).
Proof.
  unfold restartRoomManager, loadPreCreatedRooms, rooms_keyed. simpl.
  assert (keyed_map []) as Hnil by (split; constructor).
  revert Hnil. generalize (@nil (string * Room)).
  induction file as [|roomData file IH]; intros loaded Hloaded; simpl; [done|].
  apply IH. destruct (_ >? _); [done|]. by apply keyed_set.
Qed.

(** X27: the room map never holds a key twice and every room carries its
    key as its id: this holds in the registry as the constructor leaves it,
    whatever the persistence file holds, and after every sequence of
    registry calls from there.  (It is what makes the file written by
    [persistPreCreatedRooms], which records the id of a room and not its
    key, name each room once.) *)
Theorem rooms_keyed_invariant (rs : Socket -> Z) (calls : list (Z * Op))
    (maxLatent latentHours : option Z) (now : Z) (file : list PreCreatedRoomData) :
  let st := run rs calls (restartRoomManager maxLatent latentHours now file) in
  NoDup (map fst (rooms st))
  /\ forall roomId room, getRoom roomId st = Some room -> r_id room = roomId.
Proof.
  cbv zeta.
  assert (rooms_keyed (run rs calls (restartRoomManager maxLatent latentHours now file)))
    as [Hnodup Hids].
  { pose proof (rooms_keyed_restart maxLatent latentHours now file) as Hstart.
    revert Hstart. generalize (restartRoomManager maxLatent latentHours now file).
    induction calls as [|[t op] calls IH]; intros st Hst; simpl; [done|].
    apply IH. by apply rooms_keyed_step. }
  split; [done|]. intros roomId room Hroom.
  by apply (Forall_get _ _ _ _ Hids Hroom).
Qed.

(** ** The persistence file *)









Lemma same_file_if (c : bool) (st st' st'' : RoomManager) :
  same_file st st' -> same_file st st'' -> same_file st (if c then st' else st'').
Proof. by destruct c. Qed.












(** Without the proviso on [createRoom] the file can be stale: the room
    that replaces a pre-created room under its id is ad-hoc, and is not
    written; the file keeps the entry of the room it replaced, and a
    restart brings that room back. *)
Lemma restart_revives_replaced_room :
  let calls :=
    [(1000, OpPreCreateRoom (Some (mkPreCreateOptions (Some "PRE777") (Some "pw") None))
                            "generated" "tok-1");
     (2000, OpCreateRoom "PRE777" None)] in
  let st := run all_open calls (newRoomManager None None) in
  let restarted := restartRoomManager None None 5000 (persisted st) in
  creates_fresh all_open calls (newRoomManager None None) = false
  /\ (isPreCreated <$> getRoom "PRE777" st) = Some false
  /\ getRoom "PRE777" restarted
     = Some (mkRoom "PRE777" [] [] (Some "pw") false None 1000 8 (Some "tok-1") true).
Proof. cbv zeta. repeat split; vm_compute; reflexivity. Qed.
